(** * OCED: object-centric event data, the event-application engine

    A shallow embedding of [OCED.py]: the twelve qualifier classes, the
    [Event] class with its validate / commit / log passes, and the [OCED]
    model with [insert_event].

    Python objects are mutated in place and exceptions leave whatever was
    mutated before the [raise]; both are modelled by a state-and-exception
    monad [M S A := S -> outcome A * S]: a computation returns its outcome
    together with the state as it is when it returns or raises. *)

From Stdlib Require Import String Ascii List Arith Lia.
From Stdlib Require Import OrderedTypeEx Sorted.
From stdpp Require Import gmap strings list fin_maps.

Local Open Scope string_scope.
Local Open Scope list_scope.

(** ** Exceptions and the state-and-exception monad *)

Inductive exn : Type := TypeError | ValueError | KeyError | AttributeError.

Inductive outcome (A : Type) : Type :=
| Done (a : A)
| Raise (e : exn).
Arguments Done {A} a.
Arguments Raise {A} e.

Definition is_Raise {A : Type} (r : outcome A) : bool :=
  match r with Done _ => false | Raise _ => true end.

Definition M (S A : Type) : Type := S -> outcome A * S.

Definition ret {S A : Type} (a : A) : M S A := fun s => (Done a, s).

Definition bind {S A B : Type} (c : M S A) (k : A -> M S B) : M S B :=
  fun s => match c s with
           | (Done a, s') => k a s'
           | (Raise e, s') => (Raise e, s')
           end.

Definition raise {S A : Type} (e : exn) : M S A := fun s => (Raise e, s).

Definition gets {S A : Type} (f : S -> A) : M S A := fun s => (Done (f s), s).

Definition modify {S : Type} (f : S -> S) : M S unit := fun s => (Done tt, f s).

Declare Scope py_scope.
Delimit Scope py_scope with py.
Notation "'do' x <- c ; k" := (bind c (fun x => k))
  (at level 10, x name, c at level 100, k at level 200) : py_scope.
Notation "c >>> k" := (bind c (fun _ => k))
  (at level 90, right associativity) : py_scope.
Local Open Scope py_scope.

(** [for x in l: body(x)] *)
Fixpoint for_each {S A : Type} (l : list A) (body : A -> M S unit) : M S unit :=
  match l with
  | [] => ret tt
  | x :: l' => body x >>> for_each l' body
  end.

(** [for i, x in enumerate(l): body(i, x)], counting from [i]. *)
Fixpoint for_enumerate {St A : Type} (i : nat) (l : list A)
    (body : nat -> A -> M St unit) : M St unit :=
  match l with
  | [] => ret tt
  | x :: l' => body i x >>> for_enumerate (S i) l' body
  end.

(** [d[k]] on a dict: [KeyError] when the key is missing. *)
Definition getitem {S V : Type} (d : S -> gmap string V) (k : string) : M S V :=
  fun s => match d s !! k with
           | Some v => (Done v, s)
           | None => (Raise KeyError, s)
           end.

(** The messages of the qualifiers' precondition errors are f-strings that
    read [self.__name__].  A name that ends in two underscores is not
    mangled, and an instance of a qualifier class has no attribute
    [__name__] (only the class has), so evaluating the message raises
    [AttributeError] before the [ValueError] is built. *)
Definition self___name__ : outcome string := Raise AttributeError.

(** [raise E(msg)]: the message is evaluated first. *)
Definition raise_with {S A : Type} (E : exn) (msg : outcome string) : M S A :=
  match msg with
  | Done _ => raise E
  | Raise e => raise e
  end.

(** ** The current-state store *)

Record object_rec : Type := mk_object_rec {
  obj_type : string;
  obj_existency : bool;
  object_relation_ids : list string;
  object_attribute_value_ids : list string }.

Record object_relation_rec : Type := mk_object_relation_rec {
  rel_type : string;
  rel_existency : bool;
  rel_from_object_id : string;
  rel_to_object_id : string }.

Record object_attribute_value_rec : Type := mk_object_attribute_value_rec {
  oav_name : string;
  oav_value : string;
  oav_existency : bool;
  oav_object_id : string }.

Record current_state : Type := mk_current_state {
  cs_object : gmap string object_rec;
  cs_object_relation : gmap string object_relation_rec;
  cs_object_attribute_value : gmap string object_attribute_value_rec }.

Record involved_ids : Type := mk_involved_ids {
  inv_object : gset string;
  inv_object_relation : gset string;
  inv_object_attribute_value : gset string }.

(** [{'object': set(), 'object_relation': set(), 'object_attribute_value': set()}] *)
Definition no_involved_ids : involved_ids := mk_involved_ids ∅ ∅ ∅.

Definition empty_current_state : current_state := mk_current_state ∅ ∅ ∅.

(** In-place updates of one field. *)
Definition obj_set_type (t : string) (o : object_rec) : object_rec :=
  mk_object_rec t (obj_existency o) (object_relation_ids o) (object_attribute_value_ids o).
Definition obj_set_existency (b : bool) (o : object_rec) : object_rec :=
  mk_object_rec (obj_type o) b (object_relation_ids o) (object_attribute_value_ids o).
Definition obj_append_relation_id (r : string) (o : object_rec) : object_rec :=
  mk_object_rec (obj_type o) (obj_existency o) (object_relation_ids o ++ [r])
    (object_attribute_value_ids o).
Definition obj_append_attribute_value_id (v : string) (o : object_rec) : object_rec :=
  mk_object_rec (obj_type o) (obj_existency o) (object_relation_ids o)
    (object_attribute_value_ids o ++ [v]).

Definition rel_set_type (t : string) (r : object_relation_rec) : object_relation_rec :=
  mk_object_relation_rec t (rel_existency r) (rel_from_object_id r) (rel_to_object_id r).
Definition rel_set_existency (b : bool) (r : object_relation_rec) : object_relation_rec :=
  mk_object_relation_rec (rel_type r) b (rel_from_object_id r) (rel_to_object_id r).

Definition oav_set_value (v : string) (a : object_attribute_value_rec)
    : object_attribute_value_rec :=
  mk_object_attribute_value_rec (oav_name a) v (oav_existency a) (oav_object_id a).
Definition oav_set_existency (b : bool) (a : object_attribute_value_rec)
    : object_attribute_value_rec :=
  mk_object_attribute_value_rec (oav_name a) (oav_value a) b (oav_object_id a).

(** The state the qualifiers work on: the two dicts they are handed. *)
Definition ucs : Type := current_state * involved_ids.

Definition the_objects (s : ucs) := cs_object (fst s).
Definition the_relations (s : ucs) := cs_object_relation (fst s).
Definition the_attribute_values (s : ucs) := cs_object_attribute_value (fst s).

Definition upd_objects (f : gmap string object_rec -> gmap string object_rec) (s : ucs) : ucs :=
  (mk_current_state (f (cs_object (fst s))) (cs_object_relation (fst s))
     (cs_object_attribute_value (fst s)), snd s).
Definition upd_relations
    (f : gmap string object_relation_rec -> gmap string object_relation_rec) (s : ucs) : ucs :=
  (mk_current_state (cs_object (fst s)) (f (cs_object_relation (fst s)))
     (cs_object_attribute_value (fst s)), snd s).
Definition upd_attribute_values
    (f : gmap string object_attribute_value_rec -> gmap string object_attribute_value_rec)
    (s : ucs) : ucs :=
  (mk_current_state (cs_object (fst s)) (cs_object_relation (fst s))
     (f (cs_object_attribute_value (fst s))), snd s).

(** [involved_ids[...].add(id)] *)
Definition involve_object_id (i : string) (s : ucs) : ucs :=
  (fst s, mk_involved_ids ({[i]} ∪ inv_object (snd s)) (inv_object_relation (snd s))
            (inv_object_attribute_value (snd s))).
Definition involve_relation_id (i : string) (s : ucs) : ucs :=
  (fst s, mk_involved_ids (inv_object (snd s)) ({[i]} ∪ inv_object_relation (snd s))
            (inv_object_attribute_value (snd s))).
Definition involve_attribute_value_id (i : string) (s : ucs) : ucs :=
  (fst s, mk_involved_ids (inv_object (snd s)) (inv_object_relation (snd s))
            ({[i]} ∪ inv_object_attribute_value (snd s))).

(** [id not in d or d[id]['existency'] == False] *)
Definition missing_or_dead {V : Type} (existency : V -> bool) (d : gmap string V)
    (i : string) : bool :=
  match d !! i with
  | None => true
  | Some v => negb (existency v)
  end.

(** [id in d] *)
Definition known {V : Type} (d : gmap string V) (i : string) : bool :=
  match d !! i with
  | None => false
  | Some _ => true
  end.

(** ** Qualifiers

    One constructor per qualifier class, carrying the fields set by its
    [__init__]. *)

Inductive Qualifier : Type :=
| create_object (object_id object_type : string)
| create_object_relation
    (object_relation_id from_object_id to_object_id object_relation_type : string)
| create_object_attribute_value
    (object_attribute_value_id object_id object_attribute_name object_attribute_value : string)
| delete_object (object_id : string)
| delete_object_relation (object_relation_id : string)
| delete_object_attribute_value (object_attribute_value_id : string)
| modify_object (object_id new_object_type : string)
| modify_object_relation (object_relation_id new_object_relation_type : string)
| modify_object_attribute_value (object_attribute_value_id new_object_attribute_value : string)
| involve_object (object_id : string)
| involve_object_relation (object_relation_id : string)
| involve_object_attribute_value (object_attribute_value_id : string).

(** The only check of a qualifier's [__init__] that is not a type check:
    [create_object_relation] raises [ValueError] when
    [from_object_id == to_object_id]. *)
Definition Qualifier__init__ (q : Qualifier) : outcome Qualifier :=
  match q with
  | create_object_relation _ f t _ => if String.eqb f t then Raise ValueError else Done q
  | _ => Done q
  end.

(** [self.__class__.__name__], handed to [super().__init__] *)
Definition qualifier_name (q : Qualifier) : string :=
  match q with
  | create_object _ _ => "create_object"
  | create_object_relation _ _ _ _ => "create_object_relation"
  | create_object_attribute_value _ _ _ _ => "create_object_attribute_value"
  | delete_object _ => "delete_object"
  | delete_object_relation _ => "delete_object_relation"
  | delete_object_attribute_value _ => "delete_object_attribute_value"
  | modify_object _ _ => "modify_object"
  | modify_object_relation _ _ => "modify_object_relation"
  | modify_object_attribute_value _ _ => "modify_object_attribute_value"
  | involve_object _ => "involve_object"
  | involve_object_relation _ => "involve_object_relation"
  | involve_object_attribute_value _ => "involve_object_attribute_value"
  end.

Definition qualifier_type (q : Qualifier) : string :=
  match q with
  | create_object _ _ | create_object_relation _ _ _ _
  | create_object_attribute_value _ _ _ _ => "CREATE"
  | delete_object _ | delete_object_relation _ | delete_object_attribute_value _ => "DELETE"
  | modify_object _ _ | modify_object_relation _ _
  | modify_object_attribute_value _ _ => "MODIFY"
  | involve_object _ | involve_object_relation _ | involve_object_attribute_value _ => "INVOLVE"
  end.

(** *** [__update_current_state] of each class *)

Definition create_object__update_current_state (object_id object_type : string)
    (qualifier_index : nat) : M ucs unit :=
  do objects <- gets the_objects;
  if known objects object_id then raise_with ValueError self___name__
  else
    modify (upd_objects (insert object_id (mk_object_rec object_type true [] []))) >>>
    modify (involve_object_id object_id).

Definition create_object_relation__update_current_state
    (object_relation_id from_object_id to_object_id object_relation_type : string)
    (qualifier_index : nat) : M ucs unit :=
  do relations <- gets the_relations;
  do objects <- gets the_objects;
  if known relations object_relation_id then raise_with ValueError self___name__
  else if missing_or_dead obj_existency objects to_object_id
  then raise_with ValueError self___name__
  else if missing_or_dead obj_existency objects from_object_id
  then raise_with ValueError self___name__
  else
    modify (upd_relations (insert object_relation_id
      (mk_object_relation_rec object_relation_type true from_object_id to_object_id))) >>>
    (do _ <- getitem the_objects from_object_id;
     modify (upd_objects (alter (obj_append_relation_id object_relation_id) from_object_id))) >>>
    (do _ <- getitem the_objects to_object_id;
     modify (upd_objects (alter (obj_append_relation_id object_relation_id) to_object_id))) >>>
    modify (involve_relation_id object_relation_id).

Definition create_object_attribute_value__update_current_state
    (object_attribute_value_id object_id object_attribute_name object_attribute_value : string)
    (qualifier_index : nat) : M ucs unit :=
  do attribute_values <- gets the_attribute_values;
  if known attribute_values object_attribute_value_id
  then raise_with ValueError self___name__
  else
    modify (upd_attribute_values (insert object_attribute_value_id
      (mk_object_attribute_value_rec object_attribute_name object_attribute_value
         true object_id))) >>>
    (do _ <- getitem the_objects object_id;
     modify (upd_objects
       (alter (obj_append_attribute_value_id object_attribute_value_id) object_id))) >>>
    modify (involve_attribute_value_id object_attribute_value_id).

(** The bodies of the two cascade loops of [delete_object]. *)
Definition cascade_relation (object_relation_id : string) : M ucs unit :=
  do r <- getitem the_relations object_relation_id;
  if negb (rel_existency r) then ret tt
  else
    modify (upd_relations (alter (rel_set_existency false) object_relation_id)) >>>
    modify (involve_relation_id object_relation_id).

Definition cascade_attribute_value (object_attribute_value_id : string) : M ucs unit :=
  do a <- getitem the_attribute_values object_attribute_value_id;
  if negb (oav_existency a) then ret tt
  else
    modify (upd_attribute_values
      (alter (oav_set_existency false) object_attribute_value_id)) >>>
    modify (involve_attribute_value_id object_attribute_value_id).

Definition delete_object__update_current_state (object_id : string)
    (qualifier_index : nat) : M ucs unit :=
  do objects <- gets the_objects;
  if missing_or_dead obj_existency objects object_id
  then raise_with ValueError self___name__
  else
    modify (upd_objects (alter (obj_set_existency false) object_id)) >>>
    modify (involve_object_id object_id) >>>
    (do o <- getitem the_objects object_id;
     for_each (object_relation_ids o) cascade_relation) >>>
    (do o <- getitem the_objects object_id;
     for_each (object_attribute_value_ids o) cascade_attribute_value).

Definition delete_object_relation__update_current_state (object_relation_id : string)
    (qualifier_index : nat) : M ucs unit :=
  do relations <- gets the_relations;
  if missing_or_dead rel_existency relations object_relation_id
  then raise_with ValueError self___name__
  else
    modify (upd_relations (alter (rel_set_existency false) object_relation_id)) >>>
    modify (involve_relation_id object_relation_id).

Definition delete_object_attribute_value__update_current_state
    (object_attribute_value_id : string) (qualifier_index : nat) : M ucs unit :=
  do attribute_values <- gets the_attribute_values;
  if missing_or_dead oav_existency attribute_values object_attribute_value_id
  then raise_with ValueError self___name__
  else
    modify (upd_attribute_values
      (alter (oav_set_existency false) object_attribute_value_id)) >>>
    modify (involve_attribute_value_id object_attribute_value_id).

Definition modify_object__update_current_state (object_id new_object_type : string)
    (qualifier_index : nat) : M ucs unit :=
  do objects <- gets the_objects;
  if missing_or_dead obj_existency objects object_id
  then raise_with ValueError self___name__
  else
    do o <- getitem the_objects object_id;
    if String.eqb (obj_type o) new_object_type then raise_with ValueError self___name__
    else
      modify (upd_objects (alter (obj_set_type new_object_type) object_id)) >>>
      modify (involve_object_id object_id).

Definition modify_object_relation__update_current_state
    (object_relation_id new_object_relation_type : string)
    (qualifier_index : nat) : M ucs unit :=
  do relations <- gets the_relations;
  if missing_or_dead rel_existency relations object_relation_id
  then raise_with ValueError self___name__
  else
    do r <- getitem the_relations object_relation_id;
    if String.eqb (rel_type r) new_object_relation_type
    then raise_with ValueError self___name__
    else
      modify (upd_relations (alter (rel_set_type new_object_relation_type) object_relation_id)) >>>
      modify (involve_relation_id object_relation_id).

Definition modify_object_attribute_value__update_current_state
    (object_attribute_value_id new_object_attribute_value : string)
    (qualifier_index : nat) : M ucs unit :=
  do attribute_values <- gets the_attribute_values;
  if missing_or_dead oav_existency attribute_values object_attribute_value_id
  then raise_with ValueError self___name__
  else
    do a <- getitem the_attribute_values object_attribute_value_id;
    if String.eqb (oav_value a) new_object_attribute_value
    then raise_with ValueError self___name__
    else
      modify (upd_attribute_values
        (alter (oav_set_value new_object_attribute_value) object_attribute_value_id)) >>>
      modify (involve_attribute_value_id object_attribute_value_id).

Definition involve_object__update_current_state (object_id : string)
    (qualifier_index : nat) : M ucs unit :=
  do objects <- gets the_objects;
  do involved <- gets (fun s => inv_object (snd s));
  if missing_or_dead obj_existency objects object_id
  then raise_with ValueError self___name__
  else if bool_decide (object_id ∈ involved) then raise_with ValueError self___name__
  else modify (involve_object_id object_id).

Definition involve_object_relation__update_current_state (object_relation_id : string)
    (qualifier_index : nat) : M ucs unit :=
  do relations <- gets the_relations;
  do involved <- gets (fun s => inv_object_relation (snd s));
  if missing_or_dead rel_existency relations object_relation_id
  then raise_with ValueError self___name__
  else if bool_decide (object_relation_id ∈ involved)
  then raise_with ValueError self___name__
  else modify (involve_relation_id object_relation_id).

Definition involve_object_attribute_value__update_current_state
    (object_attribute_value_id : string) (qualifier_index : nat) : M ucs unit :=
  do attribute_values <- gets the_attribute_values;
  do involved <- gets (fun s => inv_object_attribute_value (snd s));
  if missing_or_dead oav_existency attribute_values object_attribute_value_id
  then raise_with ValueError self___name__
  else if bool_decide (object_attribute_value_id ∈ involved)
  then raise_with ValueError self___name__
  else modify (involve_attribute_value_id object_attribute_value_id).

(** The [if qualifier.qualifier_name == ...: elif ...] chain of [Event]. *)
Definition update_current_state (q : Qualifier) (qualifier_index : nat) : M ucs unit :=
  match q with
  | create_object i t => create_object__update_current_state i t qualifier_index
  | create_object_relation i f t ty =>
      create_object_relation__update_current_state i f t ty qualifier_index
  | create_object_attribute_value i o n v =>
      create_object_attribute_value__update_current_state i o n v qualifier_index
  | delete_object i => delete_object__update_current_state i qualifier_index
  | delete_object_relation i => delete_object_relation__update_current_state i qualifier_index
  | delete_object_attribute_value i =>
      delete_object_attribute_value__update_current_state i qualifier_index
  | modify_object i t => modify_object__update_current_state i t qualifier_index
  | modify_object_relation i t => modify_object_relation__update_current_state i t qualifier_index
  | modify_object_attribute_value i v =>
      modify_object_attribute_value__update_current_state i v qualifier_index
  | involve_object i => involve_object__update_current_state i qualifier_index
  | involve_object_relation i => involve_object_relation__update_current_state i qualifier_index
  | involve_object_attribute_value i =>
      involve_object_attribute_value__update_current_state i qualifier_index
  end.

(** ** The model: history tables, log, current state, event counter

    A pandas DataFrame is the list of its rows in index order;
    [pd.concat([table, pd.DataFrame(row)], ignore_index=True)] appends the
    row.  A one-column table is the list of its values. *)

Record event_row : Type := mk_event_row {
  ev_event_id : nat;
  ev_event_type : string;
  ev_event_time : string }.

Record event_attribute_value_row : Type := mk_event_attribute_value_row {
  eav_event_id : nat;
  eav_event_attribute_name : string;
  eav_event_attribute_value : string }.

Record object_row : Type := mk_object_row {
  row_object_id : string;
  row_object_type : string;
  row_object_existency : bool }.

Record object_attribute_value_row : Type := mk_object_attribute_value_row {
  row_object_attribute_value_id : string;
  row_oav_object_id : string;
  row_object_attribute_name : string;
  row_object_attribute_value : string;
  row_object_attribute_value_existency : bool }.

Record object_relation_row : Type := mk_object_relation_row {
  row_object_relation_id : string;
  row_from_object_id : string;
  row_to_object_id : string;
  row_object_relation_type : string;
  row_object_relation_existency : bool }.

(** A row of [event_x_object], [event_x_object_relation] or
    [event_x_object_attribute_value]: the three tables differ only in the
    name of the second column. *)
Record junction_row : Type := mk_junction_row {
  jx_event_id : nat;
  jx_target_id : string;
  jx_qualifier_type : string;
  jx_qualifier_index : nat }.

(** What a qualifier's [__log] returns. *)
Record log_entry : Type := mk_log_entry {
  log_qualifier : string;
  log_arguments : list (string * string) }.

Record OCED : Type := mk_OCED {

  OCED__event : list event_row;
  OCED__event_type : list string;
  OCED__event_time : list string;
  OCED__event_attribute_name : list string;
  OCED__event_attribute_value : list event_attribute_value_row;
  OCED__object : list object_row;
  OCED__object_type : list string;
  OCED__object_attribute_name : list string;
  OCED__object_attribute_value : list object_attribute_value_row;
  OCED__object_relation : list object_relation_row;
  OCED__object_relation_type : list string;
  OCED__event_x_object : list junction_row;
  OCED__event_x_object_attribute_value : list junction_row;
  OCED__event_x_object_relation : list junction_row;
  OCED__log : gmap nat (list log_entry);
  OCED__current_state : current_state;
  OCED__event_counter : nat }.


(** [OCED.__init__] *)
Definition OCED__init__ : OCED :=
  mk_OCED [] [] [] [] [] [] [] [] [] [] [] [] [] [] ∅ empty_current_state 0.

(** Assignment to one attribute of the model. *)
Definition upd_OCED__event (f : list event_row -> list event_row) (m : OCED) : OCED :=
  mk_OCED (f (OCED__event m)) (OCED__event_type m) (OCED__event_time m)
    (OCED__event_attribute_name m) (OCED__event_attribute_value m) (OCED__object m)
    (OCED__object_type m) (OCED__object_attribute_name m) (OCED__object_attribute_value m)
    (OCED__object_relation m) (OCED__object_relation_type m) (OCED__event_x_object m)
    (OCED__event_x_object_attribute_value m) (OCED__event_x_object_relation m) (OCED__log m)
    (OCED__current_state m) (OCED__event_counter m).
Definition upd_OCED__event_type (f : list string -> list string) (m : OCED) : OCED :=
  mk_OCED (OCED__event m) (f (OCED__event_type m)) (OCED__event_time m)
    (OCED__event_attribute_name m) (OCED__event_attribute_value m) (OCED__object m)
    (OCED__object_type m) (OCED__object_attribute_name m) (OCED__object_attribute_value m)
    (OCED__object_relation m) (OCED__object_relation_type m) (OCED__event_x_object m)
    (OCED__event_x_object_attribute_value m) (OCED__event_x_object_relation m) (OCED__log m)
    (OCED__current_state m) (OCED__event_counter m).
Definition upd_OCED__event_time (f : list string -> list string) (m : OCED) : OCED :=
  mk_OCED (OCED__event m) (OCED__event_type m) (f (OCED__event_time m))
    (OCED__event_attribute_name m) (OCED__event_attribute_value m) (OCED__object m)
    (OCED__object_type m) (OCED__object_attribute_name m) (OCED__object_attribute_value m)
    (OCED__object_relation m) (OCED__object_relation_type m) (OCED__event_x_object m)
    (OCED__event_x_object_attribute_value m) (OCED__event_x_object_relation m) (OCED__log m)
    (OCED__current_state m) (OCED__event_counter m).
Definition upd_OCED__event_attribute_name (f : list string -> list string) (m : OCED) : OCED :=
  mk_OCED (OCED__event m) (OCED__event_type m) (OCED__event_time m)
    (f (OCED__event_attribute_name m)) (OCED__event_attribute_value m) (OCED__object m)
    (OCED__object_type m) (OCED__object_attribute_name m) (OCED__object_attribute_value m)
    (OCED__object_relation m) (OCED__object_relation_type m) (OCED__event_x_object m)
    (OCED__event_x_object_attribute_value m) (OCED__event_x_object_relation m) (OCED__log m)
    (OCED__current_state m) (OCED__event_counter m).
Definition upd_OCED__event_attribute_value (f : list event_attribute_value_row -> list event_attribute_value_row) (m : OCED) : OCED :=
  mk_OCED (OCED__event m) (OCED__event_type m) (OCED__event_time m)
    (OCED__event_attribute_name m) (f (OCED__event_attribute_value m)) (OCED__object m)
    (OCED__object_type m) (OCED__object_attribute_name m) (OCED__object_attribute_value m)
    (OCED__object_relation m) (OCED__object_relation_type m) (OCED__event_x_object m)
    (OCED__event_x_object_attribute_value m) (OCED__event_x_object_relation m) (OCED__log m)
    (OCED__current_state m) (OCED__event_counter m).
Definition upd_OCED__object (f : list object_row -> list object_row) (m : OCED) : OCED :=
  mk_OCED (OCED__event m) (OCED__event_type m) (OCED__event_time m)
    (OCED__event_attribute_name m) (OCED__event_attribute_value m) (f (OCED__object m))
    (OCED__object_type m) (OCED__object_attribute_name m) (OCED__object_attribute_value m)
    (OCED__object_relation m) (OCED__object_relation_type m) (OCED__event_x_object m)
    (OCED__event_x_object_attribute_value m) (OCED__event_x_object_relation m) (OCED__log m)
    (OCED__current_state m) (OCED__event_counter m).
Definition upd_OCED__object_type (f : list string -> list string) (m : OCED) : OCED :=
  mk_OCED (OCED__event m) (OCED__event_type m) (OCED__event_time m)
    (OCED__event_attribute_name m) (OCED__event_attribute_value m) (OCED__object m)
    (f (OCED__object_type m)) (OCED__object_attribute_name m) (OCED__object_attribute_value m)
    (OCED__object_relation m) (OCED__object_relation_type m) (OCED__event_x_object m)
    (OCED__event_x_object_attribute_value m) (OCED__event_x_object_relation m) (OCED__log m)
    (OCED__current_state m) (OCED__event_counter m).
Definition upd_OCED__object_attribute_name (f : list string -> list string) (m : OCED) : OCED :=
  mk_OCED (OCED__event m) (OCED__event_type m) (OCED__event_time m)
    (OCED__event_attribute_name m) (OCED__event_attribute_value m) (OCED__object m)
    (OCED__object_type m) (f (OCED__object_attribute_name m)) (OCED__object_attribute_value m)
    (OCED__object_relation m) (OCED__object_relation_type m) (OCED__event_x_object m)
    (OCED__event_x_object_attribute_value m) (OCED__event_x_object_relation m) (OCED__log m)
    (OCED__current_state m) (OCED__event_counter m).
Definition upd_OCED__object_attribute_value (f : list object_attribute_value_row -> list object_attribute_value_row) (m : OCED) : OCED :=
  mk_OCED (OCED__event m) (OCED__event_type m) (OCED__event_time m)
    (OCED__event_attribute_name m) (OCED__event_attribute_value m) (OCED__object m)
    (OCED__object_type m) (OCED__object_attribute_name m) (f (OCED__object_attribute_value m))
    (OCED__object_relation m) (OCED__object_relation_type m) (OCED__event_x_object m)
    (OCED__event_x_object_attribute_value m) (OCED__event_x_object_relation m) (OCED__log m)
    (OCED__current_state m) (OCED__event_counter m).
Definition upd_OCED__object_relation (f : list object_relation_row -> list object_relation_row) (m : OCED) : OCED :=
  mk_OCED (OCED__event m) (OCED__event_type m) (OCED__event_time m)
    (OCED__event_attribute_name m) (OCED__event_attribute_value m) (OCED__object m)
    (OCED__object_type m) (OCED__object_attribute_name m) (OCED__object_attribute_value m)
    (f (OCED__object_relation m)) (OCED__object_relation_type m) (OCED__event_x_object m)
    (OCED__event_x_object_attribute_value m) (OCED__event_x_object_relation m) (OCED__log m)
    (OCED__current_state m) (OCED__event_counter m).
Definition upd_OCED__object_relation_type (f : list string -> list string) (m : OCED) : OCED :=
  mk_OCED (OCED__event m) (OCED__event_type m) (OCED__event_time m)
    (OCED__event_attribute_name m) (OCED__event_attribute_value m) (OCED__object m)
    (OCED__object_type m) (OCED__object_attribute_name m) (OCED__object_attribute_value m)
    (OCED__object_relation m) (f (OCED__object_relation_type m)) (OCED__event_x_object m)
    (OCED__event_x_object_attribute_value m) (OCED__event_x_object_relation m) (OCED__log m)
    (OCED__current_state m) (OCED__event_counter m).
Definition upd_OCED__event_x_object (f : list junction_row -> list junction_row) (m : OCED) : OCED :=
  mk_OCED (OCED__event m) (OCED__event_type m) (OCED__event_time m)
    (OCED__event_attribute_name m) (OCED__event_attribute_value m) (OCED__object m)
    (OCED__object_type m) (OCED__object_attribute_name m) (OCED__object_attribute_value m)
    (OCED__object_relation m) (OCED__object_relation_type m) (f (OCED__event_x_object m))
    (OCED__event_x_object_attribute_value m) (OCED__event_x_object_relation m) (OCED__log m)
    (OCED__current_state m) (OCED__event_counter m).
Definition upd_OCED__event_x_object_attribute_value (f : list junction_row -> list junction_row) (m : OCED) : OCED :=
  mk_OCED (OCED__event m) (OCED__event_type m) (OCED__event_time m)
    (OCED__event_attribute_name m) (OCED__event_attribute_value m) (OCED__object m)
    (OCED__object_type m) (OCED__object_attribute_name m) (OCED__object_attribute_value m)
    (OCED__object_relation m) (OCED__object_relation_type m) (OCED__event_x_object m)
    (f (OCED__event_x_object_attribute_value m)) (OCED__event_x_object_relation m) (OCED__log m)
    (OCED__current_state m) (OCED__event_counter m).
Definition upd_OCED__event_x_object_relation (f : list junction_row -> list junction_row) (m : OCED) : OCED :=
  mk_OCED (OCED__event m) (OCED__event_type m) (OCED__event_time m)
    (OCED__event_attribute_name m) (OCED__event_attribute_value m) (OCED__object m)
    (OCED__object_type m) (OCED__object_attribute_name m) (OCED__object_attribute_value m)
    (OCED__object_relation m) (OCED__object_relation_type m) (OCED__event_x_object m)
    (OCED__event_x_object_attribute_value m) (f (OCED__event_x_object_relation m)) (OCED__log m)
    (OCED__current_state m) (OCED__event_counter m).
Definition upd_OCED__log (f : gmap nat (list log_entry) -> gmap nat (list log_entry)) (m : OCED) : OCED :=
  mk_OCED (OCED__event m) (OCED__event_type m) (OCED__event_time m)
    (OCED__event_attribute_name m) (OCED__event_attribute_value m) (OCED__object m)
    (OCED__object_type m) (OCED__object_attribute_name m) (OCED__object_attribute_value m)
    (OCED__object_relation m) (OCED__object_relation_type m) (OCED__event_x_object m)
    (OCED__event_x_object_attribute_value m) (OCED__event_x_object_relation m) (f (OCED__log m))
    (OCED__current_state m) (OCED__event_counter m).
Definition upd_OCED__current_state (f : current_state -> current_state) (m : OCED) : OCED :=
  mk_OCED (OCED__event m) (OCED__event_type m) (OCED__event_time m)
    (OCED__event_attribute_name m) (OCED__event_attribute_value m) (OCED__object m)
    (OCED__object_type m) (OCED__object_attribute_name m) (OCED__object_attribute_value m)
    (OCED__object_relation m) (OCED__object_relation_type m) (OCED__event_x_object m)
    (OCED__event_x_object_attribute_value m) (OCED__event_x_object_relation m) (OCED__log m)
    (f (OCED__current_state m)) (OCED__event_counter m).
Definition upd_OCED__event_counter (f : nat -> nat) (m : OCED) : OCED :=
  mk_OCED (OCED__event m) (OCED__event_type m) (OCED__event_time m)
    (OCED__event_attribute_name m) (OCED__event_attribute_value m) (OCED__object m)
    (OCED__object_type m) (OCED__object_attribute_name m) (OCED__object_attribute_value m)
    (OCED__object_relation m) (OCED__object_relation_type m) (OCED__event_x_object m)
    (OCED__event_x_object_attribute_value m) (OCED__event_x_object_relation m) (OCED__log m)
    (OCED__current_state m) (f (OCED__event_counter m)).

Definition model_objects (m : OCED) := cs_object (OCED__current_state m).
Definition model_relations (m : OCED) := cs_object_relation (OCED__current_state m).
Definition model_attribute_values (m : OCED) :=
  cs_object_attribute_value (OCED__current_state m).

(** [table = pd.concat([table, pd.DataFrame(row)], ignore_index=True)] *)
Definition concat_row {A : Type} (row : A) (table : list A) : list A := table ++ [row].

(** The junction row every [__update_tables] writes: the model's event
    counter, the target id, the qualifier's type and its index. *)
Definition junction (upd : (list junction_row -> list junction_row) -> OCED -> OCED)
    (target_id qualifier_type : string) (qualifier_index : nat) : M OCED unit :=
  do event_counter <- gets OCED__event_counter;
  modify (upd (concat_row
    (mk_junction_row event_counter target_id qualifier_type qualifier_index))).

(** [value in table[column].values].  The values of a column of strings
    are a numpy array of Python objects, and [in] on it is
    [(values == value).any()].  For the comparison numpy reads the [str]
    probe into a fixed-width string array, whose items come back without
    their trailing NUL characters; the values of the column are compared as
    they are stored.  So the test looks in the column for the probe without
    its trailing NUL characters. *)
Fixpoint trim_trailing_nul (s : string) : string :=
  match s with
  | EmptyString => EmptyString
  | String c s' =>
      match trim_trailing_nul s' with
      | EmptyString => if Ascii.eqb c Ascii.zero then EmptyString else String c EmptyString
      | trimmed => String c trimmed
      end
  end.

(** [if value not in table[column].values: table = pd.concat(...)] *)
Definition concat_if_new (upd : (list string -> list string) -> OCED -> OCED)
    (table : OCED -> list string) (value : string) : M OCED unit :=
  do values <- gets table;
  if bool_decide (trim_trailing_nul value ∈ values) then ret tt
  else modify (upd (concat_row value)).

(** *** [__update_tables] of each class *)

Definition create_object__update_tables (object_id object_type : string)
    (qualifier_index : nat) : M OCED unit :=
  modify (upd_OCED__object (concat_row (mk_object_row object_id object_type true))) >>>
  concat_if_new upd_OCED__object_type OCED__object_type object_type >>>
  junction upd_OCED__event_x_object object_id "CREATE" qualifier_index.

Definition create_object_relation__update_tables
    (object_relation_id from_object_id to_object_id object_relation_type : string)
    (qualifier_index : nat) : M OCED unit :=
  modify (upd_OCED__object_relation (concat_row
    (mk_object_relation_row object_relation_id from_object_id to_object_id
       object_relation_type true))) >>>
  concat_if_new upd_OCED__object_relation_type OCED__object_relation_type
    object_relation_type >>>
  junction upd_OCED__event_x_object_relation object_relation_id "CREATE" qualifier_index.

Definition create_object_attribute_value__update_tables
    (object_attribute_value_id object_id object_attribute_name object_attribute_value : string)
    (qualifier_index : nat) : M OCED unit :=
  modify (upd_OCED__object_attribute_value (concat_row
    (mk_object_attribute_value_row object_attribute_value_id object_id
       object_attribute_name object_attribute_value true))) >>>
  concat_if_new upd_OCED__object_attribute_name OCED__object_attribute_name
    object_attribute_name >>>
  junction upd_OCED__event_x_object_attribute_value object_attribute_value_id "CREATE"
    qualifier_index.

(** The history rows of a relation or attribute value whose fields are read
    from the current state. *)
Definition concat_relation_row (object_relation_id : string)
    (object_relation_type : object_relation_rec -> string) (existency : bool)
    : M OCED unit :=
  do r <- getitem model_relations object_relation_id;
  modify (upd_OCED__object_relation (concat_row
    (mk_object_relation_row object_relation_id (rel_from_object_id r) (rel_to_object_id r)
       (object_relation_type r) existency))).

Definition concat_attribute_value_row (object_attribute_value_id : string)
    (object_attribute_value : object_attribute_value_rec -> string) (existency : bool)
    : M OCED unit :=
  do a <- getitem model_attribute_values object_attribute_value_id;
  modify (upd_OCED__object_attribute_value (concat_row
    (mk_object_attribute_value_row object_attribute_value_id (oav_object_id a) (oav_name a)
       (object_attribute_value a) existency))).

(** The bodies of the two cascade loops of [delete_object.__update_tables]. *)
Definition cascade_relation_rows (qualifier_index : nat) (object_relation_id : string)
    : M OCED unit :=
  do r <- getitem model_relations object_relation_id;
  if negb (rel_existency r) then ret tt
  else
    concat_relation_row object_relation_id rel_type false >>>
    junction upd_OCED__event_x_object_relation object_relation_id "DELETE" qualifier_index.

Definition cascade_attribute_value_rows (qualifier_index : nat)
    (object_attribute_value_id : string) : M OCED unit :=
  do a <- getitem model_attribute_values object_attribute_value_id;
  if negb (oav_existency a) then ret tt
  else
    concat_attribute_value_row object_attribute_value_id oav_value false >>>
    junction upd_OCED__event_x_object_attribute_value object_attribute_value_id "DELETE"
      qualifier_index.

Definition delete_object__update_tables (object_id : string) (qualifier_index : nat)
    : M OCED unit :=
  (do o <- getitem model_objects object_id;
   modify (upd_OCED__object (concat_row (mk_object_row object_id (obj_type o) false)))) >>>
  junction upd_OCED__event_x_object object_id "DELETE" qualifier_index >>>
  (do o <- getitem model_objects object_id;
   for_each (object_relation_ids o) (cascade_relation_rows qualifier_index)) >>>
  (do o <- getitem model_objects object_id;
   for_each (object_attribute_value_ids o) (cascade_attribute_value_rows qualifier_index)).

Definition delete_object_relation__update_tables (object_relation_id : string)
    (qualifier_index : nat) : M OCED unit :=
  concat_relation_row object_relation_id rel_type false >>>
  junction upd_OCED__event_x_object_relation object_relation_id "DELETE" qualifier_index.

Definition delete_object_attribute_value__update_tables (object_attribute_value_id : string)
    (qualifier_index : nat) : M OCED unit :=
  concat_attribute_value_row object_attribute_value_id oav_value false >>>
  junction upd_OCED__event_x_object_attribute_value object_attribute_value_id "DELETE"
    qualifier_index.

Definition modify_object__update_tables (object_id new_object_type : string)
    (qualifier_index : nat) : M OCED unit :=
  modify (upd_OCED__object (concat_row (mk_object_row object_id new_object_type true))) >>>
  junction upd_OCED__event_x_object object_id "MODIFY" qualifier_index.

Definition modify_object_relation__update_tables
    (object_relation_id new_object_relation_type : string) (qualifier_index : nat)
    : M OCED unit :=
  concat_relation_row object_relation_id (fun _ => new_object_relation_type) true >>>
  junction upd_OCED__event_x_object_relation object_relation_id "MODIFY" qualifier_index.

Definition modify_object_attribute_value__update_tables
    (object_attribute_value_id new_object_attribute_value : string) (qualifier_index : nat)
    : M OCED unit :=
  concat_attribute_value_row object_attribute_value_id
    (fun _ => new_object_attribute_value) true >>>
  junction upd_OCED__event_x_object_attribute_value object_attribute_value_id "MODIFY"
    qualifier_index.

Definition involve_object__update_tables (object_id : string) (qualifier_index : nat)
    : M OCED unit :=
  junction upd_OCED__event_x_object object_id "INVOLVE" qualifier_index.

Definition involve_object_relation__update_tables (object_relation_id : string)
    (qualifier_index : nat) : M OCED unit :=
  junction upd_OCED__event_x_object_relation object_relation_id "INVOLVE" qualifier_index.

Definition involve_object_attribute_value__update_tables
    (object_attribute_value_id : string) (qualifier_index : nat) : M OCED unit :=
  junction upd_OCED__event_x_object_attribute_value object_attribute_value_id "INVOLVE"
    qualifier_index.

Definition update_tables (q : Qualifier) (qualifier_index : nat) : M OCED unit :=
  match q with
  | create_object i t => create_object__update_tables i t qualifier_index
  | create_object_relation i f t ty =>
      create_object_relation__update_tables i f t ty qualifier_index
  | create_object_attribute_value i o n v =>
      create_object_attribute_value__update_tables i o n v qualifier_index
  | delete_object i => delete_object__update_tables i qualifier_index
  | delete_object_relation i => delete_object_relation__update_tables i qualifier_index
  | delete_object_attribute_value i =>
      delete_object_attribute_value__update_tables i qualifier_index
  | modify_object i t => modify_object__update_tables i t qualifier_index
  | modify_object_relation i t => modify_object_relation__update_tables i t qualifier_index
  | modify_object_attribute_value i v =>
      modify_object_attribute_value__update_tables i v qualifier_index
  | involve_object i => involve_object__update_tables i qualifier_index
  | involve_object_relation i => involve_object_relation__update_tables i qualifier_index
  | involve_object_attribute_value i =>
      involve_object_attribute_value__update_tables i qualifier_index
  end.

(** *** [__log] of each class: [{'qualifier': ..., 'arguments': {...}}] *)
Definition qualifier__log (q : Qualifier) : log_entry :=
  mk_log_entry (qualifier_name q)
    match q with
    | create_object i t => [("object_id", i); ("object_type", t)]
    | create_object_relation i f t ty =>
        [("object_relation_id", i); ("from_object_id", f); ("to_object_id", t);
         ("object_relation_type", ty)]
    | create_object_attribute_value i o n v =>
        [("object_attribute_value_id", i); ("object_id", o); ("object_attribute_name", n);
         ("object_attribute_value", v)]
    | delete_object i => [("object_id", i)]
    | delete_object_relation i => [("object_relation_id", i)]
    | delete_object_attribute_value i => [("object_attribute_value_id", i)]
    | modify_object i t => [("object_id", i); ("new_object_type", t)]
    | modify_object_relation i t =>
        [("object_relation_id", i); ("new_object_relation_type", t)]
    | modify_object_attribute_value i v =>
        [("object_attribute_value_id", i); ("new_object_attribute_value", v)]
    | involve_object i => [("object_id", i)]
    | involve_object_relation i => [("object_relation_id", i)]
    | involve_object_attribute_value i => [("object_attribute_value_id", i)]
    end.

(** ** Events *)

(** A Python [dict] of strings: its items in insertion order, the keys
    pairwise different. *)
Record pydict : Type := mk_pydict {
  dict_items : list (string * string);
  dict_keys_unique : bool_decide (NoDup (map fst dict_items)) = true }.

Definition dict_keys (d : pydict) : list string := map fst (dict_items d).

Definition empty_dict : pydict := mk_pydict [] eq_refl.

(** The fields [Event.__init__] sets.  [Event__event_time] is the time
    after its normalisation by [__init__] (an ISO 8601 string in local
    time); [__init__] raises [TypeError] for anything else than a time
    string, a string, a list of qualifiers and a dict of strings. *)
Record Event : Type := mk_Event {
  Event__event_time : string;
  Event__event_type : string;
  Event__qualifiers : list Qualifier;
  Event__event_attributes : pydict }.

(** [table['event_time'].max()]: the greatest string of the column in
    Python's order on [str] (lexicographic by code point, which on the
    UTF-8 bytes is [String.compare]); [None] stands for the [nan] of an
    empty column, the one result that is not a [str]. *)
Definition str_max (a b : string) : string := if String.ltb a b then b else a.

Definition column_max (column : list string) : option string :=
  match column with
  | [] => None
  | t :: column' => Some (fold_left str_max column' t)
  end.

(** [deepcopy]: a value of Rocq is never shared with its copy. *)
Definition deepcopy {A : Type} (x : A) : A := x.

(** The loop of [Event.__precondition] over the qualifiers, on the copy of
    the current state and a fresh set of involved ids.  The result keeps
    the final copy, which the Python code drops. *)
Definition validate_qualifiers (e : Event) (m : OCED) : outcome unit * ucs :=
  for_enumerate 0 (Event__qualifiers e) (fun qualifier_index qualifier =>
    update_current_state qualifier qualifier_index)
    (deepcopy (OCED__current_state m), no_involved_ids).

Definition Event__precondition (e : Event) : M OCED unit :=
  do max_time <- gets (fun m => column_max (OCED__event_time m));
  if match max_time with
     | Some max_time => String.leb (Event__event_time e) max_time
     | None => false
     end
  then raise ValueError
  else fun m => (fst (validate_qualifiers e m), m).

(** Running a qualifier's [__update_tables] on the model, and its
    [__update_current_state] on the model's own current state, inside the
    loop of [Event.__execute] whose local variable is [involved_ids]. *)
Definition on_model {A : Type} (c : M OCED A) : M (OCED * involved_ids) A :=
  fun s => let '(r, m') := c (fst s) in (r, (m', snd s)).

Definition on_current_state {A : Type} (c : M ucs A) : M (OCED * involved_ids) A :=
  fun s =>
    let '(r, (cs', involved')) := c (OCED__current_state (fst s), snd s) in
    (r, (upd_OCED__current_state (fun _ => cs') (fst s), involved')).

Definition execute_qualifiers (qualifiers : list Qualifier) : M (OCED * involved_ids) unit :=
  for_enumerate 0 qualifiers (fun qualifier_index qualifier =>
    on_model (update_tables qualifier qualifier_index) >>>
    on_current_state (update_current_state qualifier qualifier_index)).

(** The first half of [Event.__execute]: the rows of the event itself. *)
Definition Event__execute_tables (e : Event) : M OCED unit :=
  (do event_counter <- gets OCED__event_counter;
   modify (upd_OCED__event (concat_row
     (mk_event_row event_counter (Event__event_type e) (Event__event_time e))))) >>>
  concat_if_new upd_OCED__event_type OCED__event_type (Event__event_type e) >>>
  modify (upd_OCED__event_time (concat_row (Event__event_time e))) >>>
  (do existing_event_attribute_names <- gets OCED__event_attribute_name;
   modify (upd_OCED__event_attribute_name (fun table => (table ++
     filter (fun event_attribute_name =>
               trim_trailing_nul event_attribute_name ∉ existing_event_attribute_names)
            (dict_keys (Event__event_attributes e)))%list))) >>>
  (do event_counter <- gets OCED__event_counter;
   modify (upd_OCED__event_attribute_value (fun table => (table ++
     map (fun item => mk_event_attribute_value_row event_counter (fst item) (snd item))
         (dict_items (Event__event_attributes e)))%list))).

(** [Event.__execute]: these rows, then the qualifiers with a fresh set of
    involved ids. *)
Definition Event__execute (e : Event) : M OCED unit :=
  Event__execute_tables e >>>
  (fun m =>
     let '(r, (m', _)) := execute_qualifiers (Event__qualifiers e) (m, no_involved_ids) in
     (r, m')).

Definition Event__log (e : Event) : M OCED unit :=
  do event_counter <- gets OCED__event_counter;
  modify (upd_OCED__log (insert event_counter (map qualifier__log (Event__qualifiers e)))).

(** [OCED.insert_event]; the [isinstance(event, Event)] test is the type of
    [e]. *)
Definition insert_event (e : Event) : M OCED unit :=
  Event__precondition e >>>
  Event__execute e >>>
  Event__log e >>>
  modify (upd_OCED__event_counter (fun event_counter => event_counter + 1)).

(** A sequence of calls of [insert_event], each caught or not by the
    caller: the model after them, and how many of them returned. *)
Definition insert_events (es : list Event) (m : OCED) : OCED :=
  fold_left (fun m e => snd (insert_event e m)) es m.

Fixpoint count_inserted (es : list Event) (m : OCED) : nat :=
  match es with
  | [] => 0
  | e :: es' =>
      (if is_Raise (fst (insert_event e m)) then 0 else 1)
      + count_inserted es' (snd (insert_event e m))
  end.

(** ** Sample events *)

Definition ev (time : string) (q : list Qualifier) : Event := mk_Event time "t" q empty_dict.

Definition t1 : string := "2024-01-01T10:00:00".
Definition t2 : string := "2024-01-02T10:00:00".
Definition t3 : string := "2024-01-03T10:00:00".
Definition t4 : string := "2024-01-04T10:00:00".
Definition t5 : string := "2024-01-05T10:00:00".

Definition scenario : list Event :=
  [ ev t1 [create_object "o1" "Person"];
    ev t2 [create_object "o2" "Order"];
    ev t3 [create_object_relation "r1" "o1" "o2" "placed"];
    ev t4 [delete_object "o1"] ].

(** The Python string ['T\x00'], and two events of that type that create
    two objects of that type. *)
Definition T_nul : string := String "T" (String Ascii.zero EmptyString).

Definition nul_scenario : list Event :=
  [ mk_Event t1 T_nul [create_object "o1" T_nul] empty_dict;
    mk_Event t2 T_nul [create_object "o2" T_nul] empty_dict ].

(** ** Predicates of the specification *)

(** A computation keeps a property of the state, whether it returns or
    raises. *)
Definition preserves {St A : Type} (P : St -> Prop) (c : M St A) : Prop :=
  forall s, P s -> P (snd (c s)).

(** A string that numpy reads back as it is, and the events all of whose
    types and attribute names are such strings. *)
Definition no_trailing_nul (s : string) : Prop := trim_trailing_nul s = s.

Definition plain_qualifier (q : Qualifier) : Prop :=
  match q with
  | create_object _ object_type => no_trailing_nul object_type
  | create_object_relation _ _ _ object_relation_type => no_trailing_nul object_relation_type
  | create_object_attribute_value _ _ object_attribute_name _ =>
      no_trailing_nul object_attribute_name
  | _ => True
  end.

Definition plain_event (e : Event) : Prop :=
  no_trailing_nul (Event__event_type e) /\
  Forall no_trailing_nul (dict_keys (Event__event_attributes e)) /\
  Forall plain_qualifier (Event__qualifiers e).

(** What the lookup tables promise of a value that went through the test
    [value not in column.values]: the value is in the column, or the test
    found it there, that is, the value without its trailing NUL characters
    is in the column. *)
Definition listed (value : string) (values : list string) : Prop :=
  value ∈ values \/ trim_trailing_nul value ∈ values.

(** Each value at most once in each lookup table. *)
Definition lookup_tables_deduplicated (m : OCED) : Prop :=
  NoDup (OCED__event_type m) /\ NoDup (OCED__event_attribute_name m) /\
  NoDup (OCED__object_type m) /\ NoDup (OCED__object_relation_type m) /\
  NoDup (OCED__object_attribute_name m).

(** Writes to the other attributes of the model do not touch the lookup
    tables. *)
Definition keeps_lookup_tables (f : OCED -> OCED) : Prop :=
  forall m, OCED__event_type (f m) = OCED__event_type m /\
            OCED__event_attribute_name (f m) = OCED__event_attribute_name m /\
            OCED__object_type (f m) = OCED__object_type m /\
            OCED__object_relation_type (f m) = OCED__object_relation_type m /\
            OCED__object_attribute_name (f m) = OCED__object_attribute_name m.

(** The store after the cascade of [delete_object]: existency cleared at
    every listed id. *)
Definition clear_relations (ids : list string) (d : gmap string object_relation_rec)
    : gmap string object_relation_rec :=
  fold_left (fun d i => alter (rel_set_existency false) i d) ids d.

Definition clear_attribute_values (ids : list string)
    (d : gmap string object_attribute_value_rec) : gmap string object_attribute_value_rec :=
  fold_left (fun d i => alter (oav_set_existency false) i d) ids d.

(** What [__update_tables] reads from the current state. *)
Definition tables_ready (q : Qualifier) (cs : current_state) : Prop :=
  match q with
  | delete_object i =>
      exists o, cs_object cs !! i = Some o /\
        Forall (fun r => is_Some (cs_object_relation cs !! r)) (object_relation_ids o) /\
        Forall (fun v => is_Some (cs_object_attribute_value cs !! v))
          (object_attribute_value_ids o)
  | delete_object_relation i | modify_object_relation i _ =>
      is_Some (cs_object_relation cs !! i)
  | delete_object_attribute_value i | modify_object_attribute_value i _ =>
      is_Some (cs_object_attribute_value cs !! i)
  | _ => True
  end.

(** A computation on the model that returns, leaving the current state [cs]
    as it is. *)
Definition returns_keeping {A : Type} (cs : current_state) (c : M OCED A) : Prop :=
  forall m, OCED__current_state m = cs ->
    exists a m', c m = (Done a, m') /\ OCED__current_state m' = cs.

(** A computation that never raises the exception [x]. *)
Definition never_raises {St A : Type} (x : exn) (c : M St A) : Prop :=
  forall s, fst (c s) <> Raise x.

(** A live attribute value has a live owner, and a live relation has two
    live endpoints. *)
Definition live_object (cs : current_state) (i : string) : Prop :=
  exists o, cs_object cs !! i = Some o /\ obj_existency o = true.

Definition ownership_existency (cs : current_state) : Prop :=
  (forall i a, cs_object_attribute_value cs !! i = Some a -> oav_existency a = true ->
     live_object cs (oav_object_id a)) /\
  (forall i r, cs_object_relation cs !! i = Some r -> rel_existency r = true ->
     live_object cs (rel_from_object_id r) /\ live_object cs (rel_to_object_id r)).

(** [create_object_attribute_value] fails exactly when its id is known. *)
Definition fails_exactly_when_known (cs : current_state) (inv : involved_ids)
    (object_attribute_value_id object_id object_attribute_name object_attribute_value : string)
    (qualifier_index : nat) : Prop :=
  is_Raise (fst (create_object_attribute_value__update_current_state
                   object_attribute_value_id object_id object_attribute_name
                   object_attribute_value qualifier_index (cs, inv)))
  = known (cs_object_attribute_value cs) object_attribute_value_id.

(** The [involve_*] qualifiers, and for them: is the target missing or
    dead. *)
Definition is_involve (q : Qualifier) : bool :=
  match q with
  | involve_object _ | involve_object_relation _ | involve_object_attribute_value _ => true
  | _ => false
  end.

Definition target_missing_or_dead (q : Qualifier) (cs : current_state) : bool :=
  match q with
  | involve_object i => missing_or_dead obj_existency (cs_object cs) i
  | involve_object_relation i => missing_or_dead rel_existency (cs_object_relation cs) i
  | involve_object_attribute_value i =>
      missing_or_dead oav_existency (cs_object_attribute_value cs) i
  | _ => false
  end.

(** Is the id a qualifier names in the event's set of involved ids. *)
Definition target_involved (q : Qualifier) (inv : involved_ids) : bool :=
  match q with
  | create_object i _ | delete_object i | modify_object i _ | involve_object i =>
      bool_decide (i ∈ inv_object inv)
  | create_object_relation i _ _ _ | delete_object_relation i | modify_object_relation i _
  | involve_object_relation i =>
      bool_decide (i ∈ inv_object_relation inv)
  | create_object_attribute_value i _ _ _ | delete_object_attribute_value i
  | modify_object_attribute_value i _ | involve_object_attribute_value i =>
      bool_decide (i ∈ inv_object_attribute_value inv)
  end.

(** A computation whose outcome and whose effect on the current state do
    not depend on the involved ids. *)
Definition ignores_involved_ids {A : Type} (c : M ucs A) : Prop :=
  forall cs inv inv',
    fst (c (cs, inv)) = fst (c (cs, inv')) /\
    fst (snd (c (cs, inv))) = fst (snd (c (cs, inv'))).

Definition object_involved (i : string) (s : ucs) : Prop := i ∈ inv_object (snd s).

(** The back-reference lists of every object name known relations and
    attribute values. *)
Definition backrefs_known (cs : current_state) : Prop :=
  forall i o, cs_object cs !! i = Some o ->
    Forall (fun r => is_Some (cs_object_relation cs !! r)) (object_relation_ids o) /\
    Forall (fun v => is_Some (cs_object_attribute_value cs !! v))
      (object_attribute_value_ids o).

Definition backrefs_known_in (s : ucs) : Prop := backrefs_known (fst s).

(** Python's [<] and [<=] on the normalised time strings. *)
Definition str_lt (a b : string) : Prop := String.ltb a b = true.
Definition str_le (a b : string) : Prop := String.leb a b = true.

(** The times of the committed events, in commit order. *)
Definition committed_times (m : OCED) : list string := map ev_event_time (OCED__event m).

(** The time column mirrors the event table and increases strictly. *)
Definition times_increase (m : OCED) : Prop :=
  OCED__event_time m = committed_times m /\ StronglySorted str_lt (committed_times m).

(** What the commit of the qualifiers of an event leaves of the model [m0]
    it starts from: the event tables and the counter, and in the junction
    tables the old rows and rows of the event being committed. *)
Definition junction_grows (table : OCED -> list junction_row) (m0 m : OCED) : Prop :=
  forall row, row ∈ table m -> row ∈ table m0 \/ jx_event_id row = OCED__event_counter m0.

Definition qualifiers_frame (m0 m : OCED) : Prop :=
  OCED__event m = OCED__event m0 /\
  OCED__event_time m = OCED__event_time m0 /\
  OCED__event_counter m = OCED__event_counter m0 /\
  junction_grows OCED__event_x_object m0 m /\
  junction_grows OCED__event_x_object_relation m0 m /\
  junction_grows OCED__event_x_object_attribute_value m0 m.

(** The event ids of the history are dense: the event table holds
    [0 .. event_counter - 1] in order, the junction tables only such ids. *)
Definition junction_ids_below (table : OCED -> list junction_row) (m : OCED) : Prop :=
  forall row, row ∈ table m -> jx_event_id row < OCED__event_counter m.

Definition dense_event_ids (m : OCED) : Prop :=
  map ev_event_id (OCED__event m) = seq 0 (OCED__event_counter m) /\
  junction_ids_below OCED__event_x_object m /\
  junction_ids_below OCED__event_x_object_relation m /\
  junction_ids_below OCED__event_x_object_attribute_value m.

(** The ids of a column are exactly [0 .. n - 1]. *)
Definition ids_exactly (ids : list nat) (n : nat) : Prop := forall i, i ∈ ids <-> i < n.

(** The event ids that appear in the event table and in the three
    junction tables. *)
Definition recorded_event_ids (m : OCED) : list nat :=
  map ev_event_id (OCED__event m) ++
  map jx_event_id (OCED__event_x_object m) ++
  map jx_event_id (OCED__event_x_object_relation m) ++
  map jx_event_id (OCED__event_x_object_attribute_value m).

(** Counter density as the claim has it, for the model after the calls
    [es] on a fresh model: the counter is the number of accepted calls,
    and the event ids of the event table and the junction tables, taken
    together, are exactly those below it. *)
Definition counter_density (es : list Event) : Prop :=
  let m := insert_events es OCED__init__ in
  let n := count_inserted es OCED__init__ in
  OCED__event_counter m = n /\ ids_exactly (recorded_event_ids m) n.

(** An assignment that leaves the event tables, the counter and the
    junction tables alone. *)
Definition keeps_frame (f : OCED -> OCED) : Prop :=
  forall m, OCED__event (f m) = OCED__event m /\
            OCED__event_time (f m) = OCED__event_time m /\
            OCED__event_counter (f m) = OCED__event_counter m /\
            OCED__event_x_object (f m) = OCED__event_x_object m /\
            OCED__event_x_object_relation (f m) = OCED__event_x_object_relation m /\
            OCED__event_x_object_attribute_value (f m)
            = OCED__event_x_object_attribute_value m.

(** The half of [ownership_existency] on relations, with what keeps it
    through [delete_object]: each relation is in the list of both its
    endpoints. *)
Definition listed_at (cs : current_state) (i endpoint : string) : Prop :=
  exists o, cs_object cs !! endpoint = Some o /\ i ∈ object_relation_ids o.

Definition relation_sound (cs : current_state) (i : string) (r : object_relation_rec)
    : Prop :=
  (rel_existency r = true ->
   live_object cs (rel_from_object_id r) /\ live_object cs (rel_to_object_id r)) /\
  listed_at cs i (rel_from_object_id r) /\ listed_at cs i (rel_to_object_id r).

Definition relations_sound (cs : current_state) : Prop :=
  forall i r, cs_object_relation cs !! i = Some r -> relation_sound cs i r.

(** Objects persist with their existency and at least their relations. *)
Definition objects_persist (objs objs' : gmap string object_rec) : Prop :=
  forall j o, objs !! j = Some o ->
    exists o', objs' !! j = Some o' /\ obj_existency o' = obj_existency o /\
      forall x, x ∈ object_relation_ids o -> x ∈ object_relation_ids o'.

(** A relation persists with its endpoints, live only if it was. *)
Definition relation_persists (rels : gmap string object_relation_rec) (i : string)
    (r' : object_relation_rec) : Prop :=
  exists r, rels !! i = Some r /\
    rel_from_object_id r' = rel_from_object_id r /\
    rel_to_object_id r' = rel_to_object_id r /\
    (rel_existency r' = true -> rel_existency r = true).

(** ** Further predicates: how the store and the history evolve *)

(** Every key of [d] is a key of [d'], with a value related by [R]. *)
Definition map_evolves {V : Type} (R : V -> V -> Prop) (d d' : gmap string V) : Prop :=
  forall i v, d !! i = Some v -> exists v', d' !! i = Some v' /\ R v v'.

(** What may change in a record: existency may only be cleared, the
    back-reference lists may only be appended to, the endpoints of a
    relation and the name and owner of an attribute value stay. *)
Definition object_evolves (o o' : object_rec) : Prop :=
  (obj_existency o' = true -> obj_existency o = true) /\
  object_relation_ids o `prefix_of` object_relation_ids o' /\
  object_attribute_value_ids o `prefix_of` object_attribute_value_ids o'.

Definition relation_evolves (r r' : object_relation_rec) : Prop :=
  rel_from_object_id r' = rel_from_object_id r /\
  rel_to_object_id r' = rel_to_object_id r /\
  (rel_existency r' = true -> rel_existency r = true).

Definition attribute_value_evolves (a a' : object_attribute_value_rec) : Prop :=
  oav_name a' = oav_name a /\
  oav_object_id a' = oav_object_id a /\
  (oav_existency a' = true -> oav_existency a = true).

Definition state_evolves (cs cs' : current_state) : Prop :=
  map_evolves object_evolves (cs_object cs) (cs_object cs') /\
  map_evolves relation_evolves (cs_object_relation cs) (cs_object_relation cs') /\
  map_evolves attribute_value_evolves (cs_object_attribute_value cs)
    (cs_object_attribute_value cs').

Definition evolved_from (cs0 : current_state) (s : ucs) : Prop := state_evolves cs0 (fst s).

(** A [create_*] qualifier whose id is known in the store. *)
Definition creates_known (cs : current_state) (q : Qualifier) : bool :=
  match q with
  | create_object i _ => known (cs_object cs) i
  | create_object_relation i _ _ _ => known (cs_object_relation cs) i
  | create_object_attribute_value i _ _ _ => known (cs_object_attribute_value cs) i
  | _ => false
  end.

(** ** Further predicates: the history *)

(** Every history table of [m0] is a prefix of the same table of [m]. *)
Definition history_extends (m0 m : OCED) : Prop :=
  OCED__event m0 `prefix_of` OCED__event m /\
  OCED__event_type m0 `prefix_of` OCED__event_type m /\
  OCED__event_time m0 `prefix_of` OCED__event_time m /\
  OCED__event_attribute_name m0 `prefix_of` OCED__event_attribute_name m /\
  OCED__event_attribute_value m0 `prefix_of` OCED__event_attribute_value m /\
  OCED__object m0 `prefix_of` OCED__object m /\
  OCED__object_type m0 `prefix_of` OCED__object_type m /\
  OCED__object_attribute_name m0 `prefix_of` OCED__object_attribute_name m /\
  OCED__object_attribute_value m0 `prefix_of` OCED__object_attribute_value m /\
  OCED__object_relation m0 `prefix_of` OCED__object_relation m /\
  OCED__object_relation_type m0 `prefix_of` OCED__object_relation_type m /\
  OCED__event_x_object m0 `prefix_of` OCED__event_x_object m /\
  OCED__event_x_object_attribute_value m0
    `prefix_of` OCED__event_x_object_attribute_value m /\
  OCED__event_x_object_relation m0 `prefix_of` OCED__event_x_object_relation m.

(** The log of the model is [log]. *)
Definition log_is (log : gmap nat (list log_entry)) (m : OCED) : Prop := OCED__log m = log.

(** The events of a sequence of calls that were accepted, in order. *)
Fixpoint accepted (es : list Event) (m : OCED) : list Event :=
  match es with
  | [] => []
  | e :: es' =>
      if is_Raise (fst (insert_event e m)) then accepted es' (snd (insert_event e m))
      else e :: accepted es' (snd (insert_event e m))
  end.

(** The current state after the qualifiers of one event, and after the
    qualifiers of a list of events, each with a fresh set of involved ids. *)
Definition replay_event (cs : current_state) (qualifiers : list Qualifier) : current_state :=
  fst (snd (for_enumerate 0 qualifiers (fun qualifier_index qualifier =>
    update_current_state qualifier qualifier_index) (cs, no_involved_ids))).

Definition replay (events : list (list Qualifier)) (cs : current_state) : current_state :=
  fold_left replay_event events cs.

(** ** Further predicates: what a qualifier records *)

(** The id a qualifier acts on, and the junction table its
    [__update_tables] writes to. *)
Definition target_id (q : Qualifier) : string :=
  match q with
  | create_object i _ | delete_object i | modify_object i _ | involve_object i => i
  | create_object_relation i _ _ _ | delete_object_relation i | modify_object_relation i _
  | involve_object_relation i => i
  | create_object_attribute_value i _ _ _ | delete_object_attribute_value i
  | modify_object_attribute_value i _ | involve_object_attribute_value i => i
  end.

Definition junction_table (q : Qualifier) : OCED -> list junction_row :=
  match q with
  | create_object _ _ | delete_object _ | modify_object _ _ | involve_object _ =>
      OCED__event_x_object
  | create_object_relation _ _ _ _ | delete_object_relation _ | modify_object_relation _ _
  | involve_object_relation _ =>
      OCED__event_x_object_relation
  | create_object_attribute_value _ _ _ _ | delete_object_attribute_value _
  | modify_object_attribute_value _ _ | involve_object_attribute_value _ =>
      OCED__event_x_object_attribute_value
  end.

(** The row of the qualifier [q], at index [i] of the event [k]. *)
Definition junction_row_of (k : nat) (q : Qualifier) (i : nat) : junction_row :=
  mk_junction_row k (target_id q) (qualifier_type q) i.

(** The model is at event [k] and holds the row of [q] at index [i]. *)
Definition at_event (k : nat) (m : OCED) : Prop := OCED__event_counter m = k.

Definition recorded (k : nat) (q : Qualifier) (i : nat) (m : OCED) : Prop :=
  OCED__event_counter m = k /\ junction_row_of k q i ∈ junction_table q m.

(** A computation that, started where [P] holds, leaves [Q] when it
    returns. *)
Definition returns_with {St A : Type} (P : St -> Prop) (c : M St A) (Q : St -> Prop) : Prop :=
  forall s, P s -> is_Raise (fst (c s)) = false -> Q (snd (c s)).

(** ** Further predicates: entities *)

(** The six tables of objects, relations and attribute values of [m] are
    those of [m0]. *)
Definition entity_tables_are (m0 m : OCED) : Prop :=
  OCED__object m = OCED__object m0 /\
  OCED__object_type m = OCED__object_type m0 /\
  OCED__object_attribute_name m = OCED__object_attribute_name m0 /\
  OCED__object_attribute_value m = OCED__object_attribute_value m0 /\
  OCED__object_relation m = OCED__object_relation m0 /\
  OCED__object_relation_type m = OCED__object_relation_type m0.

(** A qualifier its [__init__] accepts. *)
Definition constructible (q : Qualifier) : Prop := Qualifier__init__ q = Done q.

(** No relation of the store joins an object to itself. *)
Definition no_self_relation (rels : gmap string object_relation_rec) : Prop :=
  forall i r, rels !! i = Some r -> rel_from_object_id r <> rel_to_object_id r.

(** Nor does a row of the relation table, nor the store of the model. *)
Definition no_self_relation_in (m : OCED) : Prop :=
  no_self_relation (model_relations m) /\
  forall row, row ∈ OCED__object_relation m -> row_from_object_id row <> row_to_object_id row.

(** ** Further predicates: the history and the current state *)

(** The row that stands for a record of the current state. *)
Definition object_row_of (i : string) (o : object_rec) : object_row :=
  mk_object_row i (obj_type o) (obj_existency o).

Definition object_relation_row_of (i : string) (r : object_relation_rec)
    : object_relation_row :=
  mk_object_relation_row i (rel_from_object_id r) (rel_to_object_id r) (rel_type r)
    (rel_existency r).

Definition object_attribute_value_row_of (i : string) (a : object_attribute_value_rec)
    : object_attribute_value_row :=
  mk_object_attribute_value_row i (oav_object_id a) (oav_name a) (oav_value a)
    (oav_existency a).

(** The last row of a table with the id [i] in its key column:
    [table[table[key] == i].iloc[-1]], if there is one. *)
Definition latest_row {A : Type} (key : A -> string) (i : string) (table : list A)
    : option A :=
  last (filter (fun row => key row = i) table).

(** The latest row of each id is the row of its record in the store, and
    an id has rows exactly when it is in the store. *)
Definition latest {A V : Type} (key : A -> string) (row_of : string -> V -> A)
    (table : list A) (d : gmap string V) : Prop :=
  forall i, latest_row key i table = row_of i <$> d !! i.

Definition history_agrees (m : OCED) : Prop :=
  latest row_object_id object_row_of (OCED__object m) (model_objects m) /\
  latest row_object_relation_id object_relation_row_of (OCED__object_relation m)
    (model_relations m) /\
  latest row_object_attribute_value_id object_attribute_value_row_of
    (OCED__object_attribute_value m) (model_attribute_values m).

(** The rows the [__update_tables] of a qualifier appends to the three
    entity tables, read off the current state it runs on. *)
Definition dead_relation_rows (cs : current_state) (i : string) : list object_relation_row :=
  match cs_object_relation cs !! i with
  | Some r =>
      if rel_existency r
      then [mk_object_relation_row i (rel_from_object_id r) (rel_to_object_id r)
              (rel_type r) false]
      else []
  | None => []
  end.

Definition dead_attribute_value_rows (cs : current_state) (i : string)
    : list object_attribute_value_row :=
  match cs_object_attribute_value cs !! i with
  | Some a =>
      if oav_existency a
      then [mk_object_attribute_value_row i (oav_object_id a) (oav_name a) (oav_value a)
              false]
      else []
  | None => []
  end.

Definition object_rows (q : Qualifier) (cs : current_state) : list object_row :=
  match q with
  | create_object i t => [mk_object_row i t true]
  | delete_object i =>
      match cs_object cs !! i with
      | Some o => [mk_object_row i (obj_type o) false]
      | None => []
      end
  | modify_object i t => [mk_object_row i t true]
  | _ => []
  end.

Definition object_relation_rows (q : Qualifier) (cs : current_state)
    : list object_relation_row :=
  match q with
  | create_object_relation i f t ty => [mk_object_relation_row i f t ty true]
  | delete_object i =>
      match cs_object cs !! i with
      | Some o => flat_map (dead_relation_rows cs) (object_relation_ids o)
      | None => []
      end
  | delete_object_relation i =>
      match cs_object_relation cs !! i with
      | Some r =>
          [mk_object_relation_row i (rel_from_object_id r) (rel_to_object_id r)
             (rel_type r) false]
      | None => []
      end
  | modify_object_relation i ty =>
      match cs_object_relation cs !! i with
      | Some r =>
          [mk_object_relation_row i (rel_from_object_id r) (rel_to_object_id r) ty true]
      | None => []
      end
  | _ => []
  end.

Definition object_attribute_value_rows (q : Qualifier) (cs : current_state)
    : list object_attribute_value_row :=
  match q with
  | create_object_attribute_value i o n v => [mk_object_attribute_value_row i o n v true]
  | delete_object i =>
      match cs_object cs !! i with
      | Some o => flat_map (dead_attribute_value_rows cs) (object_attribute_value_ids o)
      | None => []
      end
  | delete_object_attribute_value i =>
      match cs_object_attribute_value cs !! i with
      | Some a =>
          [mk_object_attribute_value_row i (oav_object_id a) (oav_name a) (oav_value a)
             false]
      | None => []
      end
  | modify_object_attribute_value i v =>
      match cs_object_attribute_value cs !! i with
      | Some a =>
          [mk_object_attribute_value_row i (oav_object_id a) (oav_name a) v true]
      | None => []
      end
  | _ => []
  end.

(** The entity tables of [m'] are those of [m] with these rows appended,
    and the current state is the same. *)
Definition appends (ro : list object_row) (rr : list object_relation_row)
    (ra : list object_attribute_value_row) (m m' : OCED) : Prop :=
  OCED__object m' = OCED__object m ++ ro /\
  OCED__object_relation m' = OCED__object_relation m ++ rr /\
  OCED__object_attribute_value m' = OCED__object_attribute_value m ++ ra /\
  OCED__current_state m' = OCED__current_state m.

(** The store [d'] is [d] but for the ids of the rows [rows], whose record
    is the one of their latest row. *)
Definition follows {A V : Type} (key : A -> string) (row_of : string -> V -> A)
    (rows : list A) (d d' : gmap string V) : Prop :=
  forall j, row_of j <$> d' !! j
            = match latest_row key j rows with
              | Some row => Some row
              | None => row_of j <$> d !! j
              end.

(** ** Further predicates: deleted entities *)

(** [id in d and d[id]['existency'] == False] *)
Definition dead {V : Type} (existency : V -> bool) (d : gmap string V) (i : string) : bool :=
  match d !! i with
  | Some v => negb (existency v)
  | None => false
  end.

(** A qualifier that names a deleted entity: as the one it creates,
    deletes, modifies or involves, or as an endpoint of the relation it
    creates. *)
Definition acts_on_dead (cs : current_state) (q : Qualifier) : bool :=
  match q with
  | create_object i _ | delete_object i | modify_object i _ | involve_object i =>
      dead obj_existency (cs_object cs) i
  | create_object_relation i f t _ =>
      dead rel_existency (cs_object_relation cs) i
      || dead obj_existency (cs_object cs) f || dead obj_existency (cs_object cs) t
  | delete_object_relation i | modify_object_relation i _ | involve_object_relation i =>
      dead rel_existency (cs_object_relation cs) i
  | create_object_attribute_value i _ _ _ | delete_object_attribute_value i
  | modify_object_attribute_value i _ | involve_object_attribute_value i =>
      dead oav_existency (cs_object_attribute_value cs) i
  end.

(** ** Further predicates: what an event records *)

(** The event [e], accepted as event [k], is in the event tables of [m]:
    its row and its time at index [k], its type and the names of its
    attributes listed in the lookup tables, one row for each of its
    attributes. *)
Definition event_recorded (k : nat) (e : Event) (m : OCED) : Prop :=
  OCED__event m !! k = Some (mk_event_row k (Event__event_type e) (Event__event_time e)) /\
  OCED__event_time m !! k = Some (Event__event_time e) /\
  listed (Event__event_type e) (OCED__event_type m) /\
  forall item, item ∈ dict_items (Event__event_attributes e) ->
    listed (fst item) (OCED__event_attribute_name m) /\
    mk_event_attribute_value_row k (fst item) (snd item) ∈ OCED__event_attribute_value m.

(** The event table and the time column have one row for each event id
    below the counter. *)
Definition one_row_per_event (m : OCED) : Prop :=
  length (OCED__event m) = OCED__event_counter m /\
  length (OCED__event_time m) = OCED__event_counter m.

(** A sample event with an attribute. *)
Definition order_placed : Event :=
  mk_Event t1 "order placed" [create_object "o1" "Order"]
    (mk_pydict [("channel", "web")] eq_refl).

(** ** Further predicates: what a junction row comes from *)

(** The three kinds of entity, each with its junction table. *)
Inductive kind : Type := Object | ObjectRelation | ObjectAttributeValue.

Definition qualifier_kind (q : Qualifier) : kind :=
  match q with
  | create_object _ _ | delete_object _ | modify_object _ _ | involve_object _ => Object
  | create_object_relation _ _ _ _ | delete_object_relation _ | modify_object_relation _ _
  | involve_object_relation _ => ObjectRelation
  | create_object_attribute_value _ _ _ _ | delete_object_attribute_value _
  | modify_object_attribute_value _ _ | involve_object_attribute_value _ =>
      ObjectAttributeValue
  end.

Definition junction_of (K : kind) : OCED -> list junction_row :=
  match K with
  | Object => OCED__event_x_object
  | ObjectRelation => OCED__event_x_object_relation
  | ObjectAttributeValue => OCED__event_x_object_attribute_value
  end.

Definition is_delete_object (q : Qualifier) : bool :=
  match q with delete_object _ => true | _ => false end.

(** A row of the junction table of [K] written for the qualifier [q], at
    index [j] of the event [k]: the row of [q] itself, or a [DELETE] row of
    the cascade of a [delete_object] on a relation or an attribute value. *)
Definition written_for (k j : nat) (q : Qualifier) (K : kind) (row : junction_row) : Prop :=
  jx_event_id row = k /\ jx_qualifier_index row = j /\
  ((qualifier_kind q = K /\ jx_target_id row = target_id q /\
    jx_qualifier_type row = qualifier_type q) \/
   (is_delete_object q = true /\ K <> Object /\ jx_qualifier_type row = "DELETE")).

(** Every junction row of [m] comes from a qualifier of one of the events
    [events], numbered in order. *)
Definition junction_rows_explained (events : list Event) (m : OCED) : Prop :=
  forall K row, row ∈ junction_of K m ->
    exists e q, events !! jx_event_id row = Some e /\
      Event__qualifiers e !! jx_qualifier_index row = Some q /\
      written_for (jx_event_id row) (jx_qualifier_index row) q K row.

(** The junction rows of [m] are those of [m0] and rows written for [q]. *)
Definition junction_step (m0 : OCED) (k j : nat) (q : Qualifier) (m : OCED) : Prop :=
  OCED__event_counter m = k /\
  forall K row, row ∈ junction_of K m -> row ∈ junction_of K m0 \/ written_for k j q K row.

(** The junction rows of [m] are those of [m0] and rows written for the
    qualifiers [qs] of the event [k]. *)
Definition junction_event (m0 : OCED) (k : nat) (qs : list Qualifier) (m : OCED) : Prop :=
  OCED__event_counter m = k /\
  forall K row, row ∈ junction_of K m ->
    row ∈ junction_of K m0 \/
    exists j q, qs !! j = Some q /\ written_for k j q K row.

(** ** Further predicates: the attribute-name table *)

(** Every attribute name of the attribute-value table and of the current
    state is listed in the attribute-name table. *)
Definition names_listed (L : list string)
    (d : gmap string object_attribute_value_rec) : Prop :=
  forall i a, d !! i = Some a -> listed (oav_name a) L.

Definition attribute_names_covered (m : OCED) : Prop :=
  (forall row, row ∈ OCED__object_attribute_value m ->
     listed (row_object_attribute_name row) (OCED__object_attribute_name m)) /\
  names_listed (OCED__object_attribute_name m) (model_attribute_values m).

(** The attribute name a qualifier introduces is in the list. *)
Definition new_name_listed (q : Qualifier) (L : list string) : Prop :=
  match q with
  | create_object_attribute_value _ _ n _ => listed n L
  | _ => True
  end.

(** * Properties *)

Example scenario_counter :
  OCED__event_counter (insert_events scenario OCED__init__) = 4.
Proof. vm_compute. reflexivity. Qed.

Example scenario_r1_dead :
  rel_existency <$> model_relations (insert_events scenario OCED__init__) !! "r1" = Some false.
Proof. vm_compute. reflexivity. Qed.

Example scenario_reuse_rejected :
  fst (insert_event (ev t5 [create_object "o1" "Person"]) (insert_events scenario OCED__init__))
  = Raise AttributeError.
Proof. vm_compute. reflexivity. Qed.

(** Reading an attribute of the model after an assignment. *)
Ltac oced_simpl :=
  unfold upd_OCED__event,
    upd_OCED__event_type,
    upd_OCED__event_time,
    upd_OCED__event_attribute_name,
    upd_OCED__event_attribute_value,
    upd_OCED__object,
    upd_OCED__object_type,
    upd_OCED__object_attribute_name,
    upd_OCED__object_attribute_value,
    upd_OCED__object_relation,
    upd_OCED__object_relation_type,
    upd_OCED__event_x_object,
    upd_OCED__event_x_object_attribute_value,
    upd_OCED__event_x_object_relation,
    upd_OCED__log,
    upd_OCED__current_state,
    upd_OCED__event_counter in *;
  simpl in *.

Ltac ucs_simpl :=
  unfold the_objects, the_relations, the_attribute_values, upd_objects, upd_relations,
    upd_attribute_values, involve_object_id, involve_relation_id,
    involve_attribute_value_id, model_objects, model_relations, model_attribute_values in *;
  simpl in *.

(** ** The monad *)

Section Monad.
Context {St : Type}.

Lemma bind_Done {A B : Type} (c : M St A) (k : A -> M St B) s a s' :
  c s = (Done a, s') -> bind c k s = k a s'.
Proof. unfold bind. intros ->. reflexivity. Qed.

Lemma bind_Raise {A B : Type} (c : M St A) (k : A -> M St B) s x s' :
  c s = (Raise x, s') -> bind c k s = (Raise x, s').
Proof. unfold bind. intros ->. reflexivity. Qed.

Lemma bind_Done_inv {A B : Type} (c : M St A) (k : A -> M St B) s b s' :
  bind c k s = (Done b, s') ->
  exists a s1, c s = (Done a, s1) /\ k a s1 = (Done b, s').
Proof.
  unfold bind. destruct (c s) as [[a|x] s1]; intros H; [eauto | discriminate].
Qed.

Lemma preserves_ret {A : Type} (P : St -> Prop) (a : A) : preserves P (ret a).
Proof. intros s H. exact H. Qed.

Lemma preserves_raise {A : Type} (P : St -> Prop) x : preserves P (raise (A:=A) x).
Proof. intros s H. exact H. Qed.

Lemma preserves_raise_with {A : Type} (P : St -> Prop) x msg :
  preserves P (raise_with (A:=A) x msg).
Proof. destruct msg; apply preserves_raise. Qed.

Lemma preserves_gets {A : Type} (P : St -> Prop) (f : St -> A) : preserves P (gets f).
Proof. intros s H. exact H. Qed.

Lemma preserves_getitem {V : Type} (P : St -> Prop) (d : St -> gmap string V) k :
  preserves P (getitem d k).
Proof. intros s H. unfold getitem. destruct (d s !! k); exact H. Qed.

Lemma preserves_modify (P : St -> Prop) (f : St -> St) :
  (forall s, P s -> P (f s)) -> preserves P (modify f).
Proof. intros Hf s H. apply Hf, H. Qed.

Lemma preserves_bind {A B : Type} (P : St -> Prop) (c : M St A) (k : A -> M St B) :
  preserves P c -> (forall a, preserves P (k a)) -> preserves P (bind c k).
Proof.
  intros Hc Hk s H. unfold bind. specialize (Hc s H).
  destruct (c s) as [[a|x] s1]; simpl in *; [apply Hk, Hc | exact Hc].
Qed.

Lemma preserves_gets_modify {A : Type} (P : St -> Prop) (f : St -> A) g :
  (forall s, P s -> P (g (f s) s)) -> preserves P (bind (gets f) (fun x => modify (g x))).
Proof. intros Hg s H. apply Hg, H. Qed.

Lemma preserves_for_each {A : Type} (P : St -> Prop) (l : list A) body :
  (forall x, preserves P (body x)) -> preserves P (for_each l body).
Proof.
  intros Hb. induction l as [|x l IH]; simpl.
  - apply preserves_ret.
  - apply preserves_bind; [apply Hb | intros _; exact IH].
Qed.

Lemma preserves_for_enumerate {A : Type} (P : St -> Prop) (l : list A) body i :
  (forall i x, preserves P (body i x)) -> preserves P (for_enumerate i l body).
Proof.
  intros Hb. revert i. induction l as [|x l IH]; intros i; simpl.
  - apply preserves_ret.
  - apply preserves_bind; [apply Hb | intros _; apply IH].
Qed.
End Monad.

(** A loop over elements that all have a property. *)
Lemma preserves_for_enumerate_Forall {St A : Type} (P : St -> Prop) (F : A -> Prop)
    (l : list A) body :
  (forall i x, F x -> preserves P (body i x)) ->
  Forall F l -> forall i, preserves P (for_enumerate i l body).
Proof.
  intros Hb. induction 1 as [|x l Hx Hl IH]; intros i; simpl.
  - apply preserves_ret.
  - apply preserves_bind; [apply Hb, Hx | intros _; apply IH].
Qed.

Lemma preserves_on_model {A : Type} (P : OCED -> Prop) (c : M OCED A) :
  preserves P c -> preserves (fun s : OCED * involved_ids => P (fst s)) (on_model c).
Proof.
  intros Hc [m inv] H. unfold on_model. simpl in *. specialize (Hc m H).
  destruct (c m) as [r m']. exact Hc.
Qed.

Lemma preserves_on_current_state {A : Type} (P : OCED -> Prop) (c : M ucs A) :
  (forall m cs, P m -> P (upd_OCED__current_state (fun _ => cs) m)) ->
  preserves (fun s : OCED * involved_ids => P (fst s)) (on_current_state c).
Proof.
  intros HP [m inv] H. unfold on_current_state. simpl in *.
  destruct (c (OCED__current_state m, inv)) as [r [cs' inv']]. simpl. apply HP, H.
Qed.

(** Validation works on a copy: the model is the same after it, whatever
    its outcome. *)
Lemma Event__precondition_reads_only e m : snd (Event__precondition e m) = m.
Proof.
  unfold Event__precondition, bind, gets, raise.
  destruct (column_max (OCED__event_time m)) as [max_time|]; [|reflexivity].
  destruct (String.leb _ _); reflexivity.
Qed.

Lemma preserves_Event__precondition (P : OCED -> Prop) e :
  preserves P (Event__precondition e).
Proof. intros m H. rewrite Event__precondition_reads_only. exact H. Qed.

Ltac preserve_with leaf :=
  repeat first
    [ leaf
    | apply preserves_ret | apply preserves_raise_with | apply preserves_raise
    | apply preserves_gets | apply preserves_getitem
    | apply preserves_bind; [| intros ?]
    | apply preserves_for_each; intros ?
    | match goal with |- preserves _ (if ?b then _ else _) => destruct b end ].

Ltac preserve := preserve_with fail.

(** ** Lookup tables and strings that end in NUL *)

Example trim_trailing_nul_T_nul : trim_trailing_nul T_nul = "T".
Proof. reflexivity. Qed.

Example trim_trailing_nul_inner :
  trim_trailing_nul (String "T" (String Ascii.zero "x")) = String "T" (String Ascii.zero "x").
Proof. reflexivity. Qed.

Example no_trailing_nul_Person : no_trailing_nul "Person".
Proof. reflexivity. Qed.

Section Deduplication.
Lemma NoDup_concat_row (table : list string) v :
  NoDup table -> v ∉ table -> NoDup (concat_row v table).
Proof.
  intros Hn Hv. unfold concat_row. apply NoDup_app. repeat split; auto.
  - intros x Hx Hx'. apply list_elem_of_singleton in Hx'. subst. auto.
  - apply NoDup_singleton.
Qed.

Lemma dedup_concat_if_new_event_type v :
  no_trailing_nul v ->
  preserves lookup_tables_deduplicated (concat_if_new upd_OCED__event_type OCED__event_type v).
Proof.
  intros Hv m (H1 & H2 & H3 & H4 & H5). unfold concat_if_new, bind, gets. simpl.
  rewrite Hv.
  case_bool_decide; oced_simpl; repeat split; simpl; auto using NoDup_concat_row.
Qed.

Lemma dedup_concat_if_new_object_type v :
  no_trailing_nul v ->
  preserves lookup_tables_deduplicated (concat_if_new upd_OCED__object_type OCED__object_type v).
Proof.
  intros Hv m (H1 & H2 & H3 & H4 & H5). unfold concat_if_new, bind, gets. simpl.
  rewrite Hv.
  case_bool_decide; oced_simpl; repeat split; simpl; auto using NoDup_concat_row.
Qed.

Lemma dedup_concat_if_new_object_relation_type v :
  no_trailing_nul v ->
  preserves lookup_tables_deduplicated
    (concat_if_new upd_OCED__object_relation_type OCED__object_relation_type v).
Proof.
  intros Hv m (H1 & H2 & H3 & H4 & H5). unfold concat_if_new, bind, gets. simpl.
  rewrite Hv.
  case_bool_decide; oced_simpl; repeat split; simpl; auto using NoDup_concat_row.
Qed.

Lemma dedup_concat_if_new_object_attribute_name v :
  no_trailing_nul v ->
  preserves lookup_tables_deduplicated
    (concat_if_new upd_OCED__object_attribute_name OCED__object_attribute_name v).
Proof.
  intros Hv m (H1 & H2 & H3 & H4 & H5). unfold concat_if_new, bind, gets. simpl.
  rewrite Hv.
  case_bool_decide; oced_simpl; repeat split; simpl; auto using NoDup_concat_row.
Qed.

Lemma dedup_keeps f m : keeps_lookup_tables f -> lookup_tables_deduplicated m -> lookup_tables_deduplicated (f m).
Proof.
  intros Hf. destruct (Hf m) as (E1 & E2 & E3 & E4 & E5).
  unfold lookup_tables_deduplicated. rewrite E1, E2, E3, E4, E5. auto.
Qed.

Lemma dedup_modify f : keeps_lookup_tables f -> preserves lookup_tables_deduplicated (modify f).
Proof. intros Hf. apply preserves_modify. intros m. apply dedup_keeps, Hf. Qed.

Lemma dedup_junction upd t qt i :
  (forall f, keeps_lookup_tables (upd f)) -> preserves lookup_tables_deduplicated (junction upd t qt i).
Proof. intros Hu. unfold junction. preserve. apply dedup_modify, Hu. Qed.

Ltac keeps := intros; intros ?; repeat split; reflexivity.

Lemma dedup_concat_relation_row i ty b : preserves lookup_tables_deduplicated (concat_relation_row i ty b).
Proof. unfold concat_relation_row. preserve. apply dedup_modify. keeps. Qed.

Lemma dedup_concat_attribute_value_row i v b :
  preserves lookup_tables_deduplicated (concat_attribute_value_row i v b).
Proof. unfold concat_attribute_value_row. preserve. apply dedup_modify. keeps. Qed.

Ltac dedup :=
  preserve_with
    ltac:(first [ apply dedup_concat_if_new_event_type; assumption
                | apply dedup_concat_if_new_object_type; assumption
                | apply dedup_concat_if_new_object_relation_type; assumption
                | apply dedup_concat_if_new_object_attribute_name; assumption
                | apply dedup_concat_relation_row
                | apply dedup_concat_attribute_value_row
                | apply dedup_junction; keeps
                | apply dedup_modify; keeps ]).

Lemma dedup_update_tables q i :
  plain_qualifier q -> preserves lookup_tables_deduplicated (update_tables q i).
Proof.
  destruct q; simpl; intros Hq;
    unfold create_object__update_tables, create_object_relation__update_tables,
      create_object_attribute_value__update_tables, delete_object__update_tables,
      cascade_relation_rows, cascade_attribute_value_rows,
      delete_object_relation__update_tables,
      delete_object_attribute_value__update_tables, modify_object__update_tables,
      modify_object_relation__update_tables,
      modify_object_attribute_value__update_tables, involve_object__update_tables,
      involve_object_relation__update_tables,
      involve_object_attribute_value__update_tables;
    dedup.
Qed.

Lemma dedup_execute_qualifiers qs :
  Forall plain_qualifier qs ->
  preserves (fun s : OCED * involved_ids => lookup_tables_deduplicated (fst s)) (execute_qualifiers qs).
Proof.
  intros Hqs. unfold execute_qualifiers.
  apply preserves_for_enumerate_Forall with (2 := Hqs). intros i q Hq.
  apply preserves_bind.
  - apply preserves_on_model, dedup_update_tables, Hq.
  - intros _. apply preserves_on_current_state. intros m cs. apply dedup_keeps. keeps.
Qed.

Lemma NoDup_new_names (table keys : list string) :
  NoDup table -> NoDup keys -> Forall no_trailing_nul keys ->
  NoDup (table ++ filter (fun k => trim_trailing_nul k ∉ table) keys).
Proof.
  intros Ht Hk Hplain. apply NoDup_app. repeat split; auto.
  - intros x Hx Hx'. apply list_elem_of_filter in Hx'. destruct Hx' as [Hnew Hkey].
    rewrite Forall_forall in Hplain. rewrite (Hplain x Hkey) in Hnew. tauto.
  - apply NoDup_filter, Hk.
Qed.

Lemma dict_keys_NoDup (d : pydict) : NoDup (dict_keys d).
Proof. destruct d as [items H]. exact (bool_decide_eq_true_1 _ H). Qed.

Lemma dedup_Event__execute e :
  plain_event e -> preserves lookup_tables_deduplicated (Event__execute e).
Proof.
  intros (Htype & Hnames & Hqs).
  unfold Event__execute. apply preserves_bind; [| intros _].
  - unfold Event__execute_tables.
    apply preserves_bind; [dedup | intros _].
    apply preserves_bind; [dedup | intros _].
    apply preserves_bind; [dedup | intros _].
    apply preserves_bind; [| intros _; dedup].
    apply preserves_gets_modify. intros m (H1 & H2 & H3 & H4 & H5).
    oced_simpl. repeat split; simpl; auto.
    apply NoDup_new_names; auto using dict_keys_NoDup.
  - intros m H.
    pose proof (dedup_execute_qualifiers (Event__qualifiers e) Hqs (m, no_involved_ids) H)
      as H'.
    destruct (execute_qualifiers _ _) as [r [m' inv']]. exact H'.
Qed.

Lemma dedup_insert_event e :
  plain_event e -> preserves lookup_tables_deduplicated (insert_event e).
Proof.
  intros He. unfold insert_event.
  apply preserves_bind; [apply preserves_Event__precondition | intros _].
  apply preserves_bind; [apply dedup_Event__execute, He | intros _].
  unfold Event__log. dedup.
Qed.

Lemma dedup_OCED__init__ : lookup_tables_deduplicated OCED__init__.
Proof. repeat split; apply NoDup_nil_2. Qed.
End Deduplication.

(** Where no event type, attribute name, object type or relation type ends
    in a NUL character, each value appears at most once in each of the
    lookup tables. *)
Lemma plain_events_keep_lookup_tables_deduplicated (es : list Event) :
  Forall plain_event es -> lookup_tables_deduplicated (insert_events es OCED__init__).
Proof.
  unfold insert_events. generalize dedup_OCED__init__. generalize OCED__init__.
  induction es as [|e es IH]; intros m H Hes; simpl; [exact H |].
  apply Forall_cons in Hes. destruct Hes as [He Hes].
  apply IH; [apply dedup_insert_event; assumption | exact Hes].
Qed.

(** A type that ends in NUL is taken for the type without it: after an
    event of type ['T'], an event of type ['T\x00'] adds nothing to the
    [event_type] table. *)
Example type_with_nul_is_taken_for_its_trimmed_form :
  OCED__event_type
    (insert_events [mk_Event t1 "T" [] empty_dict; mk_Event t2 T_nul [] empty_dict]
       OCED__init__) = ["T"] /\
  map ev_event_type
    (OCED__event
       (insert_events [mk_Event t1 "T" [] empty_dict; mk_Event t2 T_nul [] empty_dict]
          OCED__init__)) = ["T"; T_nul].
Proof. split; vm_compute; reflexivity. Qed.

(** C10, on the code.  Two events of the type ['T\x00'], each creating an
    object of the type ['T\x00'], are both accepted, and the tables
    [event_type] and [object_type] then hold that value twice: the test
    [value not in column.values] looks for ['T'], which is not there, so
    the value is appended each time. *)
Theorem lookup_tables_hold_a_value_twice :
  count_inserted nul_scenario OCED__init__ = 2 /\
  OCED__event_type (insert_events nul_scenario OCED__init__) = [T_nul; T_nul] /\
  OCED__object_type (insert_events nul_scenario OCED__init__) = [T_nul; T_nul] /\
  ~ lookup_tables_deduplicated (insert_events nul_scenario OCED__init__).
Proof.
  assert (H : OCED__event_type (insert_events nul_scenario OCED__init__) = [T_nul; T_nul])
    by (vm_compute; reflexivity).
  split; [vm_compute; reflexivity|]. split; [exact H|].
  split; [vm_compute; reflexivity|].
  intros (Hdup & _). rewrite H in Hdup. apply NoDup_cons in Hdup.
  destruct Hdup as [Hdup _]. apply Hdup. left.
Qed.

(** ** The cascade of [delete_object] on the current state *)

Lemma rel_set_existency_dead r : rel_existency r = false -> rel_set_existency false r = r.
Proof. destruct r; simpl; intros ->; reflexivity. Qed.

Lemma oav_set_existency_dead a : oav_existency a = false -> oav_set_existency false a = a.
Proof. destruct a; simpl; intros ->; reflexivity. Qed.

Lemma alter_id_at {V : Type} (f : V -> V) (d : gmap string V) i v :
  d !! i = Some v -> f v = v -> alter f i d = d.
Proof.
  intros Hi Hf. apply map_eq. intros j. rewrite lookup_alter.
  case_decide; [subst; rewrite Hi; simpl; congruence | reflexivity].
Qed.

Lemma lookup_clear {V : Type} (f : V -> V) (ids : list string) (d : gmap string V) j :
  (forall v, f (f v) = f v) ->
  fold_left (fun d i => alter f i d) ids d !! j
  = if decide (j ∈ ids) then f <$> d !! j else d !! j.
Proof.
  intros Hf. revert d. induction ids as [|i ids IH]; intros d; simpl.
  - reflexivity.
  - rewrite IH, lookup_alter.
    destruct (decide (j ∈ i :: ids)) as [Hj|Hj], (decide (j ∈ ids)) as [Hin|Hin],
      (decide (i = j)) as [->|Hne]; try reflexivity.
    + destruct (d !! j); simpl; [rewrite Hf|]; reflexivity.
    + apply elem_of_cons in Hj. destruct Hj; [congruence | contradiction].
    + destruct Hj. apply elem_of_cons; auto.
    + destruct Hj. apply elem_of_cons; auto.
    + destruct Hj. apply elem_of_cons; auto.
Qed.

Lemma cascade_relation_spec i (s : ucs) :
  match the_relations s !! i with
  | None => cascade_relation i s = (Raise KeyError, s)
  | Some r =>
      exists inv', cascade_relation i s
        = (Done tt, (mk_current_state (the_objects s)
                       (alter (rel_set_existency false) i (the_relations s))
                       (the_attribute_values s), inv'))
  end.
Proof.
  destruct s as [[objs rels oavs] inv]. unfold cascade_relation, bind, getitem, modify.
  ucs_simpl.
  destruct (rels !! i) as [r|] eqn:Hr; [|reflexivity].
  destruct (rel_existency r) eqn:He; simpl.
  - eexists. reflexivity.
  - exists inv. unfold ret.
    rewrite (alter_id_at _ rels i r Hr (rel_set_existency_dead r He)). reflexivity.
Qed.

Lemma cascade_attribute_value_spec i (s : ucs) :
  match the_attribute_values s !! i with
  | None => cascade_attribute_value i s = (Raise KeyError, s)
  | Some r =>
      exists inv', cascade_attribute_value i s
        = (Done tt, (mk_current_state (the_objects s) (the_relations s)
                       (alter (oav_set_existency false) i (the_attribute_values s)), inv'))
  end.
Proof.
  destruct s as [[objs rels oavs] inv].
  unfold cascade_attribute_value, bind, getitem, modify. ucs_simpl.
  destruct (oavs !! i) as [a|] eqn:Ha; [|reflexivity].
  destruct (oav_existency a) eqn:He; simpl.
  - eexists. reflexivity.
  - exists inv. unfold ret.
    rewrite (alter_id_at _ oavs i a Ha (oav_set_existency_dead a He)). reflexivity.
Qed.

Lemma cascade_relations_Done ids : forall s : ucs,
  Forall (fun r => is_Some (the_relations s !! r)) ids ->
  exists inv', for_each ids cascade_relation s
    = (Done tt, (mk_current_state (the_objects s) (clear_relations ids (the_relations s))
                   (the_attribute_values s), inv')).
Proof.
  induction ids as [|i ids IH]; intros s Hall.
  - destruct s as [[objs rels oavs] inv]. exists inv. reflexivity.
  - apply Forall_cons in Hall. destruct Hall as [[r Hr] Hall].
    pose proof (cascade_relation_spec i s) as Hi. rewrite Hr in Hi.
    destruct Hi as [inv1 Hi]. simpl. rewrite (bind_Done _ _ _ _ _ Hi).
    destruct (IH (mk_current_state (the_objects s)
                    (alter (rel_set_existency false) i (the_relations s))
                    (the_attribute_values s), inv1)) as [inv' IH'].
    + eapply Forall_impl; [exact Hall|]. intros j [rj Hj]. unfold the_relations in *. simpl.
      rewrite lookup_alter. case_decide; [subst; rewrite Hr|rewrite Hj]; eauto.
    + exists inv'. rewrite IH'. reflexivity.
Qed.

Lemma cascade_relations_Done_inv ids : forall (s s' : ucs),
  for_each ids cascade_relation s = (Done tt, s') ->
  Forall (fun r => is_Some (the_relations s !! r)) ids.
Proof.
  induction ids as [|i ids IH]; intros s s' H; [constructor|].
  simpl in H. apply bind_Done_inv in H. destruct H as ([] & s1 & Hi & H).
  pose proof (cascade_relation_spec i s) as Hs.
  destruct (the_relations s !! i) as [r|] eqn:Hr; [|congruence].
  destruct Hs as [inv1 Hs]. rewrite Hs in Hi. injection Hi as <-.
  constructor; [eauto|]. apply IH in H.
  eapply Forall_impl; [exact H|]. intros j [rj Hj]. unfold the_relations in *. simpl in *.
  rewrite lookup_alter in Hj. case_decide; subst; eauto.
Qed.

Lemma cascade_attribute_values_Done ids : forall s : ucs,
  Forall (fun v => is_Some (the_attribute_values s !! v)) ids ->
  exists inv', for_each ids cascade_attribute_value s
    = (Done tt, (mk_current_state (the_objects s) (the_relations s)
                   (clear_attribute_values ids (the_attribute_values s)), inv')).
Proof.
  induction ids as [|i ids IH]; intros s Hall.
  - destruct s as [[objs rels oavs] inv]. exists inv. reflexivity.
  - apply Forall_cons in Hall. destruct Hall as [[r Hr] Hall].
    pose proof (cascade_attribute_value_spec i s) as Hi. rewrite Hr in Hi.
    destruct Hi as [inv1 Hi]. simpl. rewrite (bind_Done _ _ _ _ _ Hi).
    destruct (IH (mk_current_state (the_objects s) (the_relations s)
                    (alter (oav_set_existency false) i (the_attribute_values s)), inv1))
      as [inv' IH'].
    + eapply Forall_impl; [exact Hall|]. intros j [rj Hj]. unfold the_attribute_values in *. simpl.
      rewrite lookup_alter. case_decide; [subst; rewrite Hr|rewrite Hj]; eauto.
    + exists inv'. rewrite IH'. reflexivity.
Qed.

Lemma cascade_attribute_values_Done_inv ids : forall (s s' : ucs),
  for_each ids cascade_attribute_value s = (Done tt, s') ->
  Forall (fun v => is_Some (the_attribute_values s !! v)) ids.
Proof.
  induction ids as [|i ids IH]; intros s s' H; [constructor|].
  simpl in H. apply bind_Done_inv in H. destruct H as ([] & s1 & Hi & H).
  pose proof (cascade_attribute_value_spec i s) as Hs.
  destruct (the_attribute_values s !! i) as [r|] eqn:Hr; [|congruence].
  destruct Hs as [inv1 Hs]. rewrite Hs in Hi. injection Hi as <-.
  constructor; [eauto|]. apply IH in H.
  eapply Forall_impl; [exact H|]. intros j [rj Hj].
  unfold the_attribute_values in *. simpl in *.
  rewrite lookup_alter in Hj. case_decide; subst; eauto.
Qed.

Lemma delete_object_Done cs inv i k o :
  cs_object cs !! i = Some o -> obj_existency o = true ->
  Forall (fun r => is_Some (cs_object_relation cs !! r)) (object_relation_ids o) ->
  Forall (fun v => is_Some (cs_object_attribute_value cs !! v))
    (object_attribute_value_ids o) ->
  exists inv', delete_object__update_current_state i k (cs, inv)
    = (Done tt, (mk_current_state
                   (alter (obj_set_existency false) i (cs_object cs))
                   (clear_relations (object_relation_ids o) (cs_object_relation cs))
                   (clear_attribute_values (object_attribute_value_ids o)
                      (cs_object_attribute_value cs)), inv')).
Proof.
  intros Ho Hlive Hrels Hoavs. destruct cs as [objs rels oavs]. simpl in *.
  unfold delete_object__update_current_state, missing_or_dead.
  unfold bind at 1. unfold gets at 1. ucs_simpl. rewrite Ho, Hlive. simpl.
  unfold bind at 1. unfold modify at 1. ucs_simpl.
  unfold bind at 1. unfold modify at 1. ucs_simpl.
  unfold bind at 1. unfold bind at 1. unfold getitem at 1. ucs_simpl.
  rewrite lookup_alter_eq, Ho. simpl.
  match goal with |- context [for_each _ cascade_relation ?s] =>
    destruct (cascade_relations_Done (object_relation_ids o) s) as [inv1 H1];
      [exact Hrels | rewrite H1] end.
  ucs_simpl. unfold bind at 1. unfold getitem at 1. ucs_simpl.
  rewrite lookup_alter_eq, Ho. simpl.
  match goal with |- context [for_each _ cascade_attribute_value ?s] =>
    destruct (cascade_attribute_values_Done (object_attribute_value_ids o) s) as [inv2 H2];
      [exact Hoavs | rewrite H2] end.
  ucs_simpl. eauto.
Qed.

Lemma delete_object_Done_inv cs inv i k s' :
  delete_object__update_current_state i k (cs, inv) = (Done tt, s') ->
  exists o, cs_object cs !! i = Some o /\ obj_existency o = true /\
    Forall (fun r => is_Some (cs_object_relation cs !! r)) (object_relation_ids o) /\
    Forall (fun v => is_Some (cs_object_attribute_value cs !! v))
      (object_attribute_value_ids o).
Proof.
  destruct cs as [objs rels oavs].
  unfold delete_object__update_current_state, missing_or_dead.
  unfold bind at 1. unfold gets at 1. ucs_simpl.
  destruct (objs !! i) as [o|] eqn:Ho; [|discriminate].
  destruct (obj_existency o) eqn:Hlive; [|discriminate]. simpl.
  unfold bind at 1. unfold modify at 1. ucs_simpl.
  unfold bind at 1. unfold modify at 1. ucs_simpl.
  unfold bind at 1. unfold bind at 1. unfold getitem at 1. ucs_simpl.
  rewrite lookup_alter_eq, Ho. simpl.
  destruct (for_each (object_relation_ids o) cascade_relation _) as [[[]|x] s1] eqn:H1;
    [|discriminate].
  pose proof (cascade_relations_Done_inv _ _ _ H1) as Hrels.
  destruct (cascade_relations_Done _ _ Hrels) as [inv1 H1'].
  rewrite H1' in H1. injection H1 as <-. ucs_simpl.
  unfold bind at 1. unfold getitem at 1. ucs_simpl.
  rewrite lookup_alter_eq, Ho. simpl. intros H2.
  pose proof (cascade_attribute_values_Done_inv _ _ _ H2) as Hoavs.
  exists o. repeat split; assumption.
Qed.

(** ** Commit after validation *)

Lemma validated_tables_ready q k cs inv s' :
  update_current_state q k (cs, inv) = (Done tt, s') -> tables_ready q cs.
Proof.
  destruct q; simpl; try exact (fun _ => I).
  - intros H. apply delete_object_Done_inv in H. destruct H as (o & Ho & _ & Hr & Ha).
    exists o. auto.
  - unfold delete_object_relation__update_current_state, missing_or_dead, bind, gets.
    ucs_simpl. destruct (cs_object_relation cs !! object_relation_id); [eauto|discriminate].
  - unfold delete_object_attribute_value__update_current_state, missing_or_dead, bind, gets.
    ucs_simpl.
    destruct (cs_object_attribute_value cs !! object_attribute_value_id); [eauto|discriminate].
  - unfold modify_object_relation__update_current_state, missing_or_dead, bind, gets.
    ucs_simpl. destruct (cs_object_relation cs !! object_relation_id); [eauto|discriminate].
  - unfold modify_object_attribute_value__update_current_state, missing_or_dead, bind, gets.
    ucs_simpl.
    destruct (cs_object_attribute_value cs !! object_attribute_value_id); [eauto|discriminate].
Qed.

Section ReturnsKeeping.
Variable cs : current_state.

Lemma rk_ret {A : Type} (a : A) : returns_keeping cs (ret a).
Proof. intros m H. exists a, m. auto. Qed.

Lemma rk_modify f :
  (forall m, OCED__current_state (f m) = OCED__current_state m) ->
  returns_keeping cs (modify f).
Proof. intros Hf m H. exists tt, (f m). split; [reflexivity | rewrite Hf; exact H]. Qed.

Lemma rk_gets {A : Type} (f : OCED -> A) : returns_keeping cs (gets f).
Proof. intros m H. exists (f m), m. auto. Qed.

Lemma rk_bind {A B : Type} (c : M OCED A) (k : A -> M OCED B) :
  returns_keeping cs c -> (forall a, returns_keeping cs (k a)) ->
  returns_keeping cs (bind c k).
Proof.
  intros Hc Hk m H. destruct (Hc m H) as (a & m1 & E1 & H1).
  destruct (Hk a m1 H1) as (b & m2 & E2 & H2).
  exists b, m2. split; [|exact H2]. rewrite (bind_Done _ _ _ _ _ E1). exact E2.
Qed.

Lemma rk_getitem_bind {V B : Type} (d : OCED -> gmap string V) (dcs : current_state -> gmap string V)
    (k : V -> M OCED B) i v :
  (forall m, d m = dcs (OCED__current_state m)) ->
  dcs cs !! i = Some v -> returns_keeping cs (k v) ->
  returns_keeping cs (bind (getitem d i) k).
Proof.
  intros Hd Hi Hk m H. destruct (Hk m H) as (b & m2 & E2 & H2).
  exists b, m2. split; [|exact H2].
  unfold bind, getitem. rewrite Hd, H, Hi. exact E2.
Qed.

Lemma rk_for_each {A : Type} (l : list A) body :
  Forall (fun x => returns_keeping cs (body x)) l -> returns_keeping cs (for_each l body).
Proof.
  induction 1 as [|x l Hx Hl IH]; simpl; [apply rk_ret|].
  apply rk_bind; [exact Hx | intros _; exact IH].
Qed.

Lemma rk_junction upd t qt i :
  (forall f m, OCED__current_state (upd f m) = OCED__current_state m) ->
  returns_keeping cs (junction upd t qt i).
Proof.
  intros Hu. unfold junction. apply rk_bind; [apply rk_gets | intros c].
  apply rk_modify. intros m. apply Hu.
Qed.

Lemma rk_concat_if_new upd table v :
  (forall f m, OCED__current_state (upd f m) = OCED__current_state m) ->
  returns_keeping cs (concat_if_new upd table v).
Proof.
  intros Hu. unfold concat_if_new. apply rk_bind; [apply rk_gets | intros values].
  destruct (bool_decide _); [apply rk_ret | apply rk_modify; intros m; apply Hu].
Qed.

Lemma rk_concat_relation_row i ty b :
  is_Some (cs_object_relation cs !! i) -> returns_keeping cs (concat_relation_row i ty b).
Proof.
  intros [r Hr]. unfold concat_relation_row.
  eapply (rk_getitem_bind _ cs_object_relation); [reflexivity | exact Hr |].
  apply rk_modify. reflexivity.
Qed.

Lemma rk_concat_attribute_value_row i v b :
  is_Some (cs_object_attribute_value cs !! i) ->
  returns_keeping cs (concat_attribute_value_row i v b).
Proof.
  intros [a Ha]. unfold concat_attribute_value_row.
  eapply (rk_getitem_bind _ cs_object_attribute_value); [reflexivity | exact Ha |].
  apply rk_modify. reflexivity.
Qed.

Ltac rk :=
  repeat first
    [ apply rk_junction; reflexivity
    | apply rk_concat_if_new; reflexivity
    | apply rk_concat_relation_row; assumption
    | apply rk_concat_attribute_value_row; assumption
    | apply rk_modify; reflexivity
    | apply rk_ret
    | apply rk_bind; [| intros ?] ].

Lemma tables_ready_returns q k : tables_ready q cs -> returns_keeping cs (update_tables q k).
Proof.
  destruct q; simpl; intros Hready;
    unfold create_object__update_tables, create_object_relation__update_tables,
      create_object_attribute_value__update_tables,
      delete_object_relation__update_tables,
      delete_object_attribute_value__update_tables, modify_object__update_tables,
      modify_object_relation__update_tables,
      modify_object_attribute_value__update_tables, involve_object__update_tables,
      involve_object_relation__update_tables,
      involve_object_attribute_value__update_tables;
    try solve [rk].
  destruct Hready as (o & Ho & Hrels & Hoavs). unfold delete_object__update_tables.
  apply rk_bind; [| intros _; apply rk_bind; [| intros _; apply rk_bind; [| intros _]]].
  - eapply (rk_getitem_bind _ cs_object); [reflexivity | exact Ho | rk].
  - rk.
  - eapply (rk_getitem_bind _ cs_object); [reflexivity | exact Ho |].
    apply rk_for_each. eapply Forall_impl; [exact Hrels|]. intros r [rec Hr].
    unfold cascade_relation_rows.
    eapply (rk_getitem_bind _ cs_object_relation); [reflexivity | exact Hr |].
    assert (is_Some (cs_object_relation cs !! r)) by eauto.
    destruct (negb _); rk.
  - eapply (rk_getitem_bind _ cs_object); [reflexivity | exact Ho |].
    apply rk_for_each. eapply Forall_impl; [exact Hoavs|]. intros v [rec Hv].
    unfold cascade_attribute_value_rows.
    eapply (rk_getitem_bind _ cs_object_attribute_value); [reflexivity | exact Hv |].
    assert (is_Some (cs_object_attribute_value cs !! v)) by eauto.
    destruct (negb _); rk.
Qed.
End ReturnsKeeping.

Lemma execute_qualifiers_after_validation qs : forall k m inv s',
  for_enumerate k qs (fun qualifier_index qualifier =>
    update_current_state qualifier qualifier_index) (OCED__current_state m, inv)
  = (Done tt, s') ->
  exists m',
    for_enumerate k qs (fun qualifier_index qualifier =>
      on_model (update_tables qualifier qualifier_index) >>>
      on_current_state (update_current_state qualifier qualifier_index)) (m, inv)
    = (Done tt, (m', snd s')) /\
    OCED__current_state m' = fst s'.
Proof.
  induction qs as [|q qs IH]; intros k m inv s' H; simpl in *.
  - injection H as <-. exists m. auto.
  - apply bind_Done_inv in H. destruct H as ([] & [cs1 inv1] & Hq & H).
    pose proof (validated_tables_ready _ _ _ _ _ Hq) as Hready.
    destruct (tables_ready_returns _ q k Hready m eq_refl) as ([] & m1 & Ht & Hcs1).
    set (m2 := upd_OCED__current_state (fun _ => cs1) m1).
    destruct (IH (S k) m2 inv1 s' H) as (m' & Hloop & Hm').
    exists m'. split; [|exact Hm'].
    erewrite bind_Done; [exact Hloop|].
    erewrite bind_Done; [| unfold on_model; simpl; rewrite Ht; reflexivity].
    unfold on_current_state. simpl. rewrite Hcs1, Hq. reflexivity.
Qed.

Lemma Event__execute_tables_returns e cs : returns_keeping cs (Event__execute_tables e).
Proof.
  unfold Event__execute_tables.
  repeat first [ apply rk_concat_if_new; reflexivity | apply rk_modify; reflexivity
               | apply rk_gets | apply rk_bind; [| intros ?] ].
Qed.

Lemma Event__execute_after_validation e m :
  fst (validate_qualifiers e m) = Done tt ->
  exists m', Event__execute e m = (Done tt, m') /\
    OCED__current_state m' = fst (snd (validate_qualifiers e m)).
Proof.
  unfold validate_qualifiers, deepcopy. intros Hv.
  destruct (for_enumerate 0 (Event__qualifiers e) _ _) as [r s'] eqn:Hloop.
  simpl in Hv. subst r.
  destruct (Event__execute_tables_returns e _ m eq_refl) as ([] & m0 & Hm0 & Hcs0).
  rewrite <- Hcs0 in Hloop.
  destruct (execute_qualifiers_after_validation _ _ _ _ _ Hloop) as (m' & Hm' & Hcs').
  exists m'. split; [|exact Hcs'].
  unfold Event__execute. rewrite (bind_Done _ _ _ _ _ Hm0).
  unfold execute_qualifiers. rewrite Hm'. reflexivity.
Qed.

(** [insert_event] either raises out of the validation, with the model as
    it was, or returns after commit, log and increment. *)
Lemma insert_event_cases e m :
  (exists x, fst (Event__precondition e m) = Raise x /\ insert_event e m = (Raise x, m)) \/
  (fst (Event__precondition e m) = Done tt /\
   exists m1, Event__execute e m = (Done tt, m1) /\
     OCED__current_state m1 = fst (snd (validate_qualifiers e m)) /\
     insert_event e m
     = (Done tt,
        upd_OCED__event_counter (fun event_counter => event_counter + 1)
          (upd_OCED__log
             (insert (OCED__event_counter m1) (map qualifier__log (Event__qualifiers e)))
             m1))).
Proof.
  pose proof (Event__precondition_reads_only e m) as Hm.
  destruct (Event__precondition e m) as [[[]|x] m0] eqn:Hpre; simpl in Hm; subst m0.
  - right. split; [reflexivity|].
    assert (Hv : fst (validate_qualifiers e m) = Done tt).
    { revert Hpre. unfold Event__precondition, bind, gets, raise.
      destruct (column_max (OCED__event_time m)) as [max_time|].
      - destruct (String.leb _ _); [discriminate | intros [= ->]; reflexivity].
      - intros [= ->]. reflexivity. }
    destruct (Event__execute_after_validation e m Hv) as (m1 & Hexec & Hcs).
    exists m1. repeat split; [exact Hexec | exact Hcs |].
    unfold insert_event. rewrite (bind_Done _ _ _ _ _ Hpre), (bind_Done _ _ _ _ _ Hexec).
    reflexivity.
  - left. exists x. split; [reflexivity|].
    unfold insert_event. rewrite (bind_Raise _ _ _ _ _ Hpre). reflexivity.
Qed.

Lemma insert_event_Raise_unchanged e m :
  is_Raise (fst (insert_event e m)) = true -> snd (insert_event e m) = m.
Proof.
  destruct (insert_event_cases e m) as [(x & _ & ->) | (_ & m1 & _ & _ & ->)];
    [reflexivity | discriminate].
Qed.

(** C1. Atomicity: when the validation of an event fails, on the timestamp
    or on any qualifier, [insert_event] raises and the model (current state,
    every table, the log and the event counter) is what it was. *)
Theorem insert_event_atomic (e : Event) (m : OCED) (x : exn) :
  fst (Event__precondition e m) = Raise x ->
  insert_event e m = (Raise x, m).
Proof.
  intros Hpre. destruct (insert_event_cases e m) as [(y & Hy & ->) | (Hd & _)].
  - congruence.
  - rewrite Hd in Hpre. discriminate.
Qed.

Lemma insert_event_atomic_witness :
  fst (Event__precondition (ev t1 [create_object "o1" "Person"; delete_object "o2"])
         OCED__init__) = Raise AttributeError /\
  insert_event (ev t1 [create_object "o1" "Person"; delete_object "o2"]) OCED__init__
  = (Raise AttributeError, OCED__init__).
Proof.
  split; [reflexivity|].
  apply (insert_event_atomic (ev t1 [create_object "o1" "Person"; delete_object "o2"])
           OCED__init__ AttributeError).
  reflexivity.
Defined.

(** C2. When the validation pass over the copy of the current state
    succeeds, the commit pass over the real current state returns, and the
    current state it leaves is the one the validation computed. *)
Theorem commit_follows_validation (e : Event) (m : OCED) :
  fst (validate_qualifiers e m) = Done tt ->
  exists m', Event__execute e m = (Done tt, m') /\
    OCED__current_state m' = fst (snd (validate_qualifiers e m)).
Proof. apply Event__execute_after_validation. Qed.

Lemma commit_follows_validation_witness :
  fst (validate_qualifiers (ev t4 [delete_object "o1"; create_object "o3" "Person"])
         (insert_events (firstn 3 scenario) OCED__init__)) = Done tt /\
  exists m', Event__execute (ev t4 [delete_object "o1"; create_object "o3" "Person"])
               (insert_events (firstn 3 scenario) OCED__init__) = (Done tt, m') /\
    OCED__current_state m'
    = fst (snd (validate_qualifiers (ev t4 [delete_object "o1"; create_object "o3" "Person"])
                  (insert_events (firstn 3 scenario) OCED__init__))).
Proof.
  split; [vm_compute; reflexivity|].
  apply (commit_follows_validation (ev t4 [delete_object "o1"; create_object "o3" "Person"])
           (insert_events (firstn 3 scenario) OCED__init__)).
  vm_compute. reflexivity.
Defined.

(** ** The errors [insert_event] surfaces *)

Section NeverRaises.
Context {St : Type}.
Variable x : exn.

Lemma nr_ret {A : Type} (a : A) : never_raises (St:=St) x (ret a).
Proof. intros s. discriminate. Qed.

Lemma nr_gets {A : Type} (f : St -> A) : never_raises x (gets f).
Proof. intros s. discriminate. Qed.

Lemma nr_modify (f : St -> St) : never_raises x (modify f).
Proof. intros s. discriminate. Qed.

Lemma nr_raise {A : Type} y : y <> x -> never_raises (St:=St) x (raise (A:=A) y).
Proof. intros Hy s. simpl. congruence. Qed.

Lemma nr_getitem {V : Type} (d : St -> gmap string V) i :
  KeyError <> x -> never_raises x (getitem d i).
Proof. intros Hx s. unfold getitem. destruct (d s !! i); simpl; congruence. Qed.

Lemma nr_bind {A B : Type} (c : M St A) (k : A -> M St B) :
  never_raises x c -> (forall a, never_raises x (k a)) -> never_raises x (bind c k).
Proof.
  intros Hc Hk s. unfold bind. specialize (Hc s).
  destruct (c s) as [[a|y] s1]; simpl in *; [apply Hk | congruence].
Qed.

Lemma nr_for_each {A : Type} (l : list A) (body : A -> M St unit) :
  (forall a, never_raises x (body a)) -> never_raises x (for_each l body).
Proof.
  intros Hb. induction l as [|a l IH]; simpl; [apply nr_ret|].
  apply nr_bind; [apply Hb | intros _; exact IH].
Qed.
End NeverRaises.

(** The precondition errors of the qualifiers are not [ValueError]s: their
    message fails first. *)
Lemma qualifier_never_raises_ValueError q k :
  never_raises ValueError (update_current_state q k).
Proof.
  destruct q; simpl;
    unfold create_object__update_current_state,
      create_object_relation__update_current_state,
      create_object_attribute_value__update_current_state,
      delete_object__update_current_state, cascade_relation, cascade_attribute_value,
      delete_object_relation__update_current_state,
      delete_object_attribute_value__update_current_state,
      modify_object__update_current_state, modify_object_relation__update_current_state,
      modify_object_attribute_value__update_current_state,
      involve_object__update_current_state, involve_object_relation__update_current_state,
      involve_object_attribute_value__update_current_state, self___name__, raise_with;
    repeat first
      [ apply nr_ret | apply nr_gets | apply nr_modify
      | apply nr_raise; discriminate | apply nr_getitem; discriminate
      | apply nr_bind; [| intros ?] | apply nr_for_each; intros ?
      | match goal with |- never_raises _ (if ?b then _ else _) => destruct b end ].
Qed.

(** C3, on the code.  A qualifier whose precondition fails makes
    [insert_event] raise [AttributeError] (a known id created again, a
    missing object deleted), and an attribute value created for an unknown
    owner makes it raise [KeyError]: neither is the [ValueError] of the
    docstrings. *)
Theorem insert_event_surfaces_other_errors :
  fst (insert_event (ev t2 [create_object "o1" "Person"])
         (insert_events [ev t1 [create_object "o1" "Person"]] OCED__init__))
    = Raise AttributeError /\
  fst (insert_event (ev t1 [delete_object "o1"]) OCED__init__) = Raise AttributeError /\
  fst (insert_event (ev t1 [create_object_attribute_value "v1" "o1" "colour" "red"])
         OCED__init__) = Raise KeyError.
Proof. repeat split; vm_compute; reflexivity. Qed.

(** C4, on the code.  After creating an object, deleting it, and creating
    an attribute value for it, all three events being accepted, the
    attribute value is live and its owner is not. *)
Theorem attribute_value_outlives_owner :
  let es := [ ev t1 [create_object "o1" "Person"];
              ev t2 [delete_object "o1"];
              ev t3 [create_object_attribute_value "v1" "o1" "colour" "red"] ] in
  count_inserted es OCED__init__ = 3 /\
  (oav_existency <$> model_attribute_values (insert_events es OCED__init__) !! "v1")
    = Some true /\
  (obj_existency <$> model_objects (insert_events es OCED__init__) !! "o1") = Some false /\
  ~ ownership_existency (OCED__current_state (insert_events es OCED__init__)).
Proof.
  cbv zeta. split; [vm_compute; reflexivity|].
  split; [vm_compute; reflexivity|]. split; [vm_compute; reflexivity|].
  intros [Hoav _].
  destruct (Hoav "v1" (mk_object_attribute_value_rec "colour" "red" true "o1"))
    as (o & Ho & Hlive); [vm_compute; reflexivity | reflexivity |].
  vm_compute in Ho. injection Ho as <-. discriminate.
Qed.

(** ** [create_object_attribute_value] *)

Lemma alter_as_insert {V : Type} (f : V -> V) (d : gmap string V) i v :
  d !! i = Some v -> alter f i d = <[i := f v]> d.
Proof.
  intros Hi. apply map_eq. intros j. rewrite lookup_alter, lookup_insert.
  case_decide; [subst; rewrite Hi|]; reflexivity.
Qed.

(** C5, as the claim has it, fails: in the empty store the id is unused and
    the qualifier still raises, the owner being unknown. *)
Lemma create_attribute_value_unknown_owner :
  ~ fails_exactly_when_known empty_current_state no_involved_ids "v1" "o1" "colour" "red" 0.
Proof. unfold fails_exactly_when_known. vm_compute. discriminate. Qed.

(** With a known owner, live or not, the qualifier fails exactly when its
    id is known. *)
Lemma create_attribute_value_on_known_owner cs inv i o n v k owner :
  cs_object cs !! o = Some owner ->
  fails_exactly_when_known cs inv i o n v k /\
  (known (cs_object_attribute_value cs) i = false ->
   create_object_attribute_value__update_current_state i o n v k (cs, inv)
   = (Done tt,
      (mk_current_state
         (<[o := obj_append_attribute_value_id i owner]> (cs_object cs))
         (cs_object_relation cs)
         (<[i := mk_object_attribute_value_rec n v true o]> (cs_object_attribute_value cs)),
       mk_involved_ids (inv_object inv) (inv_object_relation inv)
         ({[i]} ∪ inv_object_attribute_value inv)))).
Proof.
  intros Ho. destruct cs as [objs rels oavs]. simpl in *.
  unfold fails_exactly_when_known, create_object_attribute_value__update_current_state,
    bind, gets, modify, getitem. ucs_simpl.
  destruct (known oavs i) eqn:Hk; simpl.
  - split; [reflexivity | discriminate].
  - rewrite Ho. simpl. split; [reflexivity|]. intros _.
    rewrite (alter_as_insert _ _ _ _ Ho). reflexivity.
Qed.

(** C5, amended.  When the owner is a live object,
    [create_object_attribute_value] fails exactly when its id is already
    known, live or deleted; for an unused id it returns, having inserted a
    live attribute value, appended the id to the owner's list of attribute
    values and added it to the involved ids. *)
Theorem create_attribute_value_live_owner (cs : current_state) (inv : involved_ids)
    (i o n v : string) (k : nat) (owner : object_rec) :
  cs_object cs !! o = Some owner -> obj_existency owner = true ->
  (is_Raise (fst (create_object_attribute_value__update_current_state i o n v k (cs, inv)))
   = true <-> is_Some (cs_object_attribute_value cs !! i)) /\
  (cs_object_attribute_value cs !! i = None ->
   create_object_attribute_value__update_current_state i o n v k (cs, inv)
   = (Done tt,
      (mk_current_state
         (<[o := mk_object_rec (obj_type owner) true (object_relation_ids owner)
                   (object_attribute_value_ids owner ++ [i])]> (cs_object cs))
         (cs_object_relation cs)
         (<[i := mk_object_attribute_value_rec n v true o]> (cs_object_attribute_value cs)),
       mk_involved_ids (inv_object inv) (inv_object_relation inv)
         ({[i]} ∪ inv_object_attribute_value inv)))).
Proof.
  intros Ho Hlive.
  destruct (create_attribute_value_on_known_owner cs inv i o n v k owner Ho) as [Hfail Hok].
  unfold fails_exactly_when_known, known in Hfail, Hok. split.
  - rewrite Hfail. destruct (cs_object_attribute_value cs !! i) as [a|].
    + split; eauto.
    + split; [discriminate | intros [a Ha]; discriminate].
  - intros Hnew. rewrite Hnew in Hok. rewrite (Hok eq_refl).
    unfold obj_append_attribute_value_id. rewrite Hlive. reflexivity.
Qed.

Lemma create_attribute_value_live_owner_witness :
  let cs := OCED__current_state (insert_events (firstn 2 scenario) OCED__init__) in
  cs_object cs !! "o1" = Some (mk_object_rec "Person" true [] []) /\
  cs_object_attribute_value cs !! "v1" = None /\
  create_object_attribute_value__update_current_state "v1" "o1" "colour" "red" 0
    (cs, no_involved_ids)
  = (Done tt,
     (mk_current_state
        (<["o1" := mk_object_rec "Person" true [] ["v1"]]> (cs_object cs))
        (cs_object_relation cs)
        (<["v1" := mk_object_attribute_value_rec "colour" "red" true "o1"]>
           (cs_object_attribute_value cs)),
      mk_involved_ids ∅ ∅ ({["v1"]} ∪ ∅))).
Proof.
  cbv zeta. split; [vm_compute; reflexivity|]. split; [vm_compute; reflexivity|].
  apply (create_attribute_value_live_owner
           (OCED__current_state (insert_events (firstn 2 scenario) OCED__init__))
           no_involved_ids "v1" "o1" "colour" "red" 0 (mk_object_rec "Person" true [] [])).
  - vm_compute. reflexivity.
  - reflexivity.
  - vm_compute. reflexivity.
Defined.

(** ** Involved ids *)

Section IgnoresInvolvedIds.

Lemma ign_ret {A : Type} (a : A) : ignores_involved_ids (ret a).
Proof. intros cs inv inv'. auto. Qed.

Lemma ign_raise {A : Type} x : ignores_involved_ids (raise (A:=A) x).
Proof. intros cs inv inv'. auto. Qed.

Lemma ign_raise_with {A : Type} x msg : ignores_involved_ids (raise_with (A:=A) x msg).
Proof. destruct msg; apply ign_raise. Qed.

Lemma ign_gets {A : Type} (f : ucs -> A) :
  (forall cs inv inv', f (cs, inv) = f (cs, inv')) -> ignores_involved_ids (gets f).
Proof. intros Hf cs inv inv'. simpl. rewrite (Hf cs inv inv'). auto. Qed.

Lemma ign_getitem {V : Type} (d : ucs -> gmap string V) i :
  (forall cs inv inv', d (cs, inv) = d (cs, inv')) -> ignores_involved_ids (getitem d i).
Proof.
  intros Hd cs inv inv'. unfold getitem. rewrite (Hd cs inv inv').
  destruct (d (cs, inv') !! i); auto.
Qed.

Lemma ign_modify (f : ucs -> ucs) :
  (forall cs inv inv', fst (f (cs, inv)) = fst (f (cs, inv'))) ->
  ignores_involved_ids (modify f).
Proof. intros Hf cs inv inv'. simpl. auto. Qed.

Lemma ign_bind {A B : Type} (c : M ucs A) (k : A -> M ucs B) :
  ignores_involved_ids c -> (forall a, ignores_involved_ids (k a)) ->
  ignores_involved_ids (bind c k).
Proof.
  intros Hc Hk cs inv inv'. unfold bind. destruct (Hc cs inv inv') as [Hr Hs].
  destruct (c (cs, inv)) as [r [cs1 inv1]], (c (cs, inv')) as [r' [cs1' inv1']].
  simpl in *. subst r' cs1'. destruct r as [a|x]; [apply Hk | auto].
Qed.

Lemma ign_for_each {A : Type} (l : list A) (body : A -> M ucs unit) :
  (forall a, ignores_involved_ids (body a)) -> ignores_involved_ids (for_each l body).
Proof.
  intros Hb. induction l as [|a l IH]; simpl; [apply ign_ret|].
  apply ign_bind; [apply Hb | intros _; exact IH].
Qed.

Lemma ign_update_current_state q k :
  is_involve q = false -> ignores_involved_ids (update_current_state q k).
Proof.
  destruct q; simpl; try discriminate; intros _;
    unfold create_object__update_current_state,
      create_object_relation__update_current_state,
      create_object_attribute_value__update_current_state,
      delete_object__update_current_state, cascade_relation, cascade_attribute_value,
      delete_object_relation__update_current_state,
      delete_object_attribute_value__update_current_state,
      modify_object__update_current_state, modify_object_relation__update_current_state,
      modify_object_attribute_value__update_current_state;
    repeat first
      [ apply ign_ret | apply ign_raise_with
      | apply ign_gets; reflexivity | apply ign_getitem; reflexivity
      | apply ign_modify; reflexivity
      | apply ign_bind; [| intros ?] | apply ign_for_each; intros ?
      | match goal with |- ignores_involved_ids (if ?b then _ else _) => destruct b end ].
Qed.
End IgnoresInvolvedIds.

Lemma involve_fails_exactly q k cs inv :
  is_involve q = true ->
  is_Raise (fst (update_current_state q k (cs, inv)))
  = target_missing_or_dead q cs || target_involved q inv.
Proof.
  destruct q; simpl; try discriminate; intros _;
    unfold involve_object__update_current_state,
      involve_object_relation__update_current_state,
      involve_object_attribute_value__update_current_state, bind, gets; ucs_simpl;
    destruct (missing_or_dead _ _ _); simpl; try reflexivity;
    destruct (bool_decide _); reflexivity.
Qed.

Lemma cascade_keeps_object_involved i o :
  preserves (object_involved i)
    ((do o <- getitem the_objects o; for_each (object_relation_ids o) cascade_relation) >>>
     (do o <- getitem the_objects o;
      for_each (object_attribute_value_ids o) cascade_attribute_value)).
Proof.
  unfold cascade_relation, cascade_attribute_value.
  preserve_with ltac:(apply preserves_modify; intros [? ?] ?; exact H).
Qed.

Lemma qualifier_involves_target q k cs inv s' :
  update_current_state q k (cs, inv) = (Done tt, s') -> target_involved q (snd s') = true.
Proof.
  destruct q; simpl;
    unfold create_object__update_current_state,
      create_object_relation__update_current_state,
      create_object_attribute_value__update_current_state,
      delete_object_relation__update_current_state,
      delete_object_attribute_value__update_current_state,
      modify_object__update_current_state, modify_object_relation__update_current_state,
      modify_object_attribute_value__update_current_state,
      involve_object__update_current_state, involve_object_relation__update_current_state,
      involve_object_attribute_value__update_current_state.
  4: {
    unfold delete_object__update_current_state. unfold bind at 1. unfold gets at 1.
    destruct (missing_or_dead _ _ _); [discriminate|].
    unfold bind at 1. unfold modify at 1. unfold bind at 1. unfold modify at 1.
    intros H. apply bool_decide_eq_true_2.
    match type of H with ?c ?s = _ =>
      pose proof (cascade_keeps_object_involved object_id object_id s) as HP end.
    rewrite H in HP. apply HP. unfold object_involved. ucs_simpl. set_solver. }
  all: unfold bind, gets, modify, getitem; ucs_simpl;
    repeat match goal with
    | |- context [if ?b then _ else _] => destruct b; try discriminate
    | |- context [match ?o with Some _ => _ | None => _ end] => destruct o; try discriminate
    end;
    intros [= <-]; simpl; apply bool_decide_eq_true_2; set_solver.
Qed.

(** C9. An [involve_*] qualifier fails exactly when its target is missing
    or dead, or its id is already in the event's set of involved ids; every
    qualifier that succeeds, the [create_*], [delete_*] and [modify_*] ones
    too, leaves its target id in that set; and what a [create_*],
    [delete_*] or [modify_*] qualifier does (its outcome and the current
    state it leaves) does not depend on the set. *)
Theorem involvement_asymmetry (q : Qualifier) (k : nat) (cs : current_state)
    (inv inv' : involved_ids) :
  (if is_involve q
   then is_Raise (fst (update_current_state q k (cs, inv)))
        = target_missing_or_dead q cs || target_involved q inv
   else fst (update_current_state q k (cs, inv)) = fst (update_current_state q k (cs, inv'))
        /\ fst (snd (update_current_state q k (cs, inv)))
           = fst (snd (update_current_state q k (cs, inv')))) /\
  (if is_Raise (fst (update_current_state q k (cs, inv))) then True
   else target_involved q (snd (snd (update_current_state q k (cs, inv)))) = true).
Proof.
  split.
  - destruct (is_involve q) eqn:Hq.
    + apply involve_fails_exactly, Hq.
    + apply ign_update_current_state, Hq.
  - destruct (update_current_state q k (cs, inv)) as [[[]|x] s'] eqn:H; simpl; [|exact I].
    eapply qualifier_involves_target, H.
Qed.

Example modify_then_involve_rejected :
  fst (insert_event (ev t4 [modify_object "o2" "Invoice"; involve_object "o2"])
         (insert_events (firstn 3 scenario) OCED__init__)) = Raise AttributeError.
Proof. vm_compute. reflexivity. Qed.

Example involve_then_modify_accepted :
  fst (insert_event (ev t4 [involve_object "o2"; modify_object "o2" "Invoice"])
         (insert_events (firstn 3 scenario) OCED__init__)) = Done tt.
Proof. vm_compute. reflexivity. Qed.

(** ** The cascade of [delete_object] *)

(** C7. Cascade completeness.  In a store whose back-reference lists name
    known entities, [delete_object] on a live object returns; it clears the
    existency of that object and of the relations and attribute values in
    its back-reference lists that are live; every other object, the dead
    relations and attribute values, and those not in the lists are as they
    were. *)
Theorem delete_object_cascade (cs : current_state) (inv : involved_ids) (i : string)
    (k : nat) (o : object_rec) :
  backrefs_known cs ->
  cs_object cs !! i = Some o -> obj_existency o = true ->
  exists cs' inv',
    delete_object__update_current_state i k (cs, inv) = (Done tt, (cs', inv')) /\
    cs_object cs' !! i = Some (obj_set_existency false o) /\
    (forall j, j <> i -> cs_object cs' !! j = cs_object cs !! j) /\
    (forall j, cs_object_relation cs' !! j =
       (fun r => if bool_decide (j ∈ object_relation_ids o) && rel_existency r
                 then rel_set_existency false r else r) <$> cs_object_relation cs !! j) /\
    (forall j, cs_object_attribute_value cs' !! j =
       (fun a => if bool_decide (j ∈ object_attribute_value_ids o) && oav_existency a
                 then oav_set_existency false a else a)
       <$> cs_object_attribute_value cs !! j).
Proof.
  intros Hknown Ho Hlive. destruct (Hknown i o Ho) as [Hrels Hoavs].
  destruct (delete_object_Done cs inv i k o Ho Hlive Hrels Hoavs) as [inv' H].
  eexists _, inv'. split; [exact H|]. simpl. repeat split.
  - rewrite lookup_alter_eq, Ho. reflexivity.
  - intros j Hj. apply lookup_alter_ne. congruence.
  - intros j. unfold clear_relations. rewrite lookup_clear by reflexivity.
    destruct (cs_object_relation cs !! j) as [r|]; simpl.
    + case_decide as Hin.
      * rewrite bool_decide_eq_true_2 by exact Hin. simpl.
        destruct (rel_existency r) eqn:He; [reflexivity|].
        rewrite rel_set_existency_dead by exact He. reflexivity.
      * rewrite bool_decide_eq_false_2 by exact Hin. reflexivity.
    + case_decide; reflexivity.
  - intros j. unfold clear_attribute_values. rewrite lookup_clear by reflexivity.
    destruct (cs_object_attribute_value cs !! j) as [a|]; simpl.
    + case_decide as Hin.
      * rewrite bool_decide_eq_true_2 by exact Hin. simpl.
        destruct (oav_existency a) eqn:He; [reflexivity|].
        rewrite oav_set_existency_dead by exact He. reflexivity.
      * rewrite bool_decide_eq_false_2 by exact Hin. reflexivity.
    + case_decide; reflexivity.
Qed.

(** *** The back-reference lists name known entities, in every reachable
    model *)

Lemma backrefs_known_step (cs cs' : current_state) :
  (forall i o', cs_object cs' !! i = Some o' ->
     (object_relation_ids o' = [] /\ object_attribute_value_ids o' = []) \/
     exists o, cs_object cs !! i = Some o /\
       object_relation_ids o' = object_relation_ids o /\
       object_attribute_value_ids o' = object_attribute_value_ids o) ->
  (forall r, is_Some (cs_object_relation cs !! r) -> is_Some (cs_object_relation cs' !! r)) ->
  (forall v, is_Some (cs_object_attribute_value cs !! v) ->
     is_Some (cs_object_attribute_value cs' !! v)) ->
  backrefs_known cs -> backrefs_known cs'.
Proof.
  intros Hobj Hrel Hoav Hcs i o' Ho'.
  destruct (Hobj i o' Ho') as [[-> ->] | (o & Ho & -> & ->)]; [split; constructor|].
  destruct (Hcs i o Ho) as [H1 H2].
  split; (eapply Forall_impl; [eassumption|]); auto.
Qed.

Lemma is_Some_alter {V : Type} (f : V -> V) (d : gmap string V) i j :
  is_Some (d !! j) -> is_Some (alter f i d !! j).
Proof.
  intros [v Hv]. rewrite lookup_alter. case_decide; [subst; rewrite Hv|rewrite Hv]; eauto.
Qed.

Lemma is_Some_insert {V : Type} (x : V) (d : gmap string V) i j :
  is_Some (d !! j) -> is_Some (<[i := x]> d !! j).
Proof.
  intros [v Hv]. rewrite lookup_insert. case_decide; [|rewrite Hv]; eauto.
Qed.

Lemma lookup_alter_Some_inv {V : Type} (f : V -> V) (d : gmap string V) i j v' :
  alter f i d !! j = Some v' ->
  exists v, d !! j = Some v /\ (v' = v \/ (i = j /\ v' = f v)).
Proof.
  rewrite lookup_alter. case_decide.
  - subst. destruct (d !! j) as [v|]; [|discriminate]. intros [= <-]. eauto.
  - intros H'. eauto.
Qed.

Section BackrefsKnown.
Lemma bk_alter_object (f : object_rec -> object_rec) i :
  (forall o, object_relation_ids (f o) = object_relation_ids o /\
             object_attribute_value_ids (f o) = object_attribute_value_ids o) ->
  preserves backrefs_known_in (modify (upd_objects (alter f i))).
Proof.
  intros Hf. apply preserves_modify. intros [cs inv]. unfold backrefs_known_in. ucs_simpl.
  apply backrefs_known_step; simpl; auto.
  intros j o' Ho'. right. apply lookup_alter_Some_inv in Ho'.
  destruct Ho' as (o & Ho & [-> | [_ ->]]); exists o; auto.
Qed.

Lemma bk_alter_relation f i : preserves backrefs_known_in (modify (upd_relations (alter f i))).
Proof.
  apply preserves_modify. intros [cs inv]. unfold backrefs_known_in. ucs_simpl.
  apply backrefs_known_step; simpl; eauto using is_Some_alter.
Qed.

Lemma bk_alter_attribute_value f i :
  preserves backrefs_known_in (modify (upd_attribute_values (alter f i))).
Proof.
  apply preserves_modify. intros [cs inv]. unfold backrefs_known_in. ucs_simpl.
  apply backrefs_known_step; simpl; eauto using is_Some_alter.
Qed.

Lemma bk_involve f :
  (forall s, fst (f s) = fst s) -> preserves backrefs_known_in (modify f).
Proof.
  intros Hf. apply preserves_modify. intros s. unfold backrefs_known_in. rewrite Hf. auto.
Qed.

Lemma bk_create_object i t k : preserves backrefs_known_in (create_object__update_current_state i t k).
Proof.
  unfold create_object__update_current_state.
  preserve_with ltac:(apply bk_involve; reflexivity).
  apply preserves_modify. intros [cs inv]. unfold backrefs_known_in. ucs_simpl.
  apply backrefs_known_step; simpl; auto.
  intros j o' Ho'. rewrite lookup_insert in Ho'. case_decide.
  - left. injection Ho' as <-. auto.
  - right. eauto.
Qed.

Lemma bk_create_object_relation i f t ty k :
  preserves backrefs_known_in (create_object_relation__update_current_state i f t ty k).
Proof.
  intros [cs inv] Hcs. unfold backrefs_known_in in *.
  unfold create_object_relation__update_current_state.
  unfold bind at 1. unfold gets at 1. unfold bind at 1. unfold gets at 1.
  repeat (match goal with |- context [if ?b then _ else _] => destruct b end;
          [exact Hcs|]).
  unfold bind at 1. unfold modify at 1.
  set (Q := fun s : ucs => backrefs_known (fst s) /\ is_Some (the_relations s !! i)).
  match goal with |- backrefs_known (fst (snd (?c ?s))) =>
    enough (HQ : preserves Q c) by (apply (HQ s); split;
      [ ucs_simpl; revert Hcs; apply backrefs_known_step; simpl; eauto using is_Some_insert
      | ucs_simpl; rewrite lookup_insert_eq; eauto ]) end.
  assert (Happend : forall o, preserves Q
            (modify (upd_objects (alter (obj_append_relation_id i) o)))).
  { intros o. apply preserves_modify. intros [cs1 inv1] [H1 H2]. ucs_simpl.
    split; [|exact H2]. intros j o' Ho'. apply lookup_alter_Some_inv in Ho'.
    destruct Ho' as (o0 & Ho0 & [-> | [_ ->]]); destruct (H1 j o0 Ho0) as [Hr Ha]; auto.
    simpl. split; [|exact Ha]. apply Forall_app. split; [exact Hr|]. constructor; auto. }
  preserve_with ltac:(first [apply Happend | apply preserves_modify; intros [? ?] ?; assumption]).
Qed.

Lemma bk_create_object_attribute_value i o n v k :
  preserves backrefs_known_in (create_object_attribute_value__update_current_state i o n v k).
Proof.
  intros [cs inv] Hcs. unfold backrefs_known_in in *.
  unfold create_object_attribute_value__update_current_state.
  unfold bind at 1. unfold gets at 1.
  match goal with |- context [if ?b then _ else _] => destruct b end; [exact Hcs|].
  unfold bind at 1. unfold modify at 1.
  set (Q := fun s : ucs => backrefs_known (fst s) /\ is_Some (the_attribute_values s !! i)).
  match goal with |- backrefs_known (fst (snd (?c ?s))) =>
    enough (HQ : preserves Q c) by (apply (HQ s); split;
      [ ucs_simpl; revert Hcs; apply backrefs_known_step; simpl; eauto using is_Some_insert
      | ucs_simpl; rewrite lookup_insert_eq; eauto ]) end.
  assert (Happend : preserves Q
            (modify (upd_objects (alter (obj_append_attribute_value_id i) o)))).
  { apply preserves_modify. intros [cs1 inv1] [H1 H2]. ucs_simpl.
    split; [|exact H2]. intros j o' Ho'. apply lookup_alter_Some_inv in Ho'.
    destruct Ho' as (o0 & Ho0 & [-> | [_ ->]]); destruct (H1 j o0 Ho0) as [Hr Ha]; auto.
    simpl. split; [exact Hr|]. apply Forall_app. split; [exact Ha|]. constructor; auto. }
  preserve_with ltac:(first [apply Happend | apply preserves_modify; intros [? ?] ?; assumption]).
Qed.

Lemma bk_update_current_state q k : preserves backrefs_known_in (update_current_state q k).
Proof.
  destruct q; simpl;
    [ apply bk_create_object | apply bk_create_object_relation
    | apply bk_create_object_attribute_value | .. ];
    unfold delete_object__update_current_state, cascade_relation, cascade_attribute_value,
      delete_object_relation__update_current_state,
      delete_object_attribute_value__update_current_state,
      modify_object__update_current_state, modify_object_relation__update_current_state,
      modify_object_attribute_value__update_current_state,
      involve_object__update_current_state, involve_object_relation__update_current_state,
      involve_object_attribute_value__update_current_state;
    preserve_with ltac:(first
      [ apply bk_alter_object; intros []; split; reflexivity
      | apply bk_alter_relation | apply bk_alter_attribute_value
      | apply bk_involve; reflexivity ]).
Qed.
End BackrefsKnown.

Lemma backrefs_known_insert_event e m :
  backrefs_known (OCED__current_state m) ->
  backrefs_known (OCED__current_state (snd (insert_event e m))).
Proof.
  intros H. destruct (insert_event_cases e m) as [(x & _ & ->) | (_ & m1 & _ & Hcs & ->)];
    [exact H|].
  simpl. rewrite Hcs. unfold validate_qualifiers, deepcopy.
  apply (preserves_for_enumerate backrefs_known_in); [|exact H].
  intros i q. apply bk_update_current_state.
Qed.

Lemma backrefs_known_reachable es :
  backrefs_known (OCED__current_state (insert_events es OCED__init__)).
Proof.
  unfold insert_events.
  assert (H : backrefs_known (OCED__current_state OCED__init__)).
  { intros i o Ho. simpl in Ho. rewrite lookup_empty in Ho. discriminate. }
  revert H. generalize OCED__init__.
  induction es as [|e es IH]; intros m H; simpl; [exact H|].
  apply IH, backrefs_known_insert_event, H.
Qed.

Lemma delete_object_cascade_witness :
  let cs := OCED__current_state (insert_events (firstn 3 scenario) OCED__init__) in
  exists cs' inv',
    delete_object__update_current_state "o1" 0 (cs, no_involved_ids)
      = (Done tt, (cs', inv')) /\
    cs_object cs' !! "o1" = Some (mk_object_rec "Person" false ["r1"] []) /\
    cs_object_relation cs' !! "r1"
      = Some (mk_object_relation_rec "placed" false "o1" "o2").
Proof.
  cbv zeta.
  destruct (delete_object_cascade
              (OCED__current_state (insert_events (firstn 3 scenario) OCED__init__))
              no_involved_ids "o1" 0 (mk_object_rec "Person" true ["r1"] []))
    as (cs' & inv' & H & Ho & _ & Hr & _).
  - apply backrefs_known_reachable.
  - vm_compute. reflexivity.
  - reflexivity.
  - exists cs', inv'. split; [exact H|]. split; [exact Ho|].
    rewrite Hr. vm_compute. reflexivity.
Defined.

(** ** The order on time strings *)

Lemma str_lt_iff a b : str_lt a b <-> String_as_OT.lt a b.
Proof.
  unfold str_lt, String.ltb. rewrite <- String_as_OT.cmp_lt. unfold String_as_OT.cmp.
  destruct (String.compare a b); split; congruence.
Qed.

Lemma str_lt_trans a b c : str_lt a b -> str_lt b c -> str_lt a c.
Proof. rewrite !str_lt_iff. apply String_as_OT.lt_trans. Qed.

Lemma str_le_iff a b : str_le a b <-> str_lt a b \/ a = b.
Proof.
  unfold str_le, str_lt, String.leb, String.ltb.
  destruct (String.compare a b) eqn:Hc; split; auto; try discriminate.
  - intros _. right. apply String.compare_eq_iff, Hc.
  - intros [H | ->]; [discriminate|].
    assert (String_as_OT.cmp b b = Eq) as Hb by (apply String_as_OT.cmp_eq; reflexivity).
    unfold String_as_OT.cmp in Hb. congruence.
Qed.

Lemma str_le_refl a : str_le a a.
Proof. apply str_le_iff. auto. Qed.

Lemma str_le_trans a b c : str_le a b -> str_le b c -> str_le a c.
Proof.
  rewrite !str_le_iff. intros [H1 | ->] [H2 | ->]; eauto using str_lt_trans.
Qed.

Lemma str_le_lt_trans a b c : str_le a b -> str_lt b c -> str_lt a c.
Proof. rewrite str_le_iff. intros [H1 | ->] H2; eauto using str_lt_trans. Qed.

Lemma not_str_le_lt a b : String.leb a b = false -> str_lt b a.
Proof.
  unfold str_lt, String.leb, String.ltb. rewrite (String.compare_antisym a b).
  destruct (String.compare b a); simpl; congruence.
Qed.

Lemma not_str_lt_le a b : String.ltb a b = false -> str_le b a.
Proof.
  unfold str_le, String.leb, String.ltb. rewrite (String.compare_antisym a b).
  destruct (String.compare b a); simpl; congruence.
Qed.

Lemma str_max_ge_l a b : str_le a (str_max a b).
Proof.
  unfold str_max. destruct (String.ltb a b) eqn:H; [|apply str_le_refl].
  apply str_le_iff. left. exact H.
Qed.

Lemma str_max_ge_r a b : str_le b (str_max a b).
Proof.
  unfold str_max. destruct (String.ltb a b) eqn:H; [apply str_le_refl|].
  apply not_str_lt_le, H.
Qed.

Lemma fold_str_max_ge column : forall t,
  str_le t (fold_left str_max column t) /\
  forall x, x ∈ column -> str_le x (fold_left str_max column t).
Proof.
  induction column as [|a column IH]; intros t; simpl.
  - split; [apply str_le_refl|]. intros x Hx. apply not_elem_of_nil in Hx. contradiction.
  - destruct (IH (str_max t a)) as [H1 H2]. split.
    + eapply str_le_trans; [apply str_max_ge_l | exact H1].
    + intros x Hx. apply elem_of_cons in Hx. destruct Hx as [-> | Hx]; [|auto].
      eapply str_le_trans; [apply str_max_ge_r | exact H1].
Qed.

(** The maximum of a column is above each of its values, and is [None]
    only for the empty column. *)
Lemma column_max_ge column x :
  x ∈ column -> exists max_time, column_max column = Some max_time /\ str_le x max_time.
Proof.
  destruct column as [|t column]; intros Hx; [apply not_elem_of_nil in Hx; contradiction|].
  simpl. eexists. split; [reflexivity|].
  destruct (fold_str_max_ge column t) as [H1 H2].
  apply elem_of_cons in Hx. destruct Hx as [-> | Hx]; auto.
Qed.

Lemma column_max_None column : column_max column = None -> column = [].
Proof. destruct column; [reflexivity | discriminate]. Qed.

Lemma StronglySorted_snoc {A : Type} (R : A -> A -> Prop) l t :
  StronglySorted R l -> Forall (fun x => R x t) l -> StronglySorted R (l ++ [t]).
Proof.
  induction 1 as [|a l Hl IH Ha]; intros Hall; simpl.
  - repeat constructor.
  - apply Forall_cons in Hall. destruct Hall as [Hat Hall]. constructor; [auto|].
    apply Forall_app. split; [exact Ha | repeat constructor; exact Hat].
Qed.

(** ** What a commit appends *)

Section Frame.
Variable m0 : OCED.

Lemma qf_refl : qualifiers_frame m0 m0.
Proof. repeat split; intros row H; left; exact H. Qed.

Lemma qf_keeps f m : keeps_frame f -> qualifiers_frame m0 m -> qualifiers_frame m0 (f m).
Proof.
  intros Hf (H1 & H2 & H3 & H4 & H5 & H6). destruct (Hf m) as (E1 & E2 & E3 & E4 & E5 & E6).
  unfold qualifiers_frame, junction_grows. rewrite E1, E2, E3, E4, E5, E6.
  repeat split; assumption.
Qed.

Lemma qf_modify f : keeps_frame f -> preserves (qualifiers_frame m0) (modify f).
Proof. intros Hf. apply preserves_modify. intros m. apply qf_keeps, Hf. Qed.

Lemma elem_of_concat_row {A : Type} (row x : A) table :
  x ∈ concat_row row table -> x ∈ table \/ x = row.
Proof.
  unfold concat_row. intros H. apply elem_of_app in H. destruct H as [H|H]; [auto|].
  apply list_elem_of_singleton in H. auto.
Qed.

Lemma qf_junction_object t qt i :
  preserves (qualifiers_frame m0) (junction upd_OCED__event_x_object t qt i).
Proof.
  apply preserves_gets_modify. intros m (H1 & H2 & H3 & H4 & H5 & H6).
  unfold qualifiers_frame, junction_grows. oced_simpl. repeat split; auto.
  intros row Hrow. apply elem_of_concat_row in Hrow. destruct Hrow as [Hrow | ->]; auto.
Qed.

Lemma qf_junction_relation t qt i :
  preserves (qualifiers_frame m0) (junction upd_OCED__event_x_object_relation t qt i).
Proof.
  apply preserves_gets_modify. intros m (H1 & H2 & H3 & H4 & H5 & H6).
  unfold qualifiers_frame, junction_grows. oced_simpl. repeat split; auto.
  intros row Hrow. apply elem_of_concat_row in Hrow. destruct Hrow as [Hrow | ->]; auto.
Qed.

Lemma qf_junction_attribute_value t qt i :
  preserves (qualifiers_frame m0) (junction upd_OCED__event_x_object_attribute_value t qt i).
Proof.
  apply preserves_gets_modify. intros m (H1 & H2 & H3 & H4 & H5 & H6).
  unfold qualifiers_frame, junction_grows. oced_simpl. repeat split; auto.
  intros row Hrow. apply elem_of_concat_row in Hrow. destruct Hrow as [Hrow | ->]; auto.
Qed.

Ltac keeps_frame := intros; intros ?; repeat split; reflexivity.

Ltac qf :=
  preserve_with
    ltac:(first [ apply qf_junction_object | apply qf_junction_relation
                | apply qf_junction_attribute_value
                | apply qf_modify; keeps_frame ]).

Lemma qf_update_tables q k : preserves (qualifiers_frame m0) (update_tables q k).
Proof.
  destruct q; simpl;
    unfold create_object__update_tables, create_object_relation__update_tables,
      create_object_attribute_value__update_tables, delete_object__update_tables,
      cascade_relation_rows, cascade_attribute_value_rows,
      delete_object_relation__update_tables,
      delete_object_attribute_value__update_tables, modify_object__update_tables,
      modify_object_relation__update_tables,
      modify_object_attribute_value__update_tables, involve_object__update_tables,
      involve_object_relation__update_tables,
      involve_object_attribute_value__update_tables,
      concat_if_new, concat_relation_row, concat_attribute_value_row;
    qf.
Qed.

Lemma qf_execute_qualifiers qs :
  preserves (fun s : OCED * involved_ids => qualifiers_frame m0 (fst s))
    (execute_qualifiers qs).
Proof.
  unfold execute_qualifiers. apply preserves_for_enumerate. intros i q.
  apply preserves_bind.
  - apply preserves_on_model, qf_update_tables.
  - intros _. apply preserves_on_current_state. intros m cs. apply qf_keeps. keeps_frame.
Qed.
End Frame.

(** The rows of the event itself. *)
Lemma Event__execute_tables_effect e m :
  exists m0, Event__execute_tables e m = (Done tt, m0) /\
    OCED__event m0
    = OCED__event m ++ [mk_event_row (OCED__event_counter m) (Event__event_type e)
                          (Event__event_time e)] /\
    OCED__event_time m0 = OCED__event_time m ++ [Event__event_time e] /\
    OCED__event_counter m0 = OCED__event_counter m /\
    OCED__event_x_object m0 = OCED__event_x_object m /\
    OCED__event_x_object_relation m0 = OCED__event_x_object_relation m /\
    OCED__event_x_object_attribute_value m0 = OCED__event_x_object_attribute_value m.
Proof.
  unfold Event__execute_tables, concat_if_new, bind, gets, modify. simpl.
  destruct (bool_decide _); simpl; eexists; (split; [reflexivity|]);
    oced_simpl; repeat split; reflexivity.
Qed.

(** A call of [insert_event] that returns has appended the event's row and
    time, incremented the counter, and added to the junction tables only
    rows with the event's id. *)
Lemma insert_event_Done_effect e m :
  fst (insert_event e m) = Done tt ->
  fst (Event__precondition e m) = Done tt /\
  OCED__event (snd (insert_event e m))
  = OCED__event m ++ [mk_event_row (OCED__event_counter m) (Event__event_type e)
                        (Event__event_time e)] /\
  OCED__event_time (snd (insert_event e m)) = OCED__event_time m ++ [Event__event_time e] /\
  OCED__event_counter (snd (insert_event e m)) = OCED__event_counter m + 1 /\
  junction_grows OCED__event_x_object m (snd (insert_event e m)) /\
  junction_grows OCED__event_x_object_relation m (snd (insert_event e m)) /\
  junction_grows OCED__event_x_object_attribute_value m (snd (insert_event e m)).
Proof.
  destruct (insert_event_cases e m) as [(x & _ & ->) | (Hpre & m1 & Hexec & _ & ->)];
    [discriminate | intros _].
  split; [exact Hpre|].
  destruct (Event__execute_tables_effect e m)
    as (m0 & Hm0 & E1 & E2 & E3 & E4 & E5 & E6).
  unfold Event__execute in Hexec. rewrite (bind_Done _ _ _ _ _ Hm0) in Hexec.
  pose proof (qf_execute_qualifiers m0 (Event__qualifiers e) (m0, no_involved_ids)
                (qf_refl m0)) as Hf.
  destruct (execute_qualifiers _ _) as [r [m1' inv']]. injection Hexec as -> ->.
  destruct Hf as (F1 & F2 & F3 & F4 & F5 & F6). simpl in *.
  unfold junction_grows in *. oced_simpl.
  rewrite F1, F2, F3, E1, E2, E3. repeat split; try reflexivity.
  - intros row Hrow. rewrite <- E4, <- E3. auto.
  - intros row Hrow. rewrite <- E5, <- E3. auto.
  - intros row Hrow. rewrite <- E6, <- E3. auto.
Qed.

(** ** Monotonic time *)

Lemma Event__precondition_Done_time e m max_time :
  fst (Event__precondition e m) = Done tt ->
  column_max (OCED__event_time m) = Some max_time ->
  str_lt max_time (Event__event_time e).
Proof.
  unfold Event__precondition, bind, gets, raise. intros H Hmax. rewrite Hmax in H.
  destruct (String.leb (Event__event_time e) max_time) eqn:Hle; [discriminate|].
  apply not_str_le_lt, Hle.
Qed.

Lemma Event__precondition_late e m max_time :
  column_max (OCED__event_time m) = Some max_time ->
  str_le (Event__event_time e) max_time ->
  fst (Event__precondition e m) = Raise ValueError.
Proof.
  unfold Event__precondition, bind, gets, raise, str_le. intros -> ->. reflexivity.
Qed.

Lemma times_increase_insert_event e m :
  times_increase m -> times_increase (snd (insert_event e m)).
Proof.
  intros [Hcol Hsorted].
  destruct (fst (insert_event e m)) as [[]|x] eqn:Hr.
  - destruct (insert_event_Done_effect e m Hr) as (Hpre & E1 & E2 & _).
    unfold times_increase, committed_times in *. rewrite E1, E2, map_app, Hcol. simpl.
    split; [reflexivity|]. apply StronglySorted_snoc; [exact Hsorted|].
    apply Forall_forall. intros t Ht. rewrite <- Hcol in Ht.
    destruct (column_max_ge _ _ Ht) as (max_time & Hmax & Hle).
    eapply str_le_lt_trans; [exact Hle|].
    eapply Event__precondition_Done_time; eassumption.
  - rewrite insert_event_Raise_unchanged by (rewrite Hr; reflexivity). split; assumption.
Qed.

Lemma times_increase_reachable es : times_increase (insert_events es OCED__init__).
Proof.
  unfold insert_events.
  assert (H : times_increase OCED__init__) by (split; [reflexivity | constructor]).
  revert H. generalize OCED__init__.
  induction es as [|e es IH]; intros m H; simpl; [exact H|].
  apply IH, times_increase_insert_event, H.
Qed.

(** C6. Monotonic time.  After any sequence of [insert_event] calls on a
    fresh model the times of the committed events increase strictly in
    commit order, in the order of Python on the normalised time strings;
    and an event whose time is at most the time of the last committed event
    is rejected with [ValueError], the model being left as it was. *)
Theorem monotonic_time (es : list Event) :
  StronglySorted str_lt (committed_times (insert_events es OCED__init__)) /\
  forall e row,
    last (OCED__event (insert_events es OCED__init__)) = Some row ->
    str_le (Event__event_time e) (ev_event_time row) ->
    insert_event e (insert_events es OCED__init__)
    = (Raise ValueError, insert_events es OCED__init__).
Proof.
  destruct (times_increase_reachable es) as [Hcol Hsorted]. split; [exact Hsorted|].
  intros e row Hlast Hle. set (m := insert_events es OCED__init__) in *.
  assert (Hin : ev_event_time row ∈ OCED__event_time m).
  { rewrite Hcol. unfold committed_times. apply list_elem_of_fmap_2.
    apply last_Some in Hlast. destruct Hlast as [l' ->].
    apply elem_of_app. right. apply list_elem_of_singleton. reflexivity. }
  destruct (column_max_ge _ _ Hin) as (max_time & Hmax & Hle').
  pose proof (Event__precondition_late e m max_time Hmax (str_le_trans _ _ _ Hle Hle'))
    as Hpre.
  destruct (insert_event_cases e m) as [(x & Hx & ->) | (Hd & _)]; congruence.
Qed.

Lemma monotonic_time_witness :
  last (OCED__event (insert_events scenario OCED__init__)) = Some (mk_event_row 3 "t" t4) /\
  str_le (Event__event_time (ev t4 [create_object "o3" "Person"])) t4 /\
  insert_event (ev t4 [create_object "o3" "Person"]) (insert_events scenario OCED__init__)
  = (Raise ValueError, insert_events scenario OCED__init__).
Proof.
  split; [vm_compute; reflexivity|]. split; [vm_compute; reflexivity|].
  apply (proj2 (monotonic_time scenario) (ev t4 [create_object "o3" "Person"])
           (mk_event_row 3 "t" t4)).
  - vm_compute. reflexivity.
  - vm_compute. reflexivity.
Defined.

(** ** Counter density *)

Lemma dense_insert_event e m :
  dense_event_ids m -> dense_event_ids (snd (insert_event e m)).
Proof.
  intros (Hev & Ho & Hr & Ha).
  destruct (fst (insert_event e m)) as [[]|x] eqn:Hres.
  - destruct (insert_event_Done_effect e m Hres) as (_ & E1 & _ & E3 & G1 & G2 & G3).
    unfold dense_event_ids, junction_ids_below in *. rewrite E1, E3, map_app, Hev. simpl.
    rewrite Nat.add_1_r, seq_S. simpl. repeat split; try reflexivity.
    + intros row Hrow. destruct (G1 row Hrow) as [Hold | ->]; [apply Ho in Hold|]; lia.
    + intros row Hrow. destruct (G2 row Hrow) as [Hold | ->]; [apply Hr in Hold|]; lia.
    + intros row Hrow. destruct (G3 row Hrow) as [Hold | ->]; [apply Ha in Hold|]; lia.
  - rewrite insert_event_Raise_unchanged by (rewrite Hres; reflexivity).
    repeat split; assumption.
Qed.

Lemma counter_counts es : forall m,
  OCED__event_counter (insert_events es m) = OCED__event_counter m + count_inserted es m.
Proof.
  unfold insert_events. induction es as [|e es IH]; intros m; simpl; [lia|].
  rewrite IH. destruct (fst (insert_event e m)) as [[]|x] eqn:Hres; simpl.
  - destruct (insert_event_Done_effect e m Hres) as (_ & _ & _ & E3 & _). lia.
  - rewrite insert_event_Raise_unchanged by (rewrite Hres; reflexivity). lia.
Qed.

Lemma dense_reachable es : dense_event_ids (insert_events es OCED__init__).
Proof.
  unfold insert_events.
  assert (H : dense_event_ids OCED__init__).
  { repeat split; intros row Hrow; apply not_elem_of_nil in Hrow; contradiction. }
  revert H. generalize OCED__init__.
  induction es as [|e es IH]; intros m H; simpl; [exact H|].
  apply IH, dense_insert_event, H.
Qed.

(** C8. Counter density.  After any sequence of [insert_event] calls on a
    fresh model, [n] of which returned, the event counter is [n] and the
    event ids that appear in the event table and in the three junction
    tables are exactly [0 .. n-1]; more precisely, the event table holds
    the ids [0 .. n-1] in order, and every event id of a junction table is
    below [n]. *)
Theorem event_ids_dense (es : list Event) :
  counter_density es /\
  map ev_event_id (OCED__event (insert_events es OCED__init__))
  = seq 0 (count_inserted es OCED__init__) /\
  Forall (fun row => jx_event_id row < count_inserted es OCED__init__)
    (OCED__event_x_object (insert_events es OCED__init__)) /\
  Forall (fun row => jx_event_id row < count_inserted es OCED__init__)
    (OCED__event_x_object_relation (insert_events es OCED__init__)) /\
  Forall (fun row => jx_event_id row < count_inserted es OCED__init__)
    (OCED__event_x_object_attribute_value (insert_events es OCED__init__)).
Proof.
  pose proof (counter_counts es OCED__init__) as Hn. simpl in Hn.
  destruct (dense_reachable es) as (Hev & Ho & Hr & Ha).
  unfold junction_ids_below in *. rewrite Hn in *.
  assert (Hbelow : forall table,
            (forall row, row ∈ table -> jx_event_id row < count_inserted es OCED__init__) ->
            forall i, i ∈ map jx_event_id table -> i < count_inserted es OCED__init__).
  { intros table Hrows i Hi. apply list_elem_of_fmap in Hi.
    destruct Hi as (row & -> & Hrow). apply Hrows, Hrow. }
  split; [|repeat split; try assumption; apply Forall_forall; assumption].
  split; [exact Hn|]. intros i. unfold recorded_event_ids. rewrite Hev. split.
  - intros Hi. repeat (apply elem_of_app in Hi; destruct Hi as [Hi | Hi]).
    + apply elem_of_seq in Hi. lia.
    + apply (Hbelow _ Ho i Hi).
    + apply (Hbelow _ Hr i Hi).
    + apply (Hbelow _ Ha i Hi).
  - intros Hi. apply elem_of_app. left. apply elem_of_seq. lia.
Qed.

Example scenario_event_ids :
  map ev_event_id (OCED__event (insert_events scenario OCED__init__)) = [0; 1; 2; 3] /\
  map jx_event_id (OCED__event_x_object (insert_events scenario OCED__init__)) = [0; 1; 3] /\
  map jx_event_id (OCED__event_x_object_relation (insert_events scenario OCED__init__))
  = [2; 3] /\
  map jx_event_id (OCED__event_x_object_attribute_value (insert_events scenario OCED__init__))
  = [].
Proof. vm_compute. repeat split. Qed.

(** ** Live relations have live endpoints *)

Lemma objects_persist_refl objs : objects_persist objs objs.
Proof. intros j o Ho. eauto. Qed.

Lemma objects_persist_trans objs1 objs2 objs3 :
  objects_persist objs1 objs2 -> objects_persist objs2 objs3 -> objects_persist objs1 objs3.
Proof.
  intros H12 H23 j o Ho. destruct (H12 j o Ho) as (o2 & Ho2 & He2 & Hl2).
  destruct (H23 j o2 Ho2) as (o3 & Ho3 & He3 & Hl3).
  exists o3. split; [exact Ho3|]. split; [congruence | auto].
Qed.

Lemma objects_persist_alter (f : object_rec -> object_rec) objs i :
  (forall o, obj_existency (f o) = obj_existency o /\
     forall x, x ∈ object_relation_ids o -> x ∈ object_relation_ids (f o)) ->
  objects_persist objs (alter f i objs).
Proof.
  intros Hf j o Ho. destruct (decide (i = j)) as [->|Hne].
  - rewrite lookup_alter_eq, Ho. simpl. exists (f o). destruct (Hf o). auto.
  - rewrite lookup_alter_ne by exact Hne. eauto.
Qed.

Lemma objects_persist_insert objs i x :
  objs !! i = None -> objects_persist objs (<[i := x]> objs).
Proof.
  intros Hi j o Ho. rewrite lookup_insert_ne by congruence. eauto.
Qed.

Lemma obj_append_relation_id_persists i o :
  obj_existency (obj_append_relation_id i o) = obj_existency o /\
  forall x, x ∈ object_relation_ids o -> x ∈ object_relation_ids (obj_append_relation_id i o).
Proof. split; [reflexivity|]. intros x Hx. simpl. apply elem_of_app. auto. Qed.

Lemma live_object_persist cs cs' e :
  objects_persist (cs_object cs) (cs_object cs') -> live_object cs e -> live_object cs' e.
Proof.
  intros H (o & Ho & He). destruct (H e o Ho) as (o' & Ho' & He' & _).
  exists o'. split; [exact Ho' | congruence].
Qed.

Lemma listed_at_persist cs cs' i e :
  objects_persist (cs_object cs) (cs_object cs') -> listed_at cs i e -> listed_at cs' i e.
Proof.
  intros H (o & Ho & He). destruct (H e o Ho) as (o' & Ho' & _ & Hin).
  exists o'. auto.
Qed.

Lemma listed_at_append objs rels oavs i e o :
  objs !! e = Some o ->
  listed_at (mk_current_state (alter (obj_append_relation_id i) e objs) rels oavs) i e.
Proof.
  intros Ho. exists (obj_append_relation_id i o). simpl.
  rewrite lookup_alter_eq, Ho. split; [reflexivity|].
  apply elem_of_app. right. apply list_elem_of_singleton. reflexivity.
Qed.

Lemma relations_sound_step (cs cs' : current_state) :
  objects_persist (cs_object cs) (cs_object cs') ->
  (forall i r', cs_object_relation cs' !! i = Some r' ->
     relation_sound cs' i r' \/ relation_persists (cs_object_relation cs) i r') ->
  relations_sound cs -> relations_sound cs'.
Proof.
  intros Hobj Hrel Hcs i r' Hr'.
  destruct (Hrel i r' Hr') as [Hnew | (r & Hr & Hfrom & Hto & Hlive)]; [exact Hnew|].
  unfold relation_sound. rewrite Hfrom, Hto.
  destruct (Hcs i r Hr) as (H1 & H2 & H3).
  split; [|split]; eauto using listed_at_persist.
  intros Hr'live. destruct (H1 (Hlive Hr'live)). eauto using live_object_persist.
Qed.

Lemma relation_persists_refl (rels : gmap string object_relation_rec) i r :
  rels !! i = Some r -> relation_persists rels i r.
Proof. intros H. exists r. auto. Qed.

Lemma relation_persists_alter (f : object_relation_rec -> object_relation_rec)
    (rels : gmap string object_relation_rec) j i r' :
  (forall r, rel_from_object_id (f r) = rel_from_object_id r /\
             rel_to_object_id (f r) = rel_to_object_id r /\
             (rel_existency (f r) = true -> rel_existency r = true)) ->
  alter f j rels !! i = Some r' -> relation_persists rels i r'.
Proof.
  intros Hf H. apply lookup_alter_Some_inv in H.
  destruct H as (r & Hr & [-> | [_ ->]]); exists r; auto.
Qed.

Lemma relations_sound_delete_object cs inv i k s' :
  relations_sound cs ->
  delete_object__update_current_state i k (cs, inv) = (Done tt, s') ->
  relations_sound (fst s').
Proof.
  intros Hcs H. pose proof (delete_object_Done_inv _ _ _ _ _ H) as (o & Ho & Hlive & Hr & Ha).
  destruct (delete_object_Done cs inv i k o Ho Hlive Hr Ha) as [inv' H'].
  rewrite H' in H. injection H as <-. simpl.
  set (cs' := mk_current_state _ _ _).
  assert (Hlisted : forall j e, listed_at cs j e -> listed_at cs' j e).
  { intros j e (oe & Hoe & Hin). unfold listed_at. simpl.
    destruct (decide (i = e)) as [->|Hie].
    - rewrite lookup_alter_eq, Hoe. simpl. exists (obj_set_existency false oe).
      split; [reflexivity | exact Hin].
    - rewrite lookup_alter_ne by exact Hie. exists oe. auto. }
  assert (Hl : forall e, e <> i -> live_object cs e -> live_object cs' e).
  { intros e He (oe & Hoe & Hle). exists oe. simpl.
    rewrite lookup_alter_ne by congruence. auto. }
  intros j r' Hr'. simpl in Hr'. unfold clear_relations in Hr'.
  rewrite lookup_clear in Hr' by reflexivity.
  destruct (cs_object_relation cs !! j) as [r|] eqn:Hj;
    [| destruct (decide _); discriminate].
  destruct (Hcs j r Hj) as (Hends & Hfrom & Hto).
  destruct (decide (j ∈ object_relation_ids o)) as [Hin|Hin]; simpl in Hr';
    injection Hr' as <-.
  - split; [discriminate|]. simpl. auto.
  - split; [|auto]. intros Hrlive. destruct (Hends Hrlive) as [Hf Ht].
    assert (Hne : forall e, listed_at cs j e -> e <> i).
    { intros e (oe & Hoe & Hje) ->. rewrite Ho in Hoe. injection Hoe as <-. contradiction. }
    split; apply Hl; auto.
Qed.

Lemma relations_sound_create_object_relation cs inv i f t ty k s' :
  relations_sound cs ->
  create_object_relation__update_current_state i f t ty k (cs, inv) = (Done tt, s') ->
  relations_sound (fst s').
Proof.
  intros Hcs. destruct cs as [objs rels oavs].
  unfold create_object_relation__update_current_state, known, missing_or_dead,
    bind, gets, modify, getitem. ucs_simpl.
  destruct (rels !! i) eqn:Hi; [discriminate|].
  destruct (objs !! t) as [ot|] eqn:Ht; [|discriminate].
  destruct (obj_existency ot) eqn:Hlt; [|discriminate].
  destruct (objs !! f) as [ofr|] eqn:Hf; [|discriminate].
  destruct (obj_existency ofr) eqn:Hlf; [|discriminate]. simpl.
  rewrite Hf. simpl.
  pose proof (objects_persist_alter (obj_append_relation_id i) objs f
                (obj_append_relation_id_persists i)) as P1.
  pose proof (objects_persist_alter (obj_append_relation_id i)
                (alter (obj_append_relation_id i) f objs) t
                (obj_append_relation_id_persists i)) as P2.
  destruct (P1 t ot Ht) as (ot1 & Ht1 & _). rewrite Ht1. simpl. intros [= <-]. simpl.
  pose proof (objects_persist_trans _ _ _ P1 P2) as P12.
  set (rels' := <[i := _]> rels).
  set (objs' := alter _ t _) in *.
  apply (relations_sound_step (mk_current_state objs rels oavs)); [exact P12 | | exact Hcs].
  simpl. intros j r' Hr'. unfold rels' in Hr'.
  destruct (decide (i = j)) as [->|Hne].
  - rewrite lookup_insert_eq in Hr'. injection Hr' as <-. left.
    unfold relation_sound. simpl. split; [intros _; split|split].
    + apply (live_object_persist (mk_current_state objs rels oavs)); [exact P12|].
      exists ofr. auto.
    + apply (live_object_persist (mk_current_state objs rels oavs)); [exact P12|].
      exists ot. auto.
    + apply (listed_at_persist
               (mk_current_state (alter (obj_append_relation_id j) f objs) rels' oavs));
        [exact P2|].
      eapply listed_at_append, Hf.
    + eapply listed_at_append, Ht1.
  - rewrite lookup_insert_ne in Hr' by exact Hne. right.
    apply relation_persists_refl, Hr'.
Qed.

Lemma relations_sound_update q k cs inv s' :
  relations_sound cs ->
  update_current_state q k (cs, inv) = (Done tt, s') ->
  relations_sound (fst s').
Proof.
  intros Hcs. destruct q; simpl;
    [ | apply relations_sound_create_object_relation, Hcs | |
      apply relations_sound_delete_object, Hcs | .. ];
    destruct cs as [objs rels oavs];
    unfold create_object__update_current_state,
      create_object_attribute_value__update_current_state,
      delete_object_relation__update_current_state,
      delete_object_attribute_value__update_current_state,
      modify_object__update_current_state, modify_object_relation__update_current_state,
      modify_object_attribute_value__update_current_state,
      involve_object__update_current_state, involve_object_relation__update_current_state,
      involve_object_attribute_value__update_current_state,
      known, missing_or_dead, bind, gets, modify, getitem; ucs_simpl.
  - (* create_object *)
    destruct (objs !! object_id) eqn:Hi; [discriminate|]. intros [= <-]. simpl.
    apply (relations_sound_step (mk_current_state objs rels oavs)); [| | exact Hcs]; simpl.
    + apply objects_persist_insert, Hi.
    + intros j r' Hr'. right. apply relation_persists_refl, Hr'.
  - (* create_object_attribute_value *)
    destruct (oavs !! object_attribute_value_id); [discriminate|]. simpl.
    destruct (objs !! object_id); [|discriminate]. intros [= <-]. simpl.
    apply (relations_sound_step (mk_current_state objs rels oavs)); [| | exact Hcs]; simpl.
    + apply objects_persist_alter. intros ob. split; [reflexivity | auto].
    + intros j r' Hr'. right. apply relation_persists_refl, Hr'.
  - (* delete_object_relation *)
    destruct (rels !! object_relation_id) as [r|]; [|discriminate].
    destruct (rel_existency r); [|discriminate]. intros [= <-]. simpl.
    apply (relations_sound_step (mk_current_state objs rels oavs)); [| | exact Hcs]; simpl.
    + apply objects_persist_refl.
    + intros j r' Hr'. right. eapply relation_persists_alter; [|exact Hr'].
      intros r0. simpl. repeat split. discriminate.
  - (* delete_object_attribute_value *)
    destruct (oavs !! object_attribute_value_id) as [a|]; [|discriminate].
    destruct (oav_existency a); [|discriminate]. intros [= <-]. simpl.
    apply (relations_sound_step (mk_current_state objs rels oavs)); [| | exact Hcs]; simpl.
    + apply objects_persist_refl.
    + intros j r' Hr'. right. apply relation_persists_refl, Hr'.
  - (* modify_object *)
    destruct (objs !! object_id) as [o|] eqn:Ho; [|discriminate].
    destruct (obj_existency o); [|discriminate]. simpl. rewrite Ho. simpl.
    destruct (String.eqb _ _); [discriminate|]. intros [= <-]. simpl.
    apply (relations_sound_step (mk_current_state objs rels oavs)); [| | exact Hcs]; simpl.
    + apply objects_persist_alter. intros ob. split; [reflexivity | auto].
    + intros j r' Hr'. right. apply relation_persists_refl, Hr'.
  - (* modify_object_relation *)
    destruct (rels !! object_relation_id) as [r|] eqn:Hr; [|discriminate].
    destruct (rel_existency r); [|discriminate]. simpl. rewrite Hr. simpl.
    destruct (String.eqb _ _); [discriminate|]. intros [= <-]. simpl.
    apply (relations_sound_step (mk_current_state objs rels oavs)); [| | exact Hcs]; simpl.
    + apply objects_persist_refl.
    + intros j r' Hr'. right. eapply relation_persists_alter; [|exact Hr'].
      intros r0. simpl. auto.
  - (* modify_object_attribute_value *)
    destruct (oavs !! object_attribute_value_id) as [a|] eqn:Ha; [|discriminate].
    destruct (oav_existency a); [|discriminate]. simpl. rewrite Ha. simpl.
    destruct (String.eqb _ _); [discriminate|]. intros [= <-]. simpl.
    apply (relations_sound_step (mk_current_state objs rels oavs)); [| | exact Hcs]; simpl.
    + apply objects_persist_refl.
    + intros j r' Hr'. right. apply relation_persists_refl, Hr'.
  - (* involve_object *)
    destruct (objs !! object_id) as [o|]; [|discriminate].
    destruct (obj_existency o); [|discriminate]. simpl.
    destruct (bool_decide _); [discriminate|]. intros [= <-]. exact Hcs.
  - (* involve_object_relation *)
    destruct (rels !! object_relation_id) as [r|]; [|discriminate].
    destruct (rel_existency r); [|discriminate]. simpl.
    destruct (bool_decide _); [discriminate|]. intros [= <-]. exact Hcs.
  - (* involve_object_attribute_value *)
    destruct (oavs !! object_attribute_value_id) as [a|]; [|discriminate].
    destruct (oav_existency a); [|discriminate]. simpl.
    destruct (bool_decide _); [discriminate|]. intros [= <-]. exact Hcs.
Qed.

Lemma relations_sound_validate qs : forall k cs inv s',
  relations_sound cs ->
  for_enumerate k qs (fun qualifier_index qualifier =>
    update_current_state qualifier qualifier_index) (cs, inv) = (Done tt, s') ->
  relations_sound (fst s').
Proof.
  induction qs as [|q qs IH]; intros k cs inv s' Hcs H; simpl in H.
  - injection H as <-. exact Hcs.
  - apply bind_Done_inv in H. destruct H as ([] & [cs1 inv1] & Hq & H).
    eapply IH; [|exact H].
    exact (relations_sound_update q k cs inv (cs1, inv1) Hcs Hq).
Qed.

Lemma relations_sound_insert_event e m :
  relations_sound (OCED__current_state m) ->
  relations_sound (OCED__current_state (snd (insert_event e m))).
Proof.
  intros H.
  destruct (insert_event_cases e m) as [(x & _ & ->) | (Hpre & m1 & _ & Hcs & ->)];
    [exact H|].
  simpl. rewrite Hcs.
  assert (Hv : fst (validate_qualifiers e m) = Done tt).
  { revert Hpre. unfold Event__precondition, bind, gets, raise.
    destruct (column_max (OCED__event_time m)) as [max_time|]; [|auto].
    destruct (String.leb _ _); [discriminate | auto]. }
  unfold validate_qualifiers, deepcopy in *.
  destruct (for_enumerate 0 (Event__qualifiers e) _ _) as [r s'] eqn:Hloop.
  simpl in Hv. subst r. eapply relations_sound_validate; [exact H | exact Hloop].
Qed.

(** In every model reachable from a fresh one, a live relation has two live
    endpoints: the half of the ownership invariant that the code keeps. *)
Lemma live_relations_have_live_endpoints es i r :
  model_relations (insert_events es OCED__init__) !! i = Some r ->
  rel_existency r = true ->
  live_object (OCED__current_state (insert_events es OCED__init__)) (rel_from_object_id r) /\
  live_object (OCED__current_state (insert_events es OCED__init__)) (rel_to_object_id r).
Proof.
  assert (H : relations_sound (OCED__current_state (insert_events es OCED__init__))).
  { unfold insert_events.
    assert (H0 : relations_sound (OCED__current_state OCED__init__)).
    { intros j r0 Hj. simpl in Hj. rewrite lookup_empty in Hj. discriminate. }
    revert H0. generalize OCED__init__.
    induction es as [|e es IH]; intros m H0; simpl; [exact H0|].
    apply IH, relations_sound_insert_event, H0. }
  intros Hi Hlive. destruct (H i r Hi) as (Hends & _). auto.
Qed.

(** * Further properties of the engine *)

(** ** The store only grows, and records only evolve *)

Section MapEvolves.
Context {V : Type} (R : V -> V -> Prop).
Hypothesis R_refl : forall v, R v v.
Hypothesis R_trans : forall u v w, R u v -> R v w -> R u w.

Lemma map_evolves_refl (d : gmap string V) : map_evolves R d d.
Proof. intros i v Hv. eauto. Qed.

Lemma map_evolves_trans (d1 d2 d3 : gmap string V) :
  map_evolves R d1 d2 -> map_evolves R d2 d3 -> map_evolves R d1 d3.
Proof.
  intros H12 H23 i v Hv. destruct (H12 i v Hv) as (v2 & Hv2 & R2).
  destruct (H23 i v2 Hv2) as (v3 & Hv3 & R3). eauto.
Qed.

Lemma map_evolves_alter (f : V -> V) (d : gmap string V) i :
  (forall v, R v (f v)) -> map_evolves R d (alter f i d).
Proof.
  intros Hf j v Hv. destruct (decide (i = j)) as [->|Hne].
  - rewrite lookup_alter_eq, Hv. simpl. eauto.
  - rewrite lookup_alter_ne by exact Hne. eauto.
Qed.

Lemma map_evolves_insert (d : gmap string V) i x :
  d !! i = None -> map_evolves R d (<[i := x]> d).
Proof. intros Hi j v Hv. rewrite lookup_insert_ne by congruence. eauto. Qed.
End MapEvolves.

Lemma object_evolves_refl o : object_evolves o o.
Proof. repeat split; auto. Qed.

Lemma object_evolves_trans o1 o2 o3 :
  object_evolves o1 o2 -> object_evolves o2 o3 -> object_evolves o1 o3.
Proof.
  intros (E1 & R1 & A1) (E2 & R2 & A2). repeat split; auto.
  - etrans; eassumption.
  - etrans; eassumption.
Qed.

Lemma relation_evolves_refl r : relation_evolves r r.
Proof. repeat split; auto. Qed.

Lemma relation_evolves_trans r1 r2 r3 :
  relation_evolves r1 r2 -> relation_evolves r2 r3 -> relation_evolves r1 r3.
Proof. intros (F1 & T1 & E1) (F2 & T2 & E2). repeat split; try congruence. auto. Qed.

Lemma attribute_value_evolves_refl a : attribute_value_evolves a a.
Proof. repeat split; auto. Qed.

Lemma attribute_value_evolves_trans a1 a2 a3 :
  attribute_value_evolves a1 a2 -> attribute_value_evolves a2 a3 ->
  attribute_value_evolves a1 a3.
Proof. intros (F1 & T1 & E1) (F2 & T2 & E2). repeat split; try congruence. auto. Qed.

Lemma state_evolves_refl cs : state_evolves cs cs.
Proof.
  repeat split; apply map_evolves_refl;
    auto using object_evolves_refl, relation_evolves_refl, attribute_value_evolves_refl.
Qed.

Lemma state_evolves_trans cs1 cs2 cs3 :
  state_evolves cs1 cs2 -> state_evolves cs2 cs3 -> state_evolves cs1 cs3.
Proof.
  intros (O1 & R1 & A1) (O2 & R2 & A2). repeat split.
  - eapply (map_evolves_trans _ object_evolves_trans); eassumption.
  - eapply (map_evolves_trans _ relation_evolves_trans); eassumption.
  - eapply (map_evolves_trans _ attribute_value_evolves_trans); eassumption.
Qed.

Section EvolvedFrom.
Variable cs0 : current_state.

Lemma ev_step (s : ucs) cs' :
  state_evolves (fst s) cs' -> evolved_from cs0 s -> state_evolves cs0 cs'.
Proof. intros H H0. eapply state_evolves_trans; eassumption. Qed.

Lemma ev_alter_object f i :
  (forall o, object_evolves o (f o)) ->
  preserves (evolved_from cs0) (modify (upd_objects (alter f i))).
Proof.
  intros Hf. apply preserves_modify. intros s. apply ev_step. ucs_simpl.
  repeat split; simpl;
    [ (apply map_evolves_alter; auto using object_evolves_refl, relation_evolves_refl, attribute_value_evolves_refl)
    | apply map_evolves_refl, relation_evolves_refl
    | apply map_evolves_refl, attribute_value_evolves_refl ].
Qed.

Lemma ev_alter_relation f i :
  (forall r, relation_evolves r (f r)) ->
  preserves (evolved_from cs0) (modify (upd_relations (alter f i))).
Proof.
  intros Hf. apply preserves_modify. intros s. apply ev_step. ucs_simpl.
  repeat split; simpl;
    [ apply map_evolves_refl, object_evolves_refl
    | (apply map_evolves_alter; auto using object_evolves_refl, relation_evolves_refl, attribute_value_evolves_refl)
    | apply map_evolves_refl, attribute_value_evolves_refl ].
Qed.

Lemma ev_alter_attribute_value f i :
  (forall a, attribute_value_evolves a (f a)) ->
  preserves (evolved_from cs0) (modify (upd_attribute_values (alter f i))).
Proof.
  intros Hf. apply preserves_modify. intros s. apply ev_step. ucs_simpl.
  repeat split; simpl;
    [ apply map_evolves_refl, object_evolves_refl
    | apply map_evolves_refl, relation_evolves_refl
    | (apply map_evolves_alter; auto using object_evolves_refl, relation_evolves_refl, attribute_value_evolves_refl) ].
Qed.

Lemma ev_involve f : (forall s, fst (f s) = fst s) -> preserves (evolved_from cs0) (modify f).
Proof.
  intros Hf. apply preserves_modify. intros s. unfold evolved_from. rewrite Hf. auto.
Qed.

Lemma obj_set_existency_evolves o : object_evolves o (obj_set_existency false o).
Proof. repeat split; simpl; [discriminate | reflexivity | reflexivity]. Qed.

Lemma obj_set_type_evolves t o : object_evolves o (obj_set_type t o).
Proof. repeat split; simpl; auto. Qed.

Lemma obj_append_relation_id_evolves i o : object_evolves o (obj_append_relation_id i o).
Proof. repeat split; simpl; auto. apply prefix_app_r. reflexivity. Qed.

Lemma obj_append_attribute_value_id_evolves i o :
  object_evolves o (obj_append_attribute_value_id i o).
Proof. repeat split; simpl; auto. apply prefix_app_r. reflexivity. Qed.

Lemma rel_set_existency_evolves r : relation_evolves r (rel_set_existency false r).
Proof. repeat split; simpl. discriminate. Qed.

Lemma rel_set_type_evolves t r : relation_evolves r (rel_set_type t r).
Proof. repeat split; simpl; auto. Qed.

Lemma oav_set_existency_evolves a : attribute_value_evolves a (oav_set_existency false a).
Proof. repeat split; simpl. discriminate. Qed.

Lemma oav_set_value_evolves v a : attribute_value_evolves a (oav_set_value v a).
Proof. repeat split; simpl; auto. Qed.

Ltac ev :=
  preserve_with ltac:(first
    [ apply ev_alter_object;
        first [ apply obj_set_existency_evolves | apply obj_set_type_evolves
              | apply obj_append_relation_id_evolves
              | apply obj_append_attribute_value_id_evolves ]
    | apply ev_alter_relation;
        first [ apply rel_set_existency_evolves | apply rel_set_type_evolves ]
    | apply ev_alter_attribute_value;
        first [ apply oav_set_existency_evolves | apply oav_set_value_evolves ]
    | apply ev_involve; reflexivity ]).

Lemma ev_create_object i t k :
  preserves (evolved_from cs0) (create_object__update_current_state i t k).
Proof.
  intros s H. unfold create_object__update_current_state.
  unfold bind at 1. unfold gets at 1. unfold known.
  destruct (the_objects s !! i) eqn:Hi; [exact H|].
  unfold bind, modify. simpl. revert H. apply ev_step. ucs_simpl.
  repeat split; simpl;
    [ (apply map_evolves_insert; auto using object_evolves_refl, relation_evolves_refl, attribute_value_evolves_refl)
    | apply map_evolves_refl, relation_evolves_refl
    | apply map_evolves_refl, attribute_value_evolves_refl ].
Qed.

Lemma ev_create_object_relation i f t ty k :
  preserves (evolved_from cs0) (create_object_relation__update_current_state i f t ty k).
Proof.
  intros s H. unfold create_object_relation__update_current_state.
  unfold bind at 1. unfold gets at 1. unfold bind at 1. unfold gets at 1. unfold known at 1.
  destruct (the_relations s !! i) eqn:Hi; [exact H|].
  repeat (match goal with |- context [if ?b then _ else _] => destruct b end; [exact H|]).
  unfold bind at 1. unfold modify at 1.
  match goal with |- evolved_from cs0 (snd (?c ?s1)) =>
    enough (HQ : preserves (evolved_from cs0) c) by (apply (HQ s1); revert H; apply ev_step;
      ucs_simpl; repeat split; simpl;
      [ apply map_evolves_refl, object_evolves_refl
      | (apply map_evolves_insert; auto using object_evolves_refl, relation_evolves_refl, attribute_value_evolves_refl)
      | apply map_evolves_refl, attribute_value_evolves_refl ]) end.
  ev.
Qed.

Lemma ev_create_object_attribute_value i o n v k :
  preserves (evolved_from cs0)
    (create_object_attribute_value__update_current_state i o n v k).
Proof.
  intros s H. unfold create_object_attribute_value__update_current_state.
  unfold bind at 1. unfold gets at 1. unfold known at 1.
  destruct (the_attribute_values s !! i) eqn:Hi; [exact H|].
  unfold bind at 1. unfold modify at 1.
  match goal with |- evolved_from cs0 (snd (?c ?s1)) =>
    enough (HQ : preserves (evolved_from cs0) c) by (apply (HQ s1); revert H; apply ev_step;
      ucs_simpl; repeat split; simpl;
      [ apply map_evolves_refl, object_evolves_refl
      | apply map_evolves_refl, relation_evolves_refl
      | (apply map_evolves_insert; auto using object_evolves_refl, relation_evolves_refl, attribute_value_evolves_refl) ]) end.
  ev.
Qed.

Lemma ev_update_current_state q k :
  preserves (evolved_from cs0) (update_current_state q k).
Proof.
  destruct q; simpl;
    [ apply ev_create_object | apply ev_create_object_relation
    | apply ev_create_object_attribute_value | .. ];
    unfold delete_object__update_current_state, cascade_relation, cascade_attribute_value,
      delete_object_relation__update_current_state,
      delete_object_attribute_value__update_current_state,
      modify_object__update_current_state, modify_object_relation__update_current_state,
      modify_object_attribute_value__update_current_state,
      involve_object__update_current_state, involve_object_relation__update_current_state,
      involve_object_attribute_value__update_current_state;
    ev.
Qed.
End EvolvedFrom.

Lemma state_evolves_insert_event e m :
  state_evolves (OCED__current_state m) (OCED__current_state (snd (insert_event e m))).
Proof.
  destruct (insert_event_cases e m) as [(x & _ & ->) | (_ & m1 & _ & Hcs & ->)];
    [apply state_evolves_refl|].
  simpl. rewrite Hcs. unfold validate_qualifiers, deepcopy.
  apply (preserves_for_enumerate (evolved_from (OCED__current_state m)));
    [|apply state_evolves_refl].
  intros i q. apply ev_update_current_state.
Qed.

Lemma state_evolves_insert_events es : forall m,
  state_evolves (OCED__current_state m) (OCED__current_state (insert_events es m)).
Proof.
  unfold insert_events. induction es as [|e es IH]; intros m; simpl.
  - apply state_evolves_refl.
  - eapply state_evolves_trans; [apply state_evolves_insert_event | apply IH].
Qed.

Lemma known_evolves {V : Type} (R : V -> V -> Prop) (d d' : gmap string V) i :
  map_evolves R d d' -> known d i = true -> known d' i = true.
Proof.
  unfold known. intros H. destruct (d !! i) as [v|] eqn:Hv; [|discriminate].
  destruct (H i v Hv) as (v' & -> & _). reflexivity.
Qed.

Lemma creates_known_evolves cs cs' q :
  state_evolves cs cs' -> creates_known cs q = true -> creates_known cs' q = true.
Proof.
  intros (HO & HR & HA). destruct q; simpl; try discriminate;
    eapply known_evolves; eassumption.
Qed.

Lemma create_known_raises q k cs inv :
  creates_known cs q = true -> is_Raise (fst (update_current_state q k (cs, inv))) = true.
Proof.
  destruct q; simpl; try discriminate; intros H;
    unfold create_object__update_current_state,
      create_object_relation__update_current_state,
      create_object_attribute_value__update_current_state, bind, gets;
    ucs_simpl; rewrite H; reflexivity.
Qed.

Lemma validation_raises_on_known_id qs : forall k cs inv q,
  q ∈ qs -> creates_known cs q = true ->
  is_Raise (fst (for_enumerate k qs (fun qualifier_index qualifier =>
    update_current_state qualifier qualifier_index) (cs, inv))) = true.
Proof.
  induction qs as [|q0 qs IH]; intros k cs inv q Hq Hknown.
  - apply not_elem_of_nil in Hq. contradiction.
  - simpl. unfold bind.
    pose proof (ev_update_current_state cs q0 k (cs, inv) (state_evolves_refl cs)) as Hev.
    destruct (update_current_state q0 k (cs, inv)) as [[[]|x] [cs1 inv1]] eqn:H0;
      [|reflexivity].
    apply elem_of_cons in Hq. destruct Hq as [-> | Hq].
    + pose proof (create_known_raises q0 k cs inv Hknown) as Hr. rewrite H0 in Hr.
      discriminate.
    + apply (IH (S k) cs1 inv1 q Hq). eapply creates_known_evolves; eassumption.
Qed.

Lemma precondition_raises_of_validation e m :
  is_Raise (fst (validate_qualifiers e m)) = true ->
  is_Raise (fst (Event__precondition e m)) = true.
Proof.
  unfold Event__precondition, bind, gets, raise.
  destruct (column_max (OCED__event_time m)) as [max_time|]; [|auto].
  destruct (String.leb _ _); auto.
Qed.

(** X1. Id permanence.  Once an id is in the store, live or deleted, every
    later event that holds a [create_*] qualifier of that kind with that id
    is rejected, whatever else it holds and however many events were
    inserted in between; the model is left as it was. *)
Theorem created_ids_are_consumed (m : OCED) (es : list Event) (e : Event) (q : Qualifier) :
  q ∈ Event__qualifiers e ->
  creates_known (OCED__current_state m) q = true ->
  is_Raise (fst (insert_event e (insert_events es m))) = true /\
  snd (insert_event e (insert_events es m)) = insert_events es m.
Proof.
  intros Hq Hknown.
  assert (Hr : is_Raise (fst (insert_event e (insert_events es m))) = true).
  { pose proof (creates_known_evolves _ _ q (state_evolves_insert_events es m) Hknown) as Hk.
    pose proof (validation_raises_on_known_id (Event__qualifiers e) 0
                  (OCED__current_state (insert_events es m)) no_involved_ids q Hq Hk) as Hv.
    apply (precondition_raises_of_validation e (insert_events es m)) in Hv.
    destruct (insert_event_cases e (insert_events es m))
      as [(x & _ & ->) | (Hd & _)]; [reflexivity|].
    rewrite Hd in Hv. discriminate. }
  split; [exact Hr | apply insert_event_Raise_unchanged, Hr].
Qed.

Lemma created_ids_are_consumed_witness :
  let m := insert_events scenario OCED__init__ in
  let e := ev "2024-01-09T10:00:00" [create_object "o9" "Order"; create_object "o1" "Person"] in
  let es := [ev t5 [create_object "o5" "Order"]] in
  create_object "o1" "Person" ∈ Event__qualifiers e /\
  creates_known (OCED__current_state m) (create_object "o1" "Person") = true /\
  is_Raise (fst (insert_event e (insert_events es m))) = true /\
  snd (insert_event e (insert_events es m)) = insert_events es m.
Proof.
  cbv zeta.
  assert (H1 : create_object "o1" "Person"
               ∈ [create_object "o9" "Order"; create_object "o1" "Person"]).
  { apply elem_of_cons. right. apply elem_of_cons. left. reflexivity. }
  split; [exact H1|]. split; [vm_compute; reflexivity|].
  apply (created_ids_are_consumed (insert_events scenario OCED__init__)
           [ev t5 [create_object "o5" "Order"]]
           (ev "2024-01-09T10:00:00" [create_object "o9" "Order"; create_object "o1" "Person"])
           (create_object "o1" "Person")).
  - exact H1.
  - vm_compute. reflexivity.
Defined.

(** X2. No resurrection.  An object, relation or attribute value whose
    existency is cleared stays in the store with its existency cleared,
    whatever events are inserted afterwards. *)
Theorem deleted_stays_deleted (m : OCED) (es : list Event) :
  (forall i o, model_objects m !! i = Some o -> obj_existency o = false ->
     exists o', model_objects (insert_events es m) !! i = Some o' /\
       obj_existency o' = false) /\
  (forall i r, model_relations m !! i = Some r -> rel_existency r = false ->
     exists r', model_relations (insert_events es m) !! i = Some r' /\
       rel_existency r' = false) /\
  (forall i a, model_attribute_values m !! i = Some a -> oav_existency a = false ->
     exists a', model_attribute_values (insert_events es m) !! i = Some a' /\
       oav_existency a' = false).
Proof.
  destruct (state_evolves_insert_events es m) as (HO & HR & HA).
  unfold model_objects, model_relations, model_attribute_values.
  split; [|split].
  - intros i o Ho Hdead. destruct (HO i o Ho) as (o' & Ho' & He & _).
    exists o'. split; [exact Ho'|]. destruct (obj_existency o'); [|reflexivity].
    rewrite He in Hdead by reflexivity. discriminate.
  - intros i r Hr Hdead. destruct (HR i r Hr) as (r' & Hr' & _ & _ & He).
    exists r'. split; [exact Hr'|]. destruct (rel_existency r'); [|reflexivity].
    rewrite He in Hdead by reflexivity. discriminate.
  - intros i a Ha Hdead. destruct (HA i a Ha) as (a' & Ha' & _ & _ & He).
    exists a'. split; [exact Ha'|]. destruct (oav_existency a'); [|reflexivity].
    rewrite He in Hdead by reflexivity. discriminate.
Qed.

Lemma deleted_stays_deleted_witness :
  model_relations (insert_events scenario OCED__init__) !! "r1"
    = Some (mk_object_relation_rec "placed" false "o1" "o2") /\
  exists r', model_relations (insert_events [ev t5 [create_object "o5" "Order"]]
                                (insert_events scenario OCED__init__)) !! "r1" = Some r' /\
    rel_existency r' = false.
Proof.
  split; [vm_compute; reflexivity|].
  apply (proj1 (proj2 (deleted_stays_deleted (insert_events scenario OCED__init__)
                          [ev t5 [create_object "o5" "Order"]]))
           "r1" (mk_object_relation_rec "placed" false "o1" "o2")).
  - vm_compute. reflexivity.
  - reflexivity.
Defined.

(** X3. What never changes.  The endpoints of a relation and the name and
    owner of an attribute value are those of its creation: no later event
    changes them. *)
Theorem endpoints_and_owners_are_immutable (m : OCED) (es : list Event) :
  (forall i r, model_relations m !! i = Some r ->
     exists r', model_relations (insert_events es m) !! i = Some r' /\
       rel_from_object_id r' = rel_from_object_id r /\
       rel_to_object_id r' = rel_to_object_id r) /\
  (forall i a, model_attribute_values m !! i = Some a ->
     exists a', model_attribute_values (insert_events es m) !! i = Some a' /\
       oav_name a' = oav_name a /\ oav_object_id a' = oav_object_id a).
Proof.
  destruct (state_evolves_insert_events es m) as (_ & HR & HA).
  unfold model_relations, model_attribute_values. split.
  - intros i r Hr. destruct (HR i r Hr) as (r' & Hr' & Hf & Ht & _). eauto.
  - intros i a Ha. destruct (HA i a Ha) as (a' & Ha' & Hn & Ho & _). eauto.
Qed.

Lemma endpoints_and_owners_are_immutable_witness :
  model_relations (insert_events (firstn 3 scenario) OCED__init__) !! "r1"
    = Some (mk_object_relation_rec "placed" true "o1" "o2") /\
  exists r', model_relations
               (insert_events [ev t4 [modify_object_relation "r1" "paid"; delete_object "o2"]]
                  (insert_events (firstn 3 scenario) OCED__init__)) !! "r1" = Some r' /\
    rel_from_object_id r' = "o1" /\ rel_to_object_id r' = "o2".
Proof.
  split; [vm_compute; reflexivity|].
  apply (proj1 (endpoints_and_owners_are_immutable
                  (insert_events (firstn 3 scenario) OCED__init__)
                  [ev t4 [modify_object_relation "r1" "paid"; delete_object "o2"]])
           "r1" (mk_object_relation_rec "placed" true "o1" "o2")).
  vm_compute. reflexivity.
Defined.

(** X4. The back-reference lists of an object are only appended to: the
    lists it has now are prefixes of the lists it has after any further
    events, so no relation or attribute value is ever dropped from them. *)
Theorem back_references_only_grow (m : OCED) (es : list Event) (i : string)
    (o : object_rec) :
  model_objects m !! i = Some o ->
  exists o', model_objects (insert_events es m) !! i = Some o' /\
    object_relation_ids o `prefix_of` object_relation_ids o' /\
    object_attribute_value_ids o `prefix_of` object_attribute_value_ids o'.
Proof.
  destruct (state_evolves_insert_events es m) as (HO & _ & _).
  unfold model_objects. intros Ho. destruct (HO i o Ho) as (o' & Ho' & _ & Hr & Ha). eauto.
Qed.

Lemma back_references_only_grow_witness :
  model_objects (insert_events (firstn 3 scenario) OCED__init__) !! "o1"
    = Some (mk_object_rec "Person" true ["r1"] []) /\
  exists o', model_objects (insert_events (skipn 3 scenario)
                              (insert_events (firstn 3 scenario) OCED__init__)) !! "o1"
             = Some o' /\
    ["r1"] `prefix_of` object_relation_ids o' /\
    [] `prefix_of` object_attribute_value_ids o'.
Proof.
  split; [vm_compute; reflexivity|].
  apply (back_references_only_grow (insert_events (firstn 3 scenario) OCED__init__)
           (skipn 3 scenario) "o1" (mk_object_rec "Person" true ["r1"] [])).
  vm_compute. reflexivity.
Defined.

(** ** The history is append-only *)

Lemma history_extends_refl m : history_extends m m.
Proof. repeat split; reflexivity. Qed.

Lemma history_extends_trans m1 m2 m3 :
  history_extends m1 m2 -> history_extends m2 m3 -> history_extends m1 m3.
Proof.
  unfold history_extends. intros H12 H23.
  repeat match goal with H : _ /\ _ |- _ => destruct H end.
  repeat split; etrans; eassumption.
Qed.

Section HistoryExtends.
Variable m0 : OCED.

Lemma he_modify f :
  (forall m, history_extends m (f m)) -> preserves (history_extends m0) (modify f).
Proof.
  intros Hf. apply preserves_modify. intros m H.
  eapply history_extends_trans; [exact H | apply Hf].
Qed.

Ltac he_write :=
  unfold history_extends, concat_row; oced_simpl;
  repeat split; first [reflexivity | apply prefix_app_r; reflexivity].

Ltac he := preserve_with ltac:(apply he_modify; intros ?; he_write).

Lemma he_update_tables q k : preserves (history_extends m0) (update_tables q k).
Proof.
  destruct q; simpl;
    unfold create_object__update_tables, create_object_relation__update_tables,
      create_object_attribute_value__update_tables, delete_object__update_tables,
      cascade_relation_rows, cascade_attribute_value_rows,
      delete_object_relation__update_tables,
      delete_object_attribute_value__update_tables, modify_object__update_tables,
      modify_object_relation__update_tables,
      modify_object_attribute_value__update_tables, involve_object__update_tables,
      involve_object_relation__update_tables,
      involve_object_attribute_value__update_tables,
      junction, concat_if_new, concat_relation_row, concat_attribute_value_row;
    he.
Qed.

Lemma he_execute_qualifiers qs :
  preserves (fun s : OCED * involved_ids => history_extends m0 (fst s))
    (execute_qualifiers qs).
Proof.
  unfold execute_qualifiers. apply preserves_for_enumerate. intros i q.
  apply preserves_bind.
  - apply preserves_on_model, he_update_tables.
  - intros _. apply preserves_on_current_state. intros m cs H.
    eapply history_extends_trans; [exact H|]. he_write.
Qed.

Lemma he_Event__execute e : preserves (history_extends m0) (Event__execute e).
Proof.
  unfold Event__execute. apply preserves_bind; [| intros _].
  - unfold Event__execute_tables, concat_if_new. he.
  - intros m H.
    pose proof (he_execute_qualifiers (Event__qualifiers e) (m, no_involved_ids) H) as H'.
    destruct (execute_qualifiers _ _) as [r [m' inv']]. exact H'.
Qed.

Lemma he_insert_event e : preserves (history_extends m0) (insert_event e).
Proof.
  unfold insert_event.
  apply preserves_bind; [apply preserves_Event__precondition | intros _].
  apply preserves_bind; [apply he_Event__execute | intros _].
  unfold Event__log. he.
Qed.
End HistoryExtends.

(** X5. The history is append-only.  After any sequence of [insert_event]
    calls, accepted or rejected, each of the fourteen tables starts with the
    rows it had before, in the same order: no row is ever removed, changed
    or reordered. *)
Theorem history_is_append_only (es : list Event) (m : OCED) :
  history_extends m (insert_events es m).
Proof.
  unfold insert_events. revert m. induction es as [|e es IH]; intros m; simpl.
  - apply history_extends_refl.
  - eapply history_extends_trans; [|apply IH].
    apply (he_insert_event m e m), history_extends_refl.
Qed.

(** ** The log and the accepted events *)

Section LogIs.
Variable log : gmap nat (list log_entry).

Ltac log_write := apply preserves_modify; intros ? ?; unfold log_is in *; assumption.

Lemma log_update_tables q k : preserves (log_is log) (update_tables q k).
Proof.
  destruct q; simpl;
    unfold create_object__update_tables, create_object_relation__update_tables,
      create_object_attribute_value__update_tables, delete_object__update_tables,
      cascade_relation_rows, cascade_attribute_value_rows,
      delete_object_relation__update_tables,
      delete_object_attribute_value__update_tables, modify_object__update_tables,
      modify_object_relation__update_tables,
      modify_object_attribute_value__update_tables, involve_object__update_tables,
      involve_object_relation__update_tables,
      involve_object_attribute_value__update_tables,
      junction, concat_if_new, concat_relation_row, concat_attribute_value_row;
    preserve_with log_write.
Qed.

Lemma log_Event__execute e : preserves (log_is log) (Event__execute e).
Proof.
  unfold Event__execute. apply preserves_bind; [| intros _].
  - unfold Event__execute_tables, concat_if_new. preserve_with log_write.
  - intros m H.
    assert (Hq : preserves (fun s : OCED * involved_ids => log_is log (fst s))
                   (execute_qualifiers (Event__qualifiers e))).
    { unfold execute_qualifiers. apply preserves_for_enumerate. intros i q.
      apply preserves_bind.
      - apply preserves_on_model, log_update_tables.
      - intros _. apply preserves_on_current_state. intros m1 cs H1. exact H1. }
    pose proof (Hq (m, no_involved_ids) H) as H'.
    destruct (execute_qualifiers _ _) as [r [m' inv']]. exact H'.
Qed.
End LogIs.

(** What an accepted event leaves in the model besides its rows. *)
Lemma insert_event_Done_state e m :
  fst (insert_event e m) = Done tt ->
  OCED__event_counter (snd (insert_event e m)) = OCED__event_counter m + 1 /\
  OCED__log (snd (insert_event e m))
  = <[OCED__event_counter m := map qualifier__log (Event__qualifiers e)]> (OCED__log m) /\
  OCED__current_state (snd (insert_event e m))
  = replay_event (OCED__current_state m) (Event__qualifiers e).
Proof.
  intros Hres. destruct (insert_event_Done_effect e m Hres) as (_ & _ & _ & Hc & _).
  split; [exact Hc|].
  destruct (insert_event_cases e m) as [(x & _ & Hx) | (_ & m1 & Hexec & Hcs & Hm')].
  - rewrite Hx in Hres. discriminate.
  - rewrite Hm' in Hc |- *. simpl in *.
    pose proof (log_Event__execute (OCED__log m) e m eq_refl) as Hlog.
    rewrite Hexec in Hlog. unfold log_is in Hlog. simpl in Hlog.
    assert (Hc1 : OCED__event_counter m1 = OCED__event_counter m) by lia.
    rewrite Hlog, Hc1. split; [reflexivity | exact Hcs].
Qed.

Lemma accepted_length es : forall m, length (accepted es m) = count_inserted es m.
Proof.
  induction es as [|e es IH]; intros m; simpl; [reflexivity|].
  destruct (is_Raise (fst (insert_event e m))); simpl; rewrite IH; reflexivity.
Qed.

Lemma log_of_accepted es : forall m k,
  (forall j, OCED__event_counter m <= j -> OCED__log m !! j = None) ->
  OCED__log (insert_events es m) !! k
  = if decide (k < OCED__event_counter m) then OCED__log m !! k
    else (fun e => map qualifier__log (Event__qualifiers e))
           <$> accepted es m !! (k - OCED__event_counter m).
Proof.
  unfold insert_events. induction es as [|e es IH]; intros m k Hfree; simpl.
  - case_decide; [reflexivity|]. rewrite Hfree by lia. reflexivity.
  - destruct (fst (insert_event e m)) as [[]|x] eqn:Hres; simpl.
    + destruct (insert_event_Done_state e m Hres) as (Hc & Hlog & _).
      rewrite IH.
      * rewrite Hc, Hlog. repeat case_decide; try lia.
        -- rewrite lookup_insert_ne by lia. reflexivity.
        -- assert (k = OCED__event_counter m) as -> by lia.
           rewrite lookup_insert_eq, Nat.sub_diag. reflexivity.
        -- replace (k - OCED__event_counter m) with (S (k - (OCED__event_counter m + 1)))
             by lia. reflexivity.
      * intros j Hj. rewrite Hlog, Hc in *. rewrite lookup_insert_ne by lia.
        apply Hfree. lia.
    + rewrite insert_event_Raise_unchanged by (rewrite Hres; reflexivity).
      apply IH, Hfree.
Qed.

(** X6. The log lists the accepted events.  After any sequence of calls on
    a fresh model, the log maps [k] to the descriptions of the qualifiers of
    the [k]-th accepted event, in order, and has no other key: rejected
    events leave no entry and no gap. *)
Theorem log_lists_accepted_events (es : list Event) (k : nat) :
  OCED__log (insert_events es OCED__init__) !! k
  = (fun e => map qualifier__log (Event__qualifiers e)) <$> accepted es OCED__init__ !! k.
Proof.
  rewrite log_of_accepted by (intros j _; apply lookup_empty).
  simpl. rewrite Nat.sub_0_r. reflexivity.
Qed.

Lemma replay_of_accepted es : forall m,
  OCED__current_state (insert_events es m)
  = replay (map Event__qualifiers (accepted es m)) (OCED__current_state m).
Proof.
  unfold insert_events, replay. induction es as [|e es IH]; intros m; simpl; [reflexivity|].
  destruct (fst (insert_event e m)) as [[]|x] eqn:Hres; simpl.
  - destruct (insert_event_Done_state e m Hres) as (_ & _ & Hcs).
    rewrite IH, Hcs. reflexivity.
  - rewrite insert_event_Raise_unchanged by (rewrite Hres; reflexivity). apply IH.
Qed.

(** X7. The current state is the replay of the accepted events: running
    the qualifiers of the accepted events, event by event and in order, on
    the empty store gives the current state of the model; rejected events
    contribute nothing. *)
Theorem current_state_is_replay (es : list Event) :
  OCED__current_state (insert_events es OCED__init__)
  = replay (map Event__qualifiers (accepted es OCED__init__)) empty_current_state.
Proof. rewrite replay_of_accepted. reflexivity. Qed.

(** A log entry determines its qualifier: class and arguments. *)
Lemma qualifier__log_inj (q1 q2 : Qualifier) :
  qualifier__log q1 = qualifier__log q2 -> q1 = q2.
Proof.
  destruct q1, q2; simpl; intros H; try discriminate H; inversion H; reflexivity.
Qed.

Lemma map_qualifier__log_inj (qs1 qs2 : list Qualifier) :
  map qualifier__log qs1 = map qualifier__log qs2 -> qs1 = qs2.
Proof.
  revert qs2. induction qs1 as [|q1 qs1 IH]; intros [|q2 qs2] H;
    [reflexivity | discriminate H | discriminate H |].
  change (qualifier__log q1 :: map qualifier__log qs1
          = qualifier__log q2 :: map qualifier__log qs2) in H.
  pose proof (f_equal (hd (qualifier__log q1)) H) as Hq.
  pose proof (f_equal (@tl log_entry) H) as Hqs. cbn [hd tl] in Hq, Hqs.
  rewrite (qualifier__log_inj _ _ Hq), (IH _ Hqs). reflexivity.
Qed.

(** X8. The log determines the current state: two models built from a
    fresh model by any two sequences of calls, accepted or rejected, that
    have the same log have the same current state. *)
Theorem the_log_determines_the_current_state (es1 es2 : list Event) :
  OCED__log (insert_events es1 OCED__init__) = OCED__log (insert_events es2 OCED__init__) ->
  OCED__current_state (insert_events es1 OCED__init__)
  = OCED__current_state (insert_events es2 OCED__init__).
Proof.
  intros Hlog. rewrite !replay_of_accepted. f_equal.
  apply list_eq. intros k. rewrite !list_lookup_fmap.
  assert (Hk : OCED__log (insert_events es1 OCED__init__) !! k
               = OCED__log (insert_events es2 OCED__init__) !! k) by (rewrite Hlog; reflexivity).
  rewrite !log_of_accepted in Hk by (intros j _; apply lookup_empty).
  simpl in Hk. rewrite Nat.sub_0_r in Hk.
  destruct (accepted es1 OCED__init__ !! k) as [e1|],
    (accepted es2 OCED__init__ !! k) as [e2|]; simpl in *; try discriminate; [|reflexivity].
  injection Hk as Hk. f_equal. apply map_qualifier__log_inj, Hk.
Qed.

Lemma the_log_determines_the_current_state_witness :
  OCED__log (insert_events (scenario ++ [ev t4 [create_object "o1" "Person"]]) OCED__init__)
    = OCED__log (insert_events scenario OCED__init__) /\
  OCED__current_state
    (insert_events (scenario ++ [ev t4 [create_object "o1" "Person"]]) OCED__init__)
  = OCED__current_state (insert_events scenario OCED__init__).
Proof.
  split; [vm_compute; reflexivity|].
  apply (the_log_determines_the_current_state
           (scenario ++ [ev t4 [create_object "o1" "Person"]]) scenario).
  vm_compute. reflexivity.
Defined.

(** ** Rejected calls *)

(** X9. Rejected calls leave no trace.  Dropping from a sequence of
    [insert_event] calls the ones that raised gives the same model, every
    table, the log, the current state and the counter; and each of the
    remaining calls is accepted again. *)
Theorem rejected_events_leave_no_trace (es : list Event) (m : OCED) :
  insert_events (accepted es m) m = insert_events es m /\
  accepted (accepted es m) m = accepted es m.
Proof.
  unfold insert_events. revert m. induction es as [|e es IH]; intros m; simpl; [auto|].
  destruct (is_Raise (fst (insert_event e m))) eqn:Hres.
  - rewrite (insert_event_Raise_unchanged e m Hres). apply IH.
  - simpl. rewrite Hres. destruct (IH (snd (insert_event e m))) as [IH1 IH2].
    split; [exact IH1 | f_equal; exact IH2].
Qed.

(** ** The one [ValueError] *)

Lemma fold_str_max_in column : forall t,
  fold_left str_max column t = t \/ fold_left str_max column t ∈ column.
Proof.
  induction column as [|a column IH]; intros t; simpl; [auto|].
  destruct (IH (str_max t a)) as [H | H].
  - rewrite H. unfold str_max. destruct (String.ltb t a); [right; left | left; reflexivity].
  - right. right. exact H.
Qed.

Lemma column_max_in column max_time :
  column_max column = Some max_time -> max_time ∈ column.
Proof.
  destruct column as [|t column]; [discriminate|]. simpl. intros [= <-].
  destruct (fold_str_max_in column t) as [-> | H]; [left | right; exact H].
Qed.

Lemma nr_for_enumerate {St A : Type} x (l : list A) (body : nat -> A -> M St unit) i :
  (forall i a, never_raises x (body i a)) -> never_raises x (for_enumerate i l body).
Proof.
  intros Hb. revert i. induction l as [|a l IH]; intros i; simpl; [apply nr_ret|].
  apply nr_bind; [apply Hb | intros _; apply IH].
Qed.

(** X10. [insert_event] raises [ValueError] exactly when the event's time
    is at or before a time already committed: no failure of a qualifier is
    ever reported as a [ValueError]. *)
Theorem ValueError_exactly_on_stale_time (e : Event) (m : OCED) :
  fst (insert_event e m) = Raise ValueError <->
  exists t, t ∈ OCED__event_time m /\ str_le (Event__event_time e) t.
Proof.
  split.
  - destruct (insert_event_cases e m) as [(x & Hx & ->) | (_ & m1 & _ & _ & ->)];
      [simpl; intros [= ->] | discriminate].
    revert Hx. unfold Event__precondition, bind, gets, raise.
    destruct (column_max (OCED__event_time m)) as [max_time|] eqn:Hmax.
    + destruct (String.leb (Event__event_time e) max_time) eqn:Hle.
      * intros _. exists max_time. split; [apply column_max_in, Hmax | exact Hle].
      * simpl. intros H. exfalso. revert H. unfold validate_qualifiers.
        apply nr_for_enumerate. intros i q. apply qualifier_never_raises_ValueError.
    + simpl. intros H. exfalso. revert H. unfold validate_qualifiers.
      apply nr_for_enumerate. intros i q. apply qualifier_never_raises_ValueError.
  - intros (t & Ht & Hle). destruct (column_max_ge _ _ Ht) as (max_time & Hmax & Hle').
    pose proof (Event__precondition_late e m max_time Hmax (str_le_trans _ _ _ Hle Hle'))
      as Hpre.
    destruct (insert_event_cases e m) as [(x & Hx & ->) | (Hd & _)]; [simpl|]; congruence.
Qed.

Lemma ValueError_exactly_on_stale_time_witness :
  fst (insert_event (ev t3 [create_object "o9" "Order"]) (insert_events scenario OCED__init__))
  = Raise ValueError.
Proof.
  apply (proj2 (ValueError_exactly_on_stale_time (ev t3 [create_object "o9" "Order"])
                  (insert_events scenario OCED__init__))).
  exists t4. split; [vm_compute | vm_compute; reflexivity].
  apply elem_of_cons. right. apply elem_of_cons. right. apply elem_of_cons. right.
  apply elem_of_cons. left. reflexivity.
Defined.

(** ** Every accepted qualifier is recorded *)

Section ReturnsWith.
Context {St : Type}.
Variables P Q : St -> Prop.

Lemma rw_bind_l {A B : Type} (c : M St A) (k : A -> M St B) :
  returns_with P c Q -> (forall a, preserves Q (k a)) -> returns_with P (bind c k) Q.
Proof.
  intros Hc Hk s HP. unfold bind. specialize (Hc s HP).
  destruct (c s) as [[a|x] s1]; simpl in *; [|discriminate].
  intros _. apply Hk, Hc. reflexivity.
Qed.

Lemma rw_bind_r {A B : Type} (c : M St A) (k : A -> M St B) :
  preserves P c -> (forall a, returns_with P (k a) Q) -> returns_with P (bind c k) Q.
Proof.
  intros Hc Hk s HP. unfold bind. specialize (Hc s HP).
  destruct (c s) as [[a|x] s1]; simpl in *; [|discriminate].
  apply Hk, Hc.
Qed.

Lemma rw_for_enumerate {A : Type} (R : nat -> A -> St -> Prop) (l : list A) body :
  (forall i x, preserves P (body i x)) ->
  (forall i x j y, preserves (R i x) (body j y)) ->
  (forall i x, returns_with P (body i x) (R i x)) ->
  forall n j x, l !! j = Some x ->
    returns_with P (for_enumerate n l body) (R (n + j) x).
Proof.
  intros HP HR Hb. induction l as [|y l IH]; intros n j x Hj; [discriminate|].
  simpl. destruct j as [|j]; simpl in Hj.
  - injection Hj as ->. rewrite Nat.add_0_r. intros s Hs. unfold bind.
    pose proof (Hb n x s Hs) as H1.
    destruct (body n x s) as [[[]|e] s1]; simpl in *; [|discriminate].
    intros _. apply preserves_for_enumerate; [intros; apply HR | apply H1; reflexivity].
  - replace (n + S j) with (S n + j) by lia. intros s Hs. unfold bind.
    pose proof (HP n y s Hs) as H1.
    destruct (body n y s) as [[[]|e] s1]; simpl in *; [|discriminate].
    apply (IH (S n) j x Hj), H1.
Qed.
End ReturnsWith.

Ltac unfold_update_tables :=
  unfold create_object__update_tables, create_object_relation__update_tables,
    create_object_attribute_value__update_tables, delete_object__update_tables,
    cascade_relation_rows, cascade_attribute_value_rows,
    delete_object_relation__update_tables,
    delete_object_attribute_value__update_tables, modify_object__update_tables,
    modify_object_relation__update_tables,
    modify_object_attribute_value__update_tables, involve_object__update_tables,
    involve_object_relation__update_tables,
    involve_object_attribute_value__update_tables.

Section Recorded.
Variable k : nat.

Lemma at_event_update_tables q i : preserves (at_event k) (update_tables q i).
Proof.
  destruct q; simpl; unfold_update_tables;
    unfold junction, concat_if_new, concat_relation_row, concat_attribute_value_row;
    preserve_with ltac:(apply preserves_modify; intros ? ?; assumption).
Qed.

Lemma recorded_update_tables q i q' i' : preserves (recorded k q i) (update_tables q' i').
Proof.
  destruct q'; simpl; unfold_update_tables;
    unfold junction, concat_if_new, concat_relation_row, concat_attribute_value_row;
    preserve_with
      ltac:(apply preserves_modify; intros ? [? ?]; split; [assumption|];
            destruct q; simpl in *; try assumption;
            unfold concat_row; apply elem_of_app; left; assumption).
Qed.

Lemma rw_junction_object t qt i :
  returns_with (at_event k) (junction upd_OCED__event_x_object t qt i)
    (fun m => OCED__event_counter m = k /\ mk_junction_row k t qt i ∈ OCED__event_x_object m).
Proof.
  intros m Hm _. unfold at_event in Hm. unfold junction, bind, gets, modify. simpl.
  split; [exact Hm|]. rewrite Hm. unfold concat_row. apply elem_of_app. right. left.
Qed.

Lemma rw_junction_relation t qt i :
  returns_with (at_event k) (junction upd_OCED__event_x_object_relation t qt i)
    (fun m => OCED__event_counter m = k /\
              mk_junction_row k t qt i ∈ OCED__event_x_object_relation m).
Proof.
  intros m Hm _. unfold at_event in Hm. unfold junction, bind, gets, modify. simpl.
  split; [exact Hm|]. rewrite Hm. unfold concat_row. apply elem_of_app. right. left.
Qed.

Lemma rw_junction_attribute_value t qt i :
  returns_with (at_event k) (junction upd_OCED__event_x_object_attribute_value t qt i)
    (fun m => OCED__event_counter m = k /\
              mk_junction_row k t qt i ∈ OCED__event_x_object_attribute_value m).
Proof.
  intros m Hm _. unfold at_event in Hm. unfold junction, bind, gets, modify. simpl.
  split; [exact Hm|]. rewrite Hm. unfold concat_row. apply elem_of_app. right. left.
Qed.

(** The junction row of a qualifier is written by its [__update_tables],
    and kept by what follows it there: the cascade of [delete_object]. *)
Lemma update_tables_records q i :
  returns_with (at_event k) (update_tables q i) (recorded k q i).
Proof.
  unfold recorded, junction_row_of.
  destruct q; simpl; unfold_update_tables;
    repeat first
      [ apply rw_junction_object | apply rw_junction_relation
      | apply rw_junction_attribute_value
      | apply rw_bind_l;
        [ first [ apply rw_junction_object | apply rw_junction_relation
                | apply rw_junction_attribute_value ]
        | intros _;
          unfold junction, concat_if_new, concat_relation_row, concat_attribute_value_row;
          preserve_with
            ltac:(apply preserves_modify; intros ? [? ?]; split; [assumption|];
                  simpl; assumption) ]
      | apply rw_bind_r;
        [ unfold junction, concat_if_new, concat_relation_row, concat_attribute_value_row;
          preserve_with ltac:(apply preserves_modify; intros ? ?; assumption)
        | intros ? ] ].
Qed.

Lemma execute_qualifiers_records qs j q :
  qs !! j = Some q ->
  returns_with (fun s : OCED * involved_ids => at_event k (fst s)) (execute_qualifiers qs)
    (fun s => recorded k q j (fst s)).
Proof.
  intros Hj. unfold execute_qualifiers.
  apply (rw_for_enumerate (fun s : OCED * involved_ids => at_event k (fst s))
           (fun i x s => recorded k x i (fst s)) qs _) with (n := 0) (j := j) (x := q);
    [| | | exact Hj].
  - intros i x. apply preserves_bind; [| intros _].
    + apply (preserves_on_model (at_event k)), at_event_update_tables.
    + apply (preserves_on_current_state (at_event k)). intros m cs H. exact H.
  - intros i x i' x'. apply preserves_bind; [| intros _].
    + apply (preserves_on_model (recorded k x i)), recorded_update_tables.
    + apply (preserves_on_current_state (recorded k x i)). intros m cs [H1 H2].
      split; [exact H1 | destruct x; exact H2].
  - intros i x. apply rw_bind_l; [| intros _].
    + intros [m inv] Hm. unfold on_model. simpl in *.
      pose proof (update_tables_records x i m Hm) as H.
      destruct (update_tables x i m) as [r m']. exact H.
    + apply (preserves_on_current_state (recorded k x i)). intros m cs [H1 H2].
      split; [exact H1 | destruct x; exact H2].
Qed.
End Recorded.

Lemma junction_table_extends q m m' row :
  history_extends m m' -> row ∈ junction_table q m -> row ∈ junction_table q m'.
Proof.
  intros H Hrow. unfold history_extends in H.
  repeat match goal with H : _ /\ _ |- _ => destruct H end.
  destruct q; simpl in *; eapply elem_of_prefix; eassumption.
Qed.

Lemma history_extends_insert_events es : forall m, history_extends m (insert_events es m).
Proof.
  unfold insert_events. induction es as [|e es IH]; intros m; simpl.
  - apply history_extends_refl.
  - eapply history_extends_trans; [|apply IH].
    apply (he_insert_event m e m), history_extends_refl.
Qed.

(** An accepted event leaves the row of each of its qualifiers. *)
Lemma insert_event_records e m j q :
  fst (insert_event e m) = Done tt ->
  Event__qualifiers e !! j = Some q ->
  junction_row_of (OCED__event_counter m) q j ∈ junction_table q (snd (insert_event e m)).
Proof.
  intros Hres Hj.
  destruct (insert_event_cases e m) as [(x & _ & Hx) | (_ & m1 & Hexec & _ & Hm')].
  { rewrite Hx in Hres. discriminate. }
  rewrite Hm'. simpl.
  destruct (Event__execute_tables_effect e m) as (m0 & Hm0 & _ & _ & Hc & _).
  unfold Event__execute in Hexec. rewrite (bind_Done _ _ _ _ _ Hm0) in Hexec.
  pose proof (execute_qualifiers_records (OCED__event_counter m) (Event__qualifiers e) j q Hj
                (m0, no_involved_ids) Hc) as H.
  destruct (execute_qualifiers _ _) as [r [m1' inv']]. injection Hexec as -> ->.
  destruct (H eq_refl) as [_ Hrow]. simpl in Hrow. destruct q; exact Hrow.
Qed.

Lemma accepted_are_recorded es : forall m k e j q,
  accepted es m !! k = Some e ->
  Event__qualifiers e !! j = Some q ->
  junction_row_of (OCED__event_counter m + k) q j ∈ junction_table q (insert_events es m).
Proof.
  induction es as [|e0 es IH]; intros m k e j q Hk Hj; [discriminate|].
  simpl in Hk. change (insert_events (e0 :: es) m) with (insert_events es (snd (insert_event e0 m))).
  destruct (fst (insert_event e0 m)) as [[]|x] eqn:Hres; simpl in Hk.
  - destruct (insert_event_Done_state e0 m Hres) as (Hc & _).
    destruct k as [|k]; simpl in Hk.
    + injection Hk as ->. rewrite Nat.add_0_r.
      eapply junction_table_extends; [apply history_extends_insert_events|].
      apply insert_event_records; assumption.
    + replace (OCED__event_counter m + S k)
        with (OCED__event_counter (snd (insert_event e0 m)) + k) by lia.
      eapply IH; eassumption.
  - rewrite insert_event_Raise_unchanged by (rewrite Hres; reflexivity).
    rewrite insert_event_Raise_unchanged in Hk by (rewrite Hres; reflexivity).
    eapply IH; eassumption.
Qed.

(** X11. Every accepted qualifier is recorded.  After any sequence of calls
    on a fresh model, the qualifier at index [j] of the [k]-th accepted
    event has its row in the junction table of its kind of entity: the
    event id [k], the id the qualifier acts on, its type ([CREATE],
    [DELETE], [MODIFY] or [INVOLVE]) and the index [j]. *)
Theorem accepted_qualifiers_are_recorded (es : list Event) (k j : nat) (e : Event)
    (q : Qualifier) :
  accepted es OCED__init__ !! k = Some e ->
  Event__qualifiers e !! j = Some q ->
  mk_junction_row k (target_id q) (qualifier_type q) j
    ∈ junction_table q (insert_events es OCED__init__).
Proof.
  intros Hk Hj. apply (accepted_are_recorded es OCED__init__ k e j q Hk Hj).
Qed.

Lemma accepted_qualifiers_are_recorded_witness :
  accepted scenario OCED__init__ !! 3 = Some (ev t4 [delete_object "o1"]) /\
  Event__qualifiers (ev t4 [delete_object "o1"]) !! 0 = Some (delete_object "o1") /\
  mk_junction_row 3 "o1" "DELETE" 0 ∈ OCED__event_x_object (insert_events scenario OCED__init__).
Proof.
  split; [vm_compute; reflexivity|]. split; [reflexivity|].
  apply (accepted_qualifiers_are_recorded scenario 3 0 (ev t4 [delete_object "o1"])
           (delete_object "o1")).
  - vm_compute. reflexivity.
  - reflexivity.
Defined.

(** ** The steps of a commit *)

(** The current-state half of a step of [Event.__execute], for a property
    of the model that asks of the store what the qualifier keeps. *)
Lemma preserves_on_current_state_of {A : Type} (P : OCED -> Prop)
    (Pcs : current_state -> Prop) (c : M ucs A) :
  (forall m, P m -> Pcs (OCED__current_state m)) ->
  (forall m cs, P m -> Pcs cs -> P (upd_OCED__current_state (fun _ => cs) m)) ->
  preserves (fun s : ucs => Pcs (fst s)) c ->
  preserves (fun s : OCED * involved_ids => P (fst s)) (on_current_state c).
Proof.
  intros H1 H2 Hc [m inv] H. unfold on_current_state. simpl in *.
  pose proof (Hc (OCED__current_state m, inv) (H1 m H)) as Hcs.
  destruct (c (OCED__current_state m, inv)) as [r [cs' inv']]. simpl in *.
  apply H2; assumption.
Qed.

Lemma preserves_Event__execute (P : OCED -> Prop) e :
  preserves P (Event__execute_tables e) ->
  preserves (fun s : OCED * involved_ids => P (fst s))
    (execute_qualifiers (Event__qualifiers e)) ->
  preserves P (Event__execute e).
Proof.
  intros Ht Hq. unfold Event__execute. apply preserves_bind; [exact Ht | intros _].
  intros m H. pose proof (Hq (m, no_involved_ids) H) as H'.
  destruct (execute_qualifiers _ _) as [r [m' inv']]. exact H'.
Qed.

Lemma preserves_insert_event (P : OCED -> Prop) e :
  preserves P (Event__execute e) ->
  (forall m f, P m -> P (upd_OCED__log f m)) ->
  (forall m f, P m -> P (upd_OCED__event_counter f m)) ->
  preserves P (insert_event e).
Proof.
  intros He Hl Hc. unfold insert_event.
  apply preserves_bind; [apply preserves_Event__precondition | intros _].
  apply preserves_bind; [exact He | intros _].
  apply preserves_bind; [| intros _; apply preserves_modify; intros m; apply Hc].
  unfold Event__log. apply preserves_bind; [apply preserves_gets | intros k].
  apply preserves_modify. intros m. apply Hl.
Qed.

Ltac unfold_update_current_state :=
  unfold create_object__update_current_state,
    create_object_relation__update_current_state,
    create_object_attribute_value__update_current_state,
    delete_object__update_current_state, cascade_relation, cascade_attribute_value,
    delete_object_relation__update_current_state,
    delete_object_attribute_value__update_current_state,
    modify_object__update_current_state, modify_object_relation__update_current_state,
    modify_object_attribute_value__update_current_state,
    involve_object__update_current_state, involve_object_relation__update_current_state,
    involve_object_attribute_value__update_current_state.

(** ** Events that only involve *)

Lemma involve_keeps_current_state cs0 q k :
  is_involve q = true ->
  preserves (fun s : ucs => fst s = cs0) (update_current_state q k).
Proof.
  destruct q; try discriminate; intros _; simpl; unfold_update_current_state;
    preserve_with ltac:(apply preserves_modify; intros [? ?] ?; assumption).
Qed.

(** X12. An event that only involves changes no entity.  Whether it is
    accepted or rejected, an event whose qualifiers are all [involve_*]
    leaves the current state and the six tables of objects, relations and
    attribute values as they were. *)
Theorem involve_only_event_changes_no_entity (e : Event) (m : OCED) :
  forallb is_involve (Event__qualifiers e) = true ->
  OCED__current_state (snd (insert_event e m)) = OCED__current_state m /\
  entity_tables_are m (snd (insert_event e m)).
Proof.
  intros Hq.
  assert (HF : Forall (fun q => is_involve q = true) (Event__qualifiers e)).
  { apply List.Forall_forall, (proj1 (List.forallb_forall _ _) Hq). }
  apply (preserves_insert_event
           (fun m' => OCED__current_state m' = OCED__current_state m /\ entity_tables_are m m'));
    [| intros ? ? H; exact H | intros ? ? H; exact H
     | split; [reflexivity | repeat split; reflexivity]].
  apply preserves_Event__execute.
  - unfold Event__execute_tables, concat_if_new.
    preserve_with ltac:(apply preserves_modify; intros ? ?; assumption).
  - unfold execute_qualifiers. apply preserves_for_enumerate_Forall with (2 := HF).
    intros i q Hi. apply preserves_bind; [| intros _].
    + apply (preserves_on_model
               (fun m' => OCED__current_state m' = OCED__current_state m /\
                          entity_tables_are m m')).
      destruct q; try discriminate; simpl; unfold_update_tables; unfold junction;
        preserve_with ltac:(apply preserves_modify; intros ? ?; assumption).
    + apply (preserves_on_current_state_of
               (fun m' => OCED__current_state m' = OCED__current_state m /\
                          entity_tables_are m m')
               (fun cs => cs = OCED__current_state m)).
      * intros m' [H _]. exact H.
      * intros m' cs [_ H] ->. split; [reflexivity | exact H].
      * apply involve_keeps_current_state, Hi.
Qed.

Lemma involve_only_event_changes_no_entity_witness :
  forallb is_involve (Event__qualifiers (ev t5 [involve_object "o2"]))
    = true /\
  OCED__current_state (snd (insert_event (ev t5 [involve_object "o2"])
                              (insert_events scenario OCED__init__)))
    = OCED__current_state (insert_events scenario OCED__init__) /\
  entity_tables_are (insert_events scenario OCED__init__)
    (snd (insert_event (ev t5 [involve_object "o2"])
            (insert_events scenario OCED__init__))).
Proof.
  split; [reflexivity|].
  apply (involve_only_event_changes_no_entity
           (ev t5 [involve_object "o2"])
           (insert_events scenario OCED__init__)).
  reflexivity.
Defined.

(** ** No relation joins an object to itself *)

Lemma no_self_relation_alter (f : object_relation_rec -> object_relation_rec) i rels :
  (forall r, rel_from_object_id (f r) = rel_from_object_id r /\
             rel_to_object_id (f r) = rel_to_object_id r) ->
  no_self_relation rels -> no_self_relation (alter f i rels).
Proof.
  intros Hf H j r' Hj. destruct (decide (i = j)) as [->|Hne].
  - rewrite lookup_alter_eq in Hj. destruct (rels !! j) as [r|] eqn:Hr; [|discriminate].
    injection Hj as <-. destruct (Hf r) as [-> ->]. eapply H, Hr.
  - rewrite lookup_alter_ne in Hj by exact Hne. eapply H, Hj.
Qed.

Lemma no_self_relation_insert i ty b f t rels :
  f <> t -> no_self_relation rels ->
  no_self_relation (<[i := mk_object_relation_rec ty b f t]> rels).
Proof.
  intros Hne H j r Hj. destruct (decide (i = j)) as [->|Hij].
  - rewrite lookup_insert_eq in Hj. injection Hj as <-. exact Hne.
  - rewrite lookup_insert_ne in Hj by exact Hij. eapply H, Hj.
Qed.

Lemma constructible_relation i f t ty : constructible (create_object_relation i f t ty) -> f <> t.
Proof.
  unfold constructible. simpl. destruct (String.eqb f t) eqn:Heq; [discriminate|].
  intros _. apply String.eqb_neq, Heq.
Qed.

Ltac on_modify tac :=
  idtac; match goal with |- preserves _ (modify _) => apply preserves_modify; tac end.

Lemma no_self_relation_update_current_state q k :
  constructible q ->
  preserves (fun s : ucs => no_self_relation (the_relations s)) (update_current_state q k).
Proof.
  intros Hq. destruct q; simpl; try apply constructible_relation in Hq;
    unfold_update_current_state;
    preserve_with
      ltac:(on_modify
              ltac:(intros [[? ? ?] ?] ?; ucs_simpl;
                    first [ assumption
                          | apply no_self_relation_alter;
                            [intros []; split; reflexivity | assumption]
                          | apply no_self_relation_insert; assumption ])).
Qed.

Lemma no_self_relation_update_tables q k :
  constructible q -> preserves no_self_relation_in (update_tables q k).
Proof.
  assert (Hcr : forall i (ty : object_relation_rec -> string) b,
            preserves no_self_relation_in (concat_relation_row i ty b)).
  { intros i ty b m [H1 H2]. unfold concat_relation_row, bind, getitem.
    destruct (model_relations m !! i) as [r|] eqn:Hr; simpl; [|split; assumption].
    split; [exact H1|]. intros row Hrow. apply elem_of_concat_row in Hrow.
    destruct Hrow as [Hrow | ->]; [auto | simpl; eapply H1, Hr]. }
  intros Hq. destruct q; simpl; try apply constructible_relation in Hq;
    unfold_update_tables; unfold junction, concat_if_new, concat_attribute_value_row;
    preserve_with
      ltac:(first
              [ apply Hcr
              | on_modify
                  ltac:(intros ? [? ?]; split; [assumption|]; oced_simpl;
                        first [ assumption
                              | intros row Hrow; apply elem_of_concat_row in Hrow;
                                destruct Hrow as [Hrow | ->]; [auto | simpl; assumption] ]) ]).
Qed.

Lemma no_self_relation_insert_event e :
  Forall constructible (Event__qualifiers e) ->
  preserves no_self_relation_in (insert_event e).
Proof.
  intros HF. apply preserves_insert_event; [| intros ? ? H; exact H | intros ? ? H; exact H].
  apply preserves_Event__execute.
  - unfold Event__execute_tables, concat_if_new.
    preserve_with ltac:(on_modify ltac:(intros ? ?; assumption)).
  - unfold execute_qualifiers. apply preserves_for_enumerate_Forall with (2 := HF).
    intros i q Hq. apply preserves_bind; [| intros _].
    + apply (preserves_on_model no_self_relation_in), no_self_relation_update_tables, Hq.
    + apply (preserves_on_current_state_of no_self_relation_in
               (fun cs => no_self_relation (cs_object_relation cs))).
      * intros m [H _]. exact H.
      * intros m cs [_ H] Hcs. split; [exact Hcs | exact H].
      * apply no_self_relation_update_current_state, Hq.
Qed.

(** X13. No relation joins an object to itself.  After any sequence of
    calls on a fresh model whose qualifiers are ones their [__init__]
    accepts ([create_object_relation] refuses equal endpoints), every
    relation of the current state and every row of the relation table has
    two different endpoints. *)
Theorem no_relation_joins_an_object_to_itself (es : list Event) :
  Forall (fun e => Forall constructible (Event__qualifiers e)) es ->
  (forall i r, model_relations (insert_events es OCED__init__) !! i = Some r ->
     rel_from_object_id r <> rel_to_object_id r) /\
  (forall row, row ∈ OCED__object_relation (insert_events es OCED__init__) ->
     row_from_object_id row <> row_to_object_id row).
Proof.
  unfold insert_events.
  assert (H : no_self_relation_in OCED__init__).
  { split; [intros i r Hi; unfold model_relations in Hi; simpl in Hi;
           rewrite lookup_empty in Hi; discriminate|].
    intros row Hrow. apply not_elem_of_nil in Hrow. contradiction. }
  revert H. generalize OCED__init__.
  induction es as [|e es IH]; intros m H HF; simpl; [exact H|].
  apply Forall_cons in HF. destruct HF as [He Hes].
  apply IH; [apply no_self_relation_insert_event; assumption | exact Hes].
Qed.

Lemma no_relation_joins_an_object_to_itself_witness :
  Forall (fun e => Forall constructible (Event__qualifiers e)) scenario /\
  (forall i r, model_relations (insert_events scenario OCED__init__) !! i = Some r ->
     rel_from_object_id r <> rel_to_object_id r) /\
  (forall row, row ∈ OCED__object_relation (insert_events scenario OCED__init__) ->
     row_from_object_id row <> row_to_object_id row).
Proof.
  split; [repeat constructor|].
  apply (no_relation_joins_an_object_to_itself scenario). repeat constructor.
Defined.

(** ** The history agrees with the current state *)

Section Latest.
Context {A V : Type}.
Variable key : A -> string.
Variable row_of : string -> V -> A.
Hypothesis key_row_of : forall i v, key (row_of i v) = i.

Lemma latest_row_app i (table rows : list A) :
  latest_row key i (table ++ rows)
  = match latest_row key i rows with
    | Some row => Some row
    | None => latest_row key i table
    end.
Proof. unfold latest_row. rewrite filter_app, last_app. reflexivity. Qed.

Lemma latest_row_singleton i row :
  latest_row key i [row] = if decide (key row = i) then Some row else None.
Proof.
  unfold latest_row. rewrite filter_cons, filter_nil. case_decide; reflexivity.
Qed.

Lemma latest_row_nil i : latest_row key i [] = None.
Proof. reflexivity. Qed.

Lemma latest_row_flat_map (g : string -> list A) ids j :
  (forall a, g a = [] \/ exists row, g a = [row] /\ key row = a) ->
  latest_row key j (flat_map g ids) = if decide (j ∈ ids) then last (g j) else None.
Proof.
  intros Hg. induction ids as [|a ids IH].
  - destruct (decide (j ∈ [])) as [Hj|]; [|reflexivity].
    apply not_elem_of_nil in Hj. contradiction.
  - simpl. rewrite latest_row_app, IH.
    assert (Ha : latest_row key j (g a) = if decide (a = j) then last (g a) else None).
    { destruct (Hg a) as [-> | (row & -> & Hrow)].
      - rewrite latest_row_nil. destruct (decide (a = j)); reflexivity.
      - rewrite latest_row_singleton, Hrow. reflexivity. }
    rewrite Ha.
    destruct (decide (j ∈ ids)) as [Hin|Hin], (decide (j ∈ a :: ids)) as [Hj|Hj],
      (decide (a = j)) as [->|Hne]; try reflexivity;
      try (destruct Hj; apply elem_of_cons; auto; fail).
    + destruct (last (g j)); reflexivity.
    + destruct (last (g j)); reflexivity.
    + apply elem_of_cons in Hj. destruct Hj; [congruence | contradiction].
Qed.

(** A row for [i] at the end of the table, and its record in the store. *)
Lemma latest_insert table d i v :
  latest key row_of table d -> latest key row_of (table ++ [row_of i v]) (<[i:=v]> d).
Proof.
  intros H j. rewrite latest_row_app, latest_row_singleton, key_row_of.
  case_decide as Hij.
  - subst. rewrite lookup_insert_eq. reflexivity.
  - rewrite lookup_insert_ne by exact Hij. apply H.
Qed.

(** A change of a record that its row does not show. *)
Lemma latest_alter_hidden table d i f :
  (forall v, row_of i (f v) = row_of i v) ->
  latest key row_of table d -> latest key row_of table (alter f i d).
Proof.
  intros Hf H j. rewrite H, lookup_alter. case_decide as Hij; [|reflexivity].
  subst. destruct (d !! j); simpl; [rewrite Hf|]; reflexivity.
Qed.

(** The agreement after a step: the latest row among the appended ones,
    or else the row the store had. *)
Lemma latest_step table rows d d' :
  latest key row_of table d -> follows key row_of rows d d' ->
  latest key row_of (table ++ rows) d'.
Proof. intros H Hd j. rewrite latest_row_app, Hd, H. reflexivity. Qed.

Lemma follows_nil d : follows key row_of [] d d.
Proof. intros j. reflexivity. Qed.

Lemma follows_hidden rows d d' i f :
  (forall v, row_of i (f v) = row_of i v) ->
  follows key row_of rows d d' -> follows key row_of rows d (alter f i d').
Proof.
  intros Hf H j. rewrite <- H, lookup_alter. case_decide as Hij; [|reflexivity].
  subst. destruct (d' !! j); simpl; [rewrite Hf|]; reflexivity.
Qed.

Lemma follows_insert d i v : follows key row_of [row_of i v] d (<[i:=v]> d).
Proof.
  intros j. rewrite latest_row_singleton, key_row_of. case_decide as Hij.
  - subst. rewrite lookup_insert_eq. reflexivity.
  - rewrite lookup_insert_ne by exact Hij. reflexivity.
Qed.

Lemma follows_alter d i f v :
  d !! i = Some v -> follows key row_of [row_of i (f v)] d (alter f i d).
Proof.
  intros Hv j. rewrite latest_row_singleton, key_row_of, lookup_alter. case_decide as Hij.
  - subst. rewrite Hv. reflexivity.
  - reflexivity.
Qed.

Lemma follows_cascade (g : string -> list A) (live : V -> bool) f ids d :
  (forall a, g a = match d !! a with
                   | Some v => if live v then [row_of a (f v)] else []
                   | None => []
                   end) ->
  (forall v, live v = false -> f v = v) ->
  (forall v, f (f v) = f v) ->
  follows key row_of (flat_map g ids) d (fold_left (fun d i => alter f i d) ids d).
Proof.
  intros Hg Hlive Hidem j. rewrite (lookup_clear f ids d j Hidem), latest_row_flat_map.
  - destruct (decide (j ∈ ids)) as [Hj|Hj]; [|reflexivity].
    rewrite Hg. destruct (d !! j) as [v|]; [|reflexivity]. simpl.
    destruct (live v) eqn:Hv; simpl; [reflexivity|]. rewrite Hlive by exact Hv. reflexivity.
  - intros a. rewrite Hg. destruct (d !! a) as [v|]; [|auto].
    destruct (live v); [|auto]. right. eexists. split; [reflexivity | apply key_row_of].
Qed.
End Latest.

Lemma appends_refl m : appends [] [] [] m m.
Proof. unfold appends. rewrite !app_nil_r. auto. Qed.

Lemma appends_trans ro1 rr1 ra1 ro2 rr2 ra2 m m1 m2 :
  appends ro1 rr1 ra1 m m1 -> appends ro2 rr2 ra2 m1 m2 ->
  appends (ro1 ++ ro2) (rr1 ++ rr2) (ra1 ++ ra2) m m2.
Proof.
  intros (H1 & H2 & H3 & H4) (G1 & G2 & G3 & G4). unfold appends.
  rewrite G1, G2, G3, G4, H1, H2, H3, H4, !app_assoc. auto.
Qed.

Ltac tables_inv :=
  unfold junction, concat_if_new, concat_relation_row, concat_attribute_value_row,
    bind, gets, modify, getitem, ret, model_objects, model_relations,
    model_attribute_values;
  simpl;
  repeat match goal with
         | |- context [match ?d !! ?i with _ => _ end] => destruct (d !! i) eqn:?; simpl
         | |- context [if ?b then _ else _] => destruct b eqn:?; simpl
         end;
  try discriminate;
  intros ?; simplify_eq; unfold appends, concat_row; simpl; rewrite ?app_nil_r; auto.

Lemma cascade_relation_rows_appends k i m m' :
  cascade_relation_rows k i m = (Done tt, m') ->
  appends [] (dead_relation_rows (OCED__current_state m) i) [] m m'.
Proof.
  unfold cascade_relation_rows, dead_relation_rows. tables_inv.
Qed.

Lemma cascade_attribute_value_rows_appends k i m m' :
  cascade_attribute_value_rows k i m = (Done tt, m') ->
  appends [] [] (dead_attribute_value_rows (OCED__current_state m) i) m m'.
Proof.
  unfold cascade_attribute_value_rows, dead_attribute_value_rows. tables_inv.
Qed.

Lemma cascade_relations_rows_appends k ids : forall m m',
  for_each ids (cascade_relation_rows k) m = (Done tt, m') ->
  appends [] (flat_map (dead_relation_rows (OCED__current_state m)) ids) [] m m'.
Proof.
  induction ids as [|i ids IH]; intros m m' H; simpl in *.
  - injection H as <-. apply appends_refl.
  - apply bind_Done_inv in H. destruct H as ([] & m1 & H1 & H2).
    apply cascade_relation_rows_appends in H1. apply IH in H2.
    assert (Hcs : OCED__current_state m1 = OCED__current_state m) by apply H1.
    rewrite Hcs in H2. apply (appends_trans _ _ _ _ _ _ _ _ _ H1 H2).
Qed.

Lemma cascade_attribute_values_rows_appends k ids : forall m m',
  for_each ids (cascade_attribute_value_rows k) m = (Done tt, m') ->
  appends [] [] (flat_map (dead_attribute_value_rows (OCED__current_state m)) ids) m m'.
Proof.
  induction ids as [|i ids IH]; intros m m' H; simpl in *.
  - injection H as <-. apply appends_refl.
  - apply bind_Done_inv in H. destruct H as ([] & m1 & H1 & H2).
    apply cascade_attribute_value_rows_appends in H1. apply IH in H2.
    assert (Hcs : OCED__current_state m1 = OCED__current_state m) by apply H1.
    rewrite Hcs in H2. apply (appends_trans _ _ _ _ _ _ _ _ _ H1 H2).
Qed.

Lemma getitem_Done {St V : Type} (d : St -> gmap string V) i (s s' : St) v :
  getitem d i s = (Done v, s') -> d s !! i = Some v /\ s' = s.
Proof. unfold getitem. destruct (d s !! i); intros H; simplify_eq. auto. Qed.

Lemma delete_object__update_tables_appends i k m m' :
  delete_object__update_tables i k m = (Done tt, m') ->
  exists o, cs_object (OCED__current_state m) !! i = Some o /\
    appends [mk_object_row i (obj_type o) false]
      (flat_map (dead_relation_rows (OCED__current_state m)) (object_relation_ids o))
      (flat_map (dead_attribute_value_rows (OCED__current_state m))
         (object_attribute_value_ids o)) m m'.
Proof.
  unfold delete_object__update_tables. intros H.
  apply bind_Done_inv in H. destruct H as ([] & m1 & H1 & H).
  apply bind_Done_inv in H. destruct H as ([] & m2 & H2 & H).
  apply bind_Done_inv in H. destruct H as ([] & m3 & H3 & H4).
  apply bind_Done_inv in H1. destruct H1 as (o & m0 & Ho & H1).
  apply getitem_Done in Ho. destruct Ho as [Ho ->]. unfold model_objects in Ho.
  exists o. split; [exact Ho|].
  assert (A1 : appends [mk_object_row i (obj_type o) false] [] [] m m1).
  { revert H1. tables_inv. }
  assert (A2 : appends [] [] [] m1 m2) by (revert H2; tables_inv).
  assert (C2 : OCED__current_state m2 = OCED__current_state m).
  { transitivity (OCED__current_state m1); [apply A2 | apply A1]. }
  apply bind_Done_inv in H3. destruct H3 as (o3 & m0 & Ho3 & H3).
  apply getitem_Done in Ho3. destruct Ho3 as [Ho3 ->]. unfold model_objects in Ho3.
  rewrite C2, Ho in Ho3. injection Ho3 as <-.
  apply cascade_relations_rows_appends in H3. rewrite C2 in H3.
  assert (C3 : OCED__current_state m3 = OCED__current_state m).
  { transitivity (OCED__current_state m2); [apply H3 | exact C2]. }
  apply bind_Done_inv in H4. destruct H4 as (o4 & m0 & Ho4 & H4).
  apply getitem_Done in Ho4. destruct Ho4 as [Ho4 ->]. unfold model_objects in Ho4.
  rewrite C3, Ho in Ho4. injection Ho4 as <-.
  apply cascade_attribute_values_rows_appends in H4. rewrite C3 in H4.
  pose proof (appends_trans _ _ _ _ _ _ _ _ _
                (appends_trans _ _ _ _ _ _ _ _ _
                   (appends_trans _ _ _ _ _ _ _ _ _ A1 A2) H3) H4) as A.
  simpl in A. rewrite ?app_nil_r in A. exact A.
Qed.

(** What [__update_tables] appends to the entity tables. *)
Lemma update_tables_appends q k m m' :
  update_tables q k m = (Done tt, m') ->
  appends (object_rows q (OCED__current_state m))
    (object_relation_rows q (OCED__current_state m))
    (object_attribute_value_rows q (OCED__current_state m)) m m'.
Proof.
  destruct q; simpl;
    try (intros H; apply delete_object__update_tables_appends in H;
         destruct H as (o & -> & H); exact H);
    unfold_update_tables; tables_inv.
Qed.

Ltac state_inv :=
  unfold_update_current_state;
  unfold bind, gets, modify, getitem, raise_with, self___name__, raise, ret, known,
    missing_or_dead;
  ucs_simpl;
  repeat match goal with
         | |- context [match ?d !! ?i with _ => _ end] => destruct (d !! i) eqn:?; simpl
         | |- context [if ?b then _ else _] => destruct b eqn:?; simpl
         end;
  try discriminate;
  intros ?; simplify_eq; simpl.

Ltac follows_tac :=
  repeat match goal with
         | o : object_rec |- _ => destruct o
         | r : object_relation_rec |- _ => destruct r
         | a : object_attribute_value_rec |- _ => destruct a
         end;
  simpl in *;
  repeat match goal with
         | H : negb ?b = false |- _ => destruct b; [clear H | discriminate H]
         end;
  repeat split;
  first
    [ apply follows_nil
    | match goal with
      | |- follows _ _ _ ?d (<[?i := ?v]> ?d) =>
          first [ exact (follows_insert row_object_id object_row_of (fun _ _ => eq_refl) d i v)
                | exact (follows_insert row_object_relation_id object_relation_row_of
                           (fun _ _ => eq_refl) d i v)
                | exact (follows_insert row_object_attribute_value_id
                           object_attribute_value_row_of (fun _ _ => eq_refl) d i v) ]
      | H : ?d !! ?i = Some ?v |- follows _ _ _ ?d (alter ?f ?i ?d) =>
          first [ exact (follows_alter row_object_id object_row_of (fun _ _ => eq_refl) d i f v H)
                | exact (follows_alter row_object_relation_id object_relation_row_of
                           (fun _ _ => eq_refl) d i f v H)
                | exact (follows_alter row_object_attribute_value_id
                           object_attribute_value_row_of (fun _ _ => eq_refl) d i f v H) ]
      end
    | repeat (apply follows_hidden; [intros []; reflexivity|]); apply follows_nil ].

(** What [__update_current_state] changes is what [__update_tables]
    writes. *)
Lemma state_follows_rows q k cs inv s' :
  update_current_state q k (cs, inv) = (Done tt, s') ->
  follows row_object_id object_row_of (object_rows q cs) (cs_object cs) (the_objects s') /\
  follows row_object_relation_id object_relation_row_of (object_relation_rows q cs)
    (cs_object_relation cs) (the_relations s') /\
  follows row_object_attribute_value_id object_attribute_value_row_of
    (object_attribute_value_rows q cs) (cs_object_attribute_value cs)
    (the_attribute_values s').
Proof.
  destruct q; simpl.
  4: { intros H.
       destruct (delete_object_Done_inv _ _ _ _ _ H) as (o & Ho & Hlive & Hr & Ha).
       destruct (delete_object_Done _ inv _ k _ Ho Hlive Hr Ha) as [inv' H'].
       rewrite H' in H. injection H as <-. rewrite Ho. ucs_simpl. repeat split.
       - exact (follows_alter row_object_id object_row_of (fun _ _ => eq_refl) _ _
                  (obj_set_existency false) _ Ho).
       - unfold clear_relations.
         apply (follows_cascade row_object_relation_id object_relation_row_of
                  (fun _ _ => eq_refl) (dead_relation_rows cs) rel_existency
                  (rel_set_existency false)).
         + intros a. reflexivity.
         + apply rel_set_existency_dead.
         + intros []. reflexivity.
       - unfold clear_attribute_values.
         apply (follows_cascade row_object_attribute_value_id object_attribute_value_row_of
                  (fun _ _ => eq_refl) (dead_attribute_value_rows cs) oav_existency
                  (oav_set_existency false)).
         + intros a. reflexivity.
         + apply oav_set_existency_dead.
         + intros []. reflexivity. }
  all: destruct cs as [objs rels oavs]; state_inv; follows_tac.
Qed.

Lemma for_enumerate_Done_ind {St A : Type} (P : St -> Prop) (l : list A) body :
  (forall i x s s', P s -> body i x s = (Done tt, s') -> P s') ->
  forall n s s', for_enumerate n l body s = (Done tt, s') -> P s -> P s'.
Proof.
  intros Hb. induction l as [|x l IH]; intros n s s' H Hs; simpl in H.
  - injection H as <-. exact Hs.
  - apply bind_Done_inv in H. destruct H as ([] & s1 & H1 & H2).
    eapply IH; [exact H2|]. eapply Hb; eassumption.
Qed.

(** One qualifier of a commit: its rows, then its change of the store. *)
Lemma history_agrees_step q k m inv m1 s' :
  history_agrees m ->
  update_tables q k m = (Done tt, m1) ->
  update_current_state q k (OCED__current_state m1, inv) = (Done tt, s') ->
  history_agrees (upd_OCED__current_state (fun _ => fst s') m1).
Proof.
  intros (HO & HR & HA) Ht Hs.
  destruct (update_tables_appends q k m m1 Ht) as (EO & ER & EA & Ecs).
  rewrite Ecs in Hs. destruct (state_follows_rows q k _ inv s' Hs) as (FO & FR & FA).
  unfold history_agrees, model_objects, model_relations, model_attribute_values in *.
  oced_simpl. rewrite EO, ER, EA.
  repeat split; eapply latest_step; eassumption.
Qed.

Lemma history_agrees_execute_qualifiers qs s s' :
  execute_qualifiers qs s = (Done tt, s') ->
  history_agrees (fst s) -> history_agrees (fst s').
Proof.
  unfold execute_qualifiers.
  apply (for_enumerate_Done_ind (fun s : OCED * involved_ids => history_agrees (fst s))).
  clear. intros i q [m inv] s' H Hb. simpl in H.
  apply bind_Done_inv in Hb. destruct Hb as ([] & [m1 inv1] & H1 & H2).
  unfold on_model in H1. simpl in H1.
  destruct (update_tables q i m) as [r m1'] eqn:Ht. injection H1 as -> -> ->.
  unfold on_current_state in H2. simpl in H2.
  destruct (update_current_state q i (OCED__current_state m1, inv1)) as [r [cs' inv']] eqn:Hs.
  injection H2 as -> <-. simpl.
  apply (history_agrees_step q i m inv1 m1 (cs', inv') H Ht Hs).
Qed.

Lemma history_agrees_insert_event e m :
  history_agrees m -> history_agrees (snd (insert_event e m)).
Proof.
  intros H.
  destruct (insert_event_cases e m) as [(x & _ & ->) | (_ & m1 & Hexec & _ & ->)];
    [exact H|].
  simpl. unfold Event__execute in Hexec.
  apply bind_Done_inv in Hexec. destruct Hexec as ([] & m0 & H0 & Hq).
  assert (H0' : history_agrees m0).
  { assert (Hp : preserves history_agrees (Event__execute_tables e)).
    { unfold Event__execute_tables, concat_if_new.
      preserve_with ltac:(on_modify ltac:(intros ? ?; assumption)). }
    specialize (Hp m H). rewrite H0 in Hp. exact Hp. }
  destruct (execute_qualifiers (Event__qualifiers e) (m0, no_involved_ids))
    as [r [m1' inv']] eqn:Hx.
  injection Hq as -> ->.
  apply (history_agrees_execute_qualifiers _ _ _ Hx H0').
Qed.

(** X14. The history agrees with the current state.  After any sequence of
    calls on a fresh model, for every id the last row with that id in the
    object table holds the type and existency the object has in the current
    state, the last row in the relation table the endpoints, type and
    existency of the relation, and the last row in the attribute-value
    table the owner, name, value and existency of the attribute value; and
    an id has rows in a table exactly when it is in the store. *)
Theorem history_agrees_with_current_state (es : list Event) (i : string) :
  latest_row row_object_id i (OCED__object (insert_events es OCED__init__))
  = object_row_of i <$> model_objects (insert_events es OCED__init__) !! i /\
  latest_row row_object_relation_id i (OCED__object_relation (insert_events es OCED__init__))
  = object_relation_row_of i <$> model_relations (insert_events es OCED__init__) !! i /\
  latest_row row_object_attribute_value_id i
    (OCED__object_attribute_value (insert_events es OCED__init__))
  = object_attribute_value_row_of i
      <$> model_attribute_values (insert_events es OCED__init__) !! i.
Proof.
  assert (H : history_agrees (insert_events es OCED__init__)).
  { unfold insert_events.
    assert (H : history_agrees OCED__init__).
    { repeat split; intros j; unfold model_objects, model_relations, model_attribute_values;
        simpl; rewrite lookup_empty; reflexivity. }
    revert H. generalize OCED__init__.
    induction es as [|e es IH]; intros m H; simpl; [exact H|].
    apply IH, history_agrees_insert_event, H. }
  destruct H as (HO & HR & HA). repeat split; [apply HO | apply HR | apply HA].
Qed.

Example scenario_latest_rows :
  latest_row row_object_relation_id "r1"
    (OCED__object_relation (insert_events scenario OCED__init__))
  = Some (mk_object_relation_row "r1" "o1" "o2" "placed" false) /\
  latest_row row_object_id "o1" (OCED__object (insert_events scenario OCED__init__))
  = Some (mk_object_row "o1" "Person" false) /\
  latest_row row_object_id "o3" (OCED__object (insert_events scenario OCED__init__)) = None.
Proof. repeat split; vm_compute; reflexivity. Qed.

(** ** Deleted entities are final *)

Lemma validation_raises_when (T : current_state -> Qualifier -> bool) :
  (forall cs cs' q, state_evolves cs cs' -> T cs q = true -> T cs' q = true) ->
  (forall q k cs inv, T cs q = true ->
     is_Raise (fst (update_current_state q k (cs, inv))) = true) ->
  forall qs k cs inv q, q ∈ qs -> T cs q = true ->
    is_Raise (fst (for_enumerate k qs (fun qualifier_index qualifier =>
      update_current_state qualifier qualifier_index) (cs, inv))) = true.
Proof.
  intros Hev Hraise. induction qs as [|q0 qs IH]; intros k cs inv q Hq HT.
  - apply not_elem_of_nil in Hq. contradiction.
  - simpl. unfold bind.
    pose proof (ev_update_current_state cs q0 k (cs, inv) (state_evolves_refl cs)) as Hs.
    destruct (update_current_state q0 k (cs, inv)) as [[[]|x] [cs1 inv1]] eqn:H0;
      [|reflexivity].
    apply elem_of_cons in Hq. destruct Hq as [-> | Hq].
    + pose proof (Hraise q0 k cs inv HT) as Hr. rewrite H0 in Hr. discriminate.
    + apply (IH (S k) cs1 inv1 q Hq). eapply Hev; eassumption.
Qed.

Lemma dead_evolves {V : Type} (existency : V -> bool) (R : V -> V -> Prop)
    (d d' : gmap string V) i :
  (forall v v', R v v' -> existency v' = true -> existency v = true) ->
  map_evolves R d d' -> dead existency d i = true -> dead existency d' i = true.
Proof.
  unfold dead. intros HR H. destruct (d !! i) as [v|] eqn:Hv; [|discriminate].
  destruct (H i v Hv) as (v' & -> & Hvv'). specialize (HR v v' Hvv').
  destruct (existency v'); [|reflexivity]. rewrite HR by reflexivity. auto.
Qed.

Lemma acts_on_dead_evolves cs cs' q :
  state_evolves cs cs' -> acts_on_dead cs q = true -> acts_on_dead cs' q = true.
Proof.
  intros (HO & HR & HA).
  assert (DO : forall i, dead obj_existency (cs_object cs) i = true ->
               dead obj_existency (cs_object cs') i = true).
  { intros i. apply (dead_evolves _ object_evolves); [|exact HO]. intros v v' H. apply H. }
  assert (DR : forall i, dead rel_existency (cs_object_relation cs) i = true ->
               dead rel_existency (cs_object_relation cs') i = true).
  { intros i. apply (dead_evolves _ relation_evolves); [|exact HR]. intros v v' H. apply H. }
  assert (DA : forall i, dead oav_existency (cs_object_attribute_value cs) i = true ->
               dead oav_existency (cs_object_attribute_value cs') i = true).
  { intros i. apply (dead_evolves _ attribute_value_evolves); [|exact HA].
    intros v v' H. apply H. }
  destruct q; simpl; auto.
  rewrite !orb_true_iff. intros [[H | H] | H]; auto.
Qed.

Lemma acts_on_dead_raises q k cs inv :
  acts_on_dead cs q = true -> is_Raise (fst (update_current_state q k (cs, inv))) = true.
Proof.
  destruct cs as [objs rels oavs].
  destruct q; simpl; unfold dead; unfold_update_current_state;
    unfold bind, gets, getitem, known, missing_or_dead; ucs_simpl;
    rewrite ?orb_true_iff;
    repeat match goal with
           | |- context [match ?d !! ?i with _ => _ end] => destruct (d !! i) eqn:?; simpl
           | |- context [negb ?b] => destruct b eqn:?; simpl
           end;
    intuition (try discriminate; try reflexivity).
Qed.

(** X15. Deleted entities are final.  Once an object, relation or attribute
    value has its existency cleared, every later event that holds a
    qualifier naming it (to create, delete, modify or involve it, or to
    create a relation with it as an endpoint) is rejected, whatever else
    the event holds and however many events were inserted in between; the
    model is left as it was. *)
Theorem deleted_entities_are_final (m : OCED) (es : list Event) (e : Event) (q : Qualifier) :
  q ∈ Event__qualifiers e ->
  acts_on_dead (OCED__current_state m) q = true ->
  is_Raise (fst (insert_event e (insert_events es m))) = true /\
  snd (insert_event e (insert_events es m)) = insert_events es m.
Proof.
  intros Hq Hdead.
  assert (Hr : is_Raise (fst (insert_event e (insert_events es m))) = true).
  { pose proof (acts_on_dead_evolves _ _ q (state_evolves_insert_events es m) Hdead) as Hd.
    pose proof (validation_raises_when acts_on_dead acts_on_dead_evolves acts_on_dead_raises
                  (Event__qualifiers e) 0 (OCED__current_state (insert_events es m))
                  no_involved_ids q Hq Hd) as Hv.
    apply (precondition_raises_of_validation e (insert_events es m)) in Hv.
    destruct (insert_event_cases e (insert_events es m))
      as [(x & _ & ->) | (Hd' & _)]; [reflexivity|].
    rewrite Hd' in Hv. discriminate. }
  split; [exact Hr | apply insert_event_Raise_unchanged, Hr].
Qed.

Lemma deleted_entities_are_final_witness :
  modify_object_relation "r1" "paid"
    ∈ Event__qualifiers (ev "2024-01-09T10:00:00"
                           [create_object "o9" "Order"; modify_object_relation "r1" "paid"]) /\
  acts_on_dead (OCED__current_state (insert_events scenario OCED__init__))
    (modify_object_relation "r1" "paid") = true /\
  is_Raise (fst (insert_event
                   (ev "2024-01-09T10:00:00"
                      [create_object "o9" "Order"; modify_object_relation "r1" "paid"])
                   (insert_events [ev t5 [create_object "o5" "Order"]]
                      (insert_events scenario OCED__init__)))) = true /\
  snd (insert_event
         (ev "2024-01-09T10:00:00"
            [create_object "o9" "Order"; modify_object_relation "r1" "paid"])
         (insert_events [ev t5 [create_object "o5" "Order"]]
            (insert_events scenario OCED__init__)))
  = insert_events [ev t5 [create_object "o5" "Order"]] (insert_events scenario OCED__init__).
Proof.
  assert (H1 : modify_object_relation "r1" "paid"
               ∈ [create_object "o9" "Order"; modify_object_relation "r1" "paid"]).
  { apply elem_of_cons. right. apply elem_of_cons. left. reflexivity. }
  split; [exact H1|]. split; [vm_compute; reflexivity|].
  apply (deleted_entities_are_final (insert_events scenario OCED__init__)
           [ev t5 [create_object "o5" "Order"]]
           (ev "2024-01-09T10:00:00"
              [create_object "o9" "Order"; modify_object_relation "r1" "paid"])
           (modify_object_relation "r1" "paid")).
  - exact H1.
  - vm_compute. reflexivity.
Defined.

(** ** Every accepted event is recorded *)

Lemma listed_prefix value (values values' : list string) :
  values `prefix_of` values' -> listed value values -> listed value values'.
Proof.
  intros Hp [H | H]; [left | right]; eapply elem_of_prefix; eassumption.
Qed.

Lemma listed_plain value values :
  no_trailing_nul value -> listed value values -> value ∈ values.
Proof. unfold no_trailing_nul. intros Hv [H | H]; [exact H | rewrite Hv in H; exact H]. Qed.

Lemma event_recorded_extends k e m m' :
  history_extends m m' -> event_recorded k e m -> event_recorded k e m'.
Proof.
  intros H (H1 & H2 & H3 & H4). unfold history_extends in H.
  repeat match goal with H : _ /\ _ |- _ => destruct H end.
  repeat split.
  - eapply prefix_lookup_Some; eassumption.
  - eapply prefix_lookup_Some; eassumption.
  - eapply listed_prefix; eassumption.
  - eapply listed_prefix; [|apply H4]; eassumption.
  - eapply elem_of_prefix; [apply H4|]; eassumption.
Qed.

Section EventRows.
Variable e : Event.
Variable k : nat.

Ltac keep := preserve_with ltac:(on_modify ltac:(intros ? ?; assumption)).

Lemma type_recorded :
  returns_with (fun _ => True) (Event__execute_tables e)
    (fun m => listed (Event__event_type e) (OCED__event_type m)).
Proof.
  unfold Event__execute_tables.
  apply rw_bind_r; [intros ? ?; exact I | intros _].
  apply rw_bind_l.
  - intros m _ _. unfold concat_if_new, bind, gets. simpl.
    case_bool_decide as Hin; simpl; [right; exact Hin|].
    left. unfold concat_row. apply elem_of_app. right. left.
  - intros _. keep.
Qed.

Lemma names_recorded item :
  item ∈ dict_items (Event__event_attributes e) ->
  returns_with (fun _ => True) (Event__execute_tables e)
    (fun m => listed (fst item) (OCED__event_attribute_name m)).
Proof.
  intros Hitem. unfold Event__execute_tables.
  do 3 (apply rw_bind_r; [intros ? ?; exact I | intros _]).
  apply rw_bind_l.
  - intros m _ _. unfold bind, gets, modify. simpl.
    destruct (decide (trim_trailing_nul (fst item) ∈ OCED__event_attribute_name m))
      as [Hin|Hin].
    + right. apply elem_of_app. left. exact Hin.
    + left. apply elem_of_app. right. apply list_elem_of_filter. split; [exact Hin|].
      unfold dict_keys. apply list_elem_of_fmap_2. exact Hitem.
  - intros _. keep.
Qed.

Lemma attribute_recorded item :
  item ∈ dict_items (Event__event_attributes e) ->
  returns_with (at_event k) (Event__execute_tables e)
    (fun m => mk_event_attribute_value_row k (fst item) (snd item)
              ∈ OCED__event_attribute_value m).
Proof.
  intros Hitem. unfold Event__execute_tables.
  do 4 (apply rw_bind_r; [unfold concat_if_new; keep | intros ?]).
  intros m Hm _. unfold at_event in Hm. unfold bind, gets, modify. simpl. rewrite Hm.
  apply elem_of_app. right.
  apply (list_elem_of_fmap_2
           (fun item => mk_event_attribute_value_row k (fst item) (snd item))).
  exact Hitem.
Qed.
End EventRows.

Lemma insert_event_records_event e m :
  one_row_per_event m ->
  fst (insert_event e m) = Done tt ->
  one_row_per_event (snd (insert_event e m)) /\
  event_recorded (OCED__event_counter m) e (snd (insert_event e m)).
Proof.
  intros [L1 L2] Hres.
  destruct (insert_event_Done_effect e m Hres) as (_ & E1 & E2 & E3 & _).
  split.
  { unfold one_row_per_event. rewrite E1, E2, E3, !length_app, L1, L2. simpl. auto. }
  destruct (insert_event_cases e m) as [(x & _ & Hx) | (_ & m1 & Hexec & _ & Hm')].
  { rewrite Hx in Hres. discriminate. }
  unfold event_recorded. rewrite E1, E2.
  split; [rewrite lookup_app_r, L1, Nat.sub_diag by lia; reflexivity|].
  split; [rewrite lookup_app_r, L2, Nat.sub_diag by lia; reflexivity|].
  rewrite Hm'. simpl.
  destruct (Event__execute_tables_effect e m) as (m0 & Hm0 & _).
  assert (Hext : history_extends m0 m1).
  { unfold Event__execute in Hexec. rewrite (bind_Done _ _ _ _ _ Hm0) in Hexec.
    pose proof (he_execute_qualifiers m0 (Event__qualifiers e) (m0, no_involved_ids)
                  (history_extends_refl m0)) as H.
    destruct (execute_qualifiers _ _) as [r [m1' inv']]. injection Hexec as -> ->. exact H. }
  unfold history_extends in Hext.
  repeat match goal with H : _ /\ _ |- _ => destruct H end.
  split.
  - eapply listed_prefix; [eassumption|].
    pose proof (type_recorded e m I) as H'. rewrite Hm0 in H'. apply H'. reflexivity.
  - intros item Hitem. split.
    + eapply listed_prefix; [eassumption|].
      pose proof (names_recorded e item Hitem m I) as H'. rewrite Hm0 in H'.
      apply H'. reflexivity.
    + eapply elem_of_prefix; [|eassumption].
      pose proof (attribute_recorded e (OCED__event_counter m) item Hitem m eq_refl) as H'.
      rewrite Hm0 in H'. apply H'. reflexivity.
Qed.

Lemma accepted_events_recorded es : forall m k e,
  one_row_per_event m ->
  accepted es m !! k = Some e ->
  event_recorded (OCED__event_counter m + k) e (insert_events es m).
Proof.
  induction es as [|e0 es IH]; intros m k e Hm Hk; [discriminate|].
  simpl in Hk.
  change (insert_events (e0 :: es) m) with (insert_events es (snd (insert_event e0 m))).
  destruct (fst (insert_event e0 m)) as [[]|x] eqn:Hres; simpl in Hk.
  - destruct (insert_event_records_event e0 m Hm Hres) as [Hm' Hrec].
    destruct (insert_event_Done_state e0 m Hres) as (Hc & _).
    destruct k as [|k]; simpl in Hk.
    + injection Hk as ->. rewrite Nat.add_0_r.
      eapply event_recorded_extends; [apply history_extends_insert_events | exact Hrec].
    + replace (OCED__event_counter m + S k)
        with (OCED__event_counter (snd (insert_event e0 m)) + k) by lia.
      apply IH; assumption.
  - rewrite insert_event_Raise_unchanged by (rewrite Hres; reflexivity).
    rewrite insert_event_Raise_unchanged in Hk by (rewrite Hres; reflexivity).
    apply IH; assumption.
Qed.

(** X16. Every accepted event is recorded.  After any sequence of calls on
    a fresh model, the [k]-th accepted event has its row (id [k], type,
    time) at index [k] of the event table and its time at index [k] of the
    time column, and each of its attributes has its row (id [k], name,
    value) in the attribute-value table.  Its type is listed in the
    event-type table and the names of its attributes in the attribute-name
    table: the value is there, or the value without its trailing NUL
    characters is, which is what the membership test of the code takes it
    for; a type or name that does not end in NUL is there itself. *)
Theorem accepted_events_are_recorded (es : list Event) (k : nat) (e : Event) :
  accepted es OCED__init__ !! k = Some e ->
  OCED__event (insert_events es OCED__init__) !! k
  = Some (mk_event_row k (Event__event_type e) (Event__event_time e)) /\
  OCED__event_time (insert_events es OCED__init__) !! k = Some (Event__event_time e) /\
  listed (Event__event_type e) (OCED__event_type (insert_events es OCED__init__)) /\
  (no_trailing_nul (Event__event_type e) ->
   Event__event_type e ∈ OCED__event_type (insert_events es OCED__init__)) /\
  forall item, item ∈ dict_items (Event__event_attributes e) ->
    listed (fst item) (OCED__event_attribute_name (insert_events es OCED__init__)) /\
    (no_trailing_nul (fst item) ->
     fst item ∈ OCED__event_attribute_name (insert_events es OCED__init__)) /\
    mk_event_attribute_value_row k (fst item) (snd item)
      ∈ OCED__event_attribute_value (insert_events es OCED__init__).
Proof.
  intros Hk.
  destruct (accepted_events_recorded es OCED__init__ k e) as (H1 & H2 & H3 & H4);
    [split; reflexivity | exact Hk |].
  split; [exact H1|]. split; [exact H2|]. split; [exact H3|].
  split; [intros Hplain; apply listed_plain; assumption|].
  intros item Hitem. destruct (H4 item Hitem) as [Hname Hrow].
  split; [exact Hname|]. split; [|exact Hrow].
  intros Hplain. apply listed_plain; assumption.
Qed.

Lemma accepted_events_are_recorded_witness :
  accepted [order_placed] OCED__init__ !! 0 = Some order_placed /\
  no_trailing_nul "order placed" /\
  OCED__event (insert_events [order_placed] OCED__init__) !! 0
  = Some (mk_event_row 0 "order placed" t1) /\
  OCED__event_time (insert_events [order_placed] OCED__init__) !! 0 = Some t1 /\
  "order placed" ∈ OCED__event_type (insert_events [order_placed] OCED__init__).
Proof.
  split; [vm_compute; reflexivity|]. split; [reflexivity|].
  destruct (accepted_events_are_recorded [order_placed] 0 order_placed)
    as (H1 & H2 & _ & H3 & _); [vm_compute; reflexivity|].
  split; [exact H1|]. split; [exact H2|]. apply H3. reflexivity.
Defined.

(** ** Every junction row comes from a qualifier *)

Lemma preserves_for_enumerate_lookup {St A : Type} (P : St -> Prop) (l : list A) body :
  forall n,
  (forall i x, l !! i = Some x -> preserves P (body (n + i) x)) ->
  preserves P (for_enumerate n l body).
Proof.
  induction l as [|x l IH]; intros n Hb; simpl.
  - apply preserves_ret.
  - apply preserves_bind.
    + specialize (Hb 0 x eq_refl). rewrite Nat.add_0_r in Hb. exact Hb.
    + intros _. apply IH. intros i y Hi. specialize (Hb (S i) y Hi).
      replace (S n + i) with (n + S i) by lia. exact Hb.
Qed.

Lemma kind_eq_or_ne (K K' : kind) : K = K' \/ K <> K'.
Proof. destruct K, K'; auto; right; discriminate. Qed.

Section JunctionStep.
Variables (m0 : OCED) (k j : nat) (q : Qualifier).

Lemma junction_step_keeps f :
  (forall m, OCED__event_counter (f m) = OCED__event_counter m /\
             forall K, junction_of K (f m) = junction_of K m) ->
  preserves (junction_step m0 k j q) (modify f).
Proof.
  intros Hf. apply preserves_modify. intros m [Hc H]. destruct (Hf m) as [Ec Ej].
  split; [congruence|]. intros K row. rewrite Ej. apply H.
Qed.

Lemma junction_step_write K t qt :
  (forall row, jx_event_id row = k -> jx_qualifier_index row = j ->
     jx_target_id row = t -> jx_qualifier_type row = qt -> written_for k j q K row) ->
  forall upd,
  (forall f m, OCED__event_counter (upd f m) = OCED__event_counter m /\
               junction_of K (upd f m) = f (junction_of K m) /\
               forall K', K' <> K -> junction_of K' (upd f m) = junction_of K' m) ->
  preserves (junction_step m0 k j q) (junction upd t qt j).
Proof.
  intros Hw upd Hupd. unfold junction. apply preserves_gets_modify.
  intros m [Hc H]. destruct (Hupd (concat_row (mk_junction_row (OCED__event_counter m) t qt j)) m)
    as (Ec & EK & Eother).
  split; [congruence|]. intros K' row Hrow.
  destruct (kind_eq_or_ne K' K) as [->|Hne].
  - rewrite EK in Hrow. apply elem_of_concat_row in Hrow.
    destruct Hrow as [Hrow | ->]; [auto|]. right. apply Hw; simpl; auto.
  - rewrite (Eother K' Hne) in Hrow. auto.
Qed.
End JunctionStep.

Ltac junction_write K :=
  eapply (junction_step_write _ _ _ _ K);
  [ intros row ? ? ? ?; unfold written_for; split; [assumption|]; split; [assumption|];
    first [ left; split; [reflexivity|]; split; assumption
          | right; split; [reflexivity|]; split; [discriminate | assumption] ]
  | intros f m; split; [reflexivity|]; split; [reflexivity|];
    intros K' Hne; destruct K'; first [reflexivity | contradiction] ].

Lemma junction_step_update_tables m0 k j q :
  preserves (junction_step m0 k j q) (update_tables q j).
Proof.
  destruct q; simpl; unfold_update_tables;
    unfold concat_if_new, concat_relation_row, concat_attribute_value_row;
    preserve_with
      ltac:(first
              [ solve [junction_write Object]
              | solve [junction_write ObjectRelation]
              | solve [junction_write ObjectAttributeValue]
              | apply junction_step_keeps; intros ?; split;
                [reflexivity | intros []; reflexivity] ]).
Qed.

Lemma junction_event_execute_qualifiers m0 k qs :
  preserves (fun s : OCED * involved_ids => junction_event m0 k qs (fst s))
    (execute_qualifiers qs).
Proof.
  unfold execute_qualifiers. apply preserves_for_enumerate_lookup. intros j q Hj. simpl.
  apply preserves_bind; [| intros _].
  - apply (preserves_on_model (junction_event m0 k qs)). intros m [Hc H].
    pose proof (junction_step_update_tables m k j q m) as Hs.
    destruct Hs as [Hc' H']; [split; [exact Hc | auto]|].
    split; [exact Hc'|]. intros K row Hrow.
    destruct (H' K row Hrow) as [Hold | Hnew]; [auto|]. right. eauto.
  - apply (preserves_on_current_state (junction_event m0 k qs)). intros m cs [Hc H].
    split; [exact Hc|]. intros K row Hrow. apply H. destruct K; exact Hrow.
Qed.

(** The junction rows after an accepted event: the rows before it and rows
    written for its qualifiers, under the event id it was given. *)
Lemma junction_event_insert_event e m :
  fst (insert_event e m) = Done tt ->
  forall K row, row ∈ junction_of K (snd (insert_event e m)) ->
    row ∈ junction_of K m \/
    exists j q, Event__qualifiers e !! j = Some q /\
      written_for (OCED__event_counter m) j q K row.
Proof.
  intros Hres.
  destruct (insert_event_cases e m) as [(x & _ & Hx) | (_ & m1 & Hexec & _ & Hm')].
  { rewrite Hx in Hres. discriminate. }
  rewrite Hm'. simpl.
  destruct (Event__execute_tables_effect e m) as (m0 & Hm0 & _ & _ & Hc & E1 & E2 & E3).
  unfold Event__execute in Hexec. rewrite (bind_Done _ _ _ _ _ Hm0) in Hexec.
  pose proof (junction_event_execute_qualifiers m0 (OCED__event_counter m)
                (Event__qualifiers e) (m0, no_involved_ids)) as H.
  destruct (execute_qualifiers _ _) as [r [m1' inv']]. injection Hexec as -> ->.
  destruct H as [_ H]; [split; [exact Hc | auto]|]. simpl in H.
  intros K row Hrow.
  destruct (H K row) as [Hold | Hnew]; [destruct K; exact Hrow | | auto].
  left. destruct K; simpl in *; congruence.
Qed.

Lemma junction_rows_explained_insert_events es : forall m acc,
  OCED__event_counter m = length acc ->
  junction_rows_explained acc m ->
  junction_rows_explained (acc ++ accepted es m) (insert_events es m).
Proof.
  induction es as [|e0 es IH]; intros m acc Hc H.
  - simpl. rewrite app_nil_r. exact H.
  - simpl accepted.
    change (insert_events (e0 :: es) m) with (insert_events es (snd (insert_event e0 m))).
    destruct (fst (insert_event e0 m)) as [[]|x] eqn:Hres; simpl.
    + destruct (insert_event_Done_state e0 m Hres) as (Hc' & _).
      replace (acc ++ e0 :: accepted es (snd (insert_event e0 m)))
        with ((acc ++ [e0]) ++ accepted es (snd (insert_event e0 m)))
        by (rewrite <- app_assoc; reflexivity).
      apply IH.
      * rewrite Hc', length_app, Hc. reflexivity.
      * intros K row Hrow.
        destruct (junction_event_insert_event e0 m Hres K row Hrow)
          as [Hold | (j & q & Hq & Hw)].
        -- destruct (H K row Hold) as (e & q & He & Hq & Hw).
           exists e, q. split; [|auto]. apply lookup_app_l_Some, He.
        -- pose proof Hw as (Hk & Hj & _). exists e0, q. rewrite Hk, Hj.
           split; [|auto]. rewrite Hc. apply list_lookup_middle. reflexivity.
    + rewrite insert_event_Raise_unchanged by (rewrite Hres; reflexivity).
      apply IH; assumption.
Qed.

(** X17. Every junction row comes from a qualifier.  After any sequence of
    calls on a fresh model, a row of the junction table of a kind of entity
    carries the id [k] of an accepted event and the index [j] of one of its
    qualifiers, and is either the row of that qualifier (of this kind, with
    its target id and its type) or, in the tables of relations and
    attribute values, a [DELETE] row of the cascade of a [delete_object]. *)
Theorem junction_rows_come_from_qualifiers (es : list Event) (K : kind)
    (row : junction_row) :
  row ∈ junction_of K (insert_events es OCED__init__) ->
  exists e q,
    accepted es OCED__init__ !! jx_event_id row = Some e /\
    Event__qualifiers e !! jx_qualifier_index row = Some q /\
    ((qualifier_kind q = K /\ jx_target_id row = target_id q /\
      jx_qualifier_type row = qualifier_type q) \/
     (is_delete_object q = true /\ K <> Object /\ jx_qualifier_type row = "DELETE")).
Proof.
  intros Hrow.
  destruct (junction_rows_explained_insert_events es OCED__init__ [] eq_refl) with K row
    as (e & q & He & Hq & _ & _ & Hw).
  - intros K' row' Hrow'. destruct K'; apply not_elem_of_nil in Hrow'; contradiction.
  - exact Hrow.
  - exists e, q. auto.
Qed.

Lemma junction_rows_come_from_qualifiers_witness :
  mk_junction_row 3 "r1" "DELETE" 0
    ∈ junction_of ObjectRelation (insert_events scenario OCED__init__) /\
  exists e q,
    accepted scenario OCED__init__ !! 3 = Some e /\
    Event__qualifiers e !! 0 = Some q /\
    ((qualifier_kind q = ObjectRelation /\ "r1" = target_id q /\
      "DELETE" = qualifier_type q) \/
     (is_delete_object q = true /\ ObjectRelation <> Object /\ "DELETE" = "DELETE")).
Proof.
  assert (H : mk_junction_row 3 "r1" "DELETE" 0
              ∈ junction_of ObjectRelation (insert_events scenario OCED__init__)).
  { vm_compute. apply elem_of_cons. right. apply elem_of_cons. left. reflexivity. }
  split; [exact H|].
  apply (junction_rows_come_from_qualifiers scenario ObjectRelation
           (mk_junction_row 3 "r1" "DELETE" 0) H).
Defined.

(** ** The attribute-name table covers the attribute values *)

Lemma names_listed_alter L f i d :
  (forall a, oav_name (f a) = oav_name a) ->
  names_listed L d -> names_listed L (alter f i d).
Proof.
  intros Hf H j a Hj. rewrite lookup_alter in Hj. case_decide as Hij; [|eapply H, Hj].
  subst. destruct (d !! j) as [a0|] eqn:Ha0; [|discriminate].
  injection Hj as <-. rewrite Hf. eapply H, Ha0.
Qed.

Lemma names_listed_insert L i n v b o d :
  listed n L -> names_listed L d ->
  names_listed L (<[i := mk_object_attribute_value_rec n v b o]> d).
Proof.
  intros Hn H j a Hj. destruct (decide (i = j)) as [->|Hne].
  - rewrite lookup_insert_eq in Hj. injection Hj as <-. exact Hn.
  - rewrite lookup_insert_ne in Hj by exact Hne. eapply H, Hj.
Qed.

Lemma names_listed_update_current_state L q k :
  new_name_listed q L ->
  preserves (fun s : ucs => names_listed L (the_attribute_values s))
    (update_current_state q k).
Proof.
  intros Hq. destruct q; simpl in Hq; simpl; unfold_update_current_state;
    preserve_with
      ltac:(on_modify
              ltac:(intros [[? ? ?] ?] ?; ucs_simpl;
                    first
                      [ assumption
                      | apply names_listed_alter; [intros []; reflexivity | assumption]
                      | apply names_listed_insert; assumption ])).
Qed.

Lemma attribute_names_covered_other_tables q k :
  match q with create_object_attribute_value _ _ _ _ => False | _ => True end ->
  preserves attribute_names_covered (update_tables q k).
Proof.
  assert (Hcr : forall i (v : object_attribute_value_rec -> string) b,
            preserves attribute_names_covered (concat_attribute_value_row i v b)).
  { intros i v b m' [H1 H2]. unfold concat_attribute_value_row, bind, getitem.
    destruct (model_attribute_values m' !! i) as [a|] eqn:Ha; simpl; [|split; assumption].
    split; [|exact H2]. intros row Hrow. apply elem_of_concat_row in Hrow.
    destruct Hrow as [Hrow | ->]; [auto | simpl; eapply H2, Ha]. }
  destruct q; try contradiction; intros _; simpl;
    unfold_update_tables; unfold junction, concat_if_new, concat_relation_row;
    preserve_with
      ltac:(first [ apply Hcr | on_modify ltac:(intros ? ?; assumption) ]).
Qed.

(** The rows of [create_object_attribute_value] are written before the
    name is added to the table: the two together keep the cover. *)
Lemma attribute_names_covered_update_tables q k m :
  attribute_names_covered m ->
  attribute_names_covered (snd (update_tables q k m)) /\
  (fst (update_tables q k m) = Done tt ->
   new_name_listed q (OCED__object_attribute_name (snd (update_tables q k m)))).
Proof.
  intros H.
  destruct q;
    try (split; [apply attribute_names_covered_other_tables; [exact I | exact H]
                | intros _; exact I]).
  destruct H as [H1 H2]. simpl.
  unfold create_object_attribute_value__update_tables, junction, concat_if_new,
    bind, gets, modify, ret. simpl.
  case_bool_decide as Hin; simpl.
  - assert (Hn : listed object_attribute_name (OCED__object_attribute_name m))
      by (right; exact Hin).
    split; [|intros _; exact Hn]. split; [|exact H2].
    intros row Hrow. apply elem_of_concat_row in Hrow.
    destruct Hrow as [Hrow | ->]; [auto | exact Hn].
  - assert (Hold : forall x, listed x (OCED__object_attribute_name m) ->
                     listed x (concat_row object_attribute_name
                                 (OCED__object_attribute_name m))).
    { intros x. apply listed_prefix, prefix_app_r. reflexivity. }
    assert (Hnew : listed object_attribute_name
                     (concat_row object_attribute_name (OCED__object_attribute_name m))).
    { left. apply elem_of_app. right. left. }
    split; [|intros _; exact Hnew]. split.
    + intros row Hrow. apply elem_of_concat_row in Hrow.
      destruct Hrow as [Hrow | ->]; [auto | exact Hnew].
    + intros i a Ha. apply Hold. eapply H2, Ha.
Qed.

Lemma attribute_names_covered_insert_event e :
  preserves attribute_names_covered (insert_event e).
Proof.
  apply preserves_insert_event; [| intros ? ? H; exact H | intros ? ? H; exact H].
  apply preserves_Event__execute.
  - unfold Event__execute_tables, concat_if_new.
    preserve_with ltac:(on_modify ltac:(intros ? ?; assumption)).
  - unfold execute_qualifiers. apply preserves_for_enumerate. intros i q [m inv] H.
    simpl in H. unfold bind, on_model. simpl.
    destruct (attribute_names_covered_update_tables q i m H) as [H1 Hn].
    destruct (update_tables q i m) as [[[]|x] m1]; simpl in *; [|exact H1].
    specialize (Hn eq_refl). unfold on_current_state. simpl.
    pose proof (names_listed_update_current_state _ q i Hn (OCED__current_state m1, inv)
                  (proj2 H1)) as Hs.
    destruct (update_current_state q i (OCED__current_state m1, inv)) as [r [cs' inv']].
    simpl in *. split; [apply H1 | exact Hs].
Qed.

(** X18. The attribute-name table covers the attribute values.  After any
    sequence of calls on a fresh model, the name of every row of the
    attribute-value table and of every attribute value of the current state
    is listed in the [object_attribute_name] table: the name is there, or
    the name without its trailing NUL characters is, which is what the
    membership test of the code takes it for; a name that does not end in
    NUL is there itself. *)
Theorem attribute_names_are_listed (es : list Event) :
  (forall row, row ∈ OCED__object_attribute_value (insert_events es OCED__init__) ->
     listed (row_object_attribute_name row)
       (OCED__object_attribute_name (insert_events es OCED__init__)) /\
     (no_trailing_nul (row_object_attribute_name row) ->
      row_object_attribute_name row
        ∈ OCED__object_attribute_name (insert_events es OCED__init__))) /\
  (forall i a, model_attribute_values (insert_events es OCED__init__) !! i = Some a ->
     listed (oav_name a) (OCED__object_attribute_name (insert_events es OCED__init__)) /\
     (no_trailing_nul (oav_name a) ->
      oav_name a ∈ OCED__object_attribute_name (insert_events es OCED__init__))).
Proof.
  assert (Hcover : attribute_names_covered (insert_events es OCED__init__)).
  { unfold insert_events.
    assert (H : attribute_names_covered OCED__init__).
    { split; [intros row Hrow; apply not_elem_of_nil in Hrow; contradiction|].
      intros i a Hi. unfold model_attribute_values in Hi. simpl in Hi.
      rewrite lookup_empty in Hi. discriminate. }
    revert H. generalize OCED__init__.
    induction es as [|e es IH]; intros m H; simpl; [exact H|].
    apply IH, attribute_names_covered_insert_event, H. }
  destruct Hcover as [Hrows Hstate]. split.
  - intros row Hrow. split; [apply Hrows, Hrow|].
    intros Hplain. apply listed_plain; [exact Hplain | apply Hrows, Hrow].
  - intros i a Ha. split; [eapply Hstate, Ha|].
    intros Hplain. apply listed_plain; [exact Hplain | eapply Hstate, Ha].
Qed.

(** The same does not hold of the object types: [modify_object] writes a
    row with the new type and leaves the [object_type] table alone. *)
Example modified_type_is_not_listed :
  let m := insert_events [ev t1 [create_object "o1" "Person"];
                          ev t2 [modify_object "o1" "Customer"]] OCED__init__ in
  map row_object_type (OCED__object m) = ["Person"; "Customer"] /\
  OCED__object_type m = ["Person"].
Proof. split; vm_compute; reflexivity. Qed.

Lemma attribute_names_are_listed_witness :
  mk_object_attribute_value_row "v1" "o1" "colour" "red" true
    ∈ OCED__object_attribute_value
        (insert_events [ev t1 [create_object "o1" "Person";
                               create_object_attribute_value "v1" "o1" "colour" "red"]]
           OCED__init__) /\
  no_trailing_nul "colour" /\
  "colour"
    ∈ OCED__object_attribute_name
        (insert_events [ev t1 [create_object "o1" "Person";
                               create_object_attribute_value "v1" "o1" "colour" "red"]]
           OCED__init__).
Proof.
  assert (H : mk_object_attribute_value_row "v1" "o1" "colour" "red" true
              ∈ OCED__object_attribute_value
                  (insert_events
                     [ev t1 [create_object "o1" "Person";
                             create_object_attribute_value "v1" "o1" "colour" "red"]]
                     OCED__init__)).
  { vm_compute. apply elem_of_cons. left. reflexivity. }
  split; [exact H|]. split; [reflexivity|].
  apply (proj2 (proj1 (attribute_names_are_listed
                         [ev t1 [create_object "o1" "Person";
                                 create_object_attribute_value "v1" "o1" "colour" "red"]])
                  (mk_object_attribute_value_row "v1" "o1" "colour" "red" true) H)).
  reflexivity.
Defined.
